(** * PolyPilot: extract_session_metrics.py

    A shallow embedding of [Resources/LlmEfficiency/extract_session_metrics.py]
    and the properties of its cost model, telemetry block extractor, event
    stream parser and dev-loop analysis.

    Conventions of the embedding:
    - Python [int] is [Z]; Python [str] is [string] (one [ascii] per
      character, so the model covers ASCII text); [None] is [option].
    - a Python [float] is the rational number it denotes ([Q], compared
      with [==]), and an operation on floats is the exact operation
      followed by a rounding [fl] to a representable number. The
      definitions take [fl] as a parameter: [b64] is the rounding of
      IEEE 754 binary64 (nearest, ties to even; the exponent range is not
      modelled), [exact] is arithmetic without rounding. [round(x, n)]
      rounds the exact value of [x] to the nearest multiple of [10^-n],
      ties to even, and returns the float nearest to it, as CPython does.
    - [dict] objects with a fixed set of keys are records; the tool-call
      map is a [gmap]; objects that the program mutates after sharing them
      live in an explicit store and are referred to by location. *)

From Stdlib Require Import ZArith QArith Qround Qpower Lia Lqa String Ascii List Bool.
From stdpp Require Import base option list gmap strings.

Local Open Scope string_scope.
Local Open Scope Z_scope.
Local Open Scope list_scope.

(** ** Part I. Definitions *)

(** *** Numbers *)

(** Nearest integer to [q], ties to the even neighbour. *)
Definition round_half_even (q : Q) : Z :=
  let f := Qfloor q in
  match Qcompare (q - inject_Z f)%Q (1 # 2)%Q with
  | Lt => f
  | Gt => f + 1
  | Eq => if Z.even f then f else f + 1
  end.

(** Binary64: the significand has 53 bits. *)

Definition pow2 (k : Z) : Q := (2 ^ k)%Q.

(** The exponent [e] with [2^e <= a < 2^(e+1)], for [a > 0]. *)
Definition binade (a : Q) : Z :=
  let e0 := Z.log2 (Qnum a) - Z.log2 (Zpos (Qden a)) in
  if Qle_bool (pow2 e0) a then e0 else e0 - 1.

(** The nearest number with a 53-bit significand, ties to even, for [a > 0]. *)
Definition b64_pos (a : Q) : Q :=
  let p := binade a - 52 in
  (inject_Z (round_half_even (a / pow2 p)) * pow2 p)%Q.

Definition b64 (q : Q) : Q :=
  Qred match Qcompare q 0 with
       | Eq => 0
       | Gt => b64_pos q
       | Lt => - b64_pos (- q)
       end%Q.

(** Arithmetic without rounding. *)
Definition exact (q : Q) : Q := q.

Section Floats.
(** The rounding of the results of float operations. *)
Variable fl : Q -> Q.

(** The float of an [int] and of a decimal literal. *)
Definition float_of_int (z : Z) : Q := fl (inject_Z z).
Definition float_lit (q : Q) : Q := fl q.

Definition fadd (x y : Q) : Q := fl (x + y).
Definition fmul (x y : Q) : Q := fl (x * y).
Definition fdiv (x y : Q) : Q := fl (x / y).

(** [a / b] on numbers: [ZeroDivisionError] is [None]. *)
Definition py_truediv (a b : Q) : option Q :=
  if Qeq_bool b 0 then None else Some (fdiv a b).

(** [round(x, ndigits)] for a float [x] and [ndigits >= 0]. *)
Definition py_round (x : Q) (ndigits : nat) : Q :=
  let scale := inject_Z (10 ^ Z.of_nat ndigits) in
  fl (inject_Z (round_half_even (x * scale)) / scale).
End Floats.

(** *** Cost model *)

Record pricing := Pricing {
  p_input : Q;
  p_output : Q;
  p_cached_input : Q
}.

(** A price written with two decimals, [usd 150 = 1.50]. *)
Definition usd (hundredths : Z) : Q := (hundredths # 100)%Q.

Definition MODEL_PRICING : list (string * pricing) :=
  [ ("claude-opus-4.6",      Pricing (usd 1500) (usd 7500) (usd 150));
    ("claude-opus-4.5",      Pricing (usd 1500) (usd 7500) (usd 150));
    ("claude-sonnet-4.6",    Pricing (usd 300)  (usd 1500) (usd 30));
    ("claude-sonnet-4.5",    Pricing (usd 300)  (usd 1500) (usd 30));
    ("claude-sonnet-4",      Pricing (usd 300)  (usd 1500) (usd 30));
    ("claude-haiku-4.5",     Pricing (usd 80)   (usd 400)  (usd 8));
    ("gpt-5.3-codex",        Pricing (usd 200)  (usd 800)  (usd 50));
    ("gpt-5.2-codex",        Pricing (usd 200)  (usd 800)  (usd 50));
    ("gpt-5.2",              Pricing (usd 200)  (usd 800)  (usd 50));
    ("gpt-5.1-codex-max",    Pricing (usd 200)  (usd 800)  (usd 50));
    ("gpt-5.1-codex",        Pricing (usd 200)  (usd 800)  (usd 50));
    ("gpt-5.1",              Pricing (usd 200)  (usd 800)  (usd 50));
    ("gpt-5.1-codex-mini",   Pricing (usd 40)   (usd 160)  (usd 10));
    ("gpt-5-mini",           Pricing (usd 40)   (usd 160)  (usd 10));
    ("gpt-4.1",              Pricing (usd 200)  (usd 800)  (usd 50));
    ("gemini-3-pro-preview", Pricing (usd 125)  (usd 1000) (usd 31)) ].

Definition DEFAULT_PRICING : pricing := Pricing (usd 300) (usd 1500) (usd 30).

(** [d.get(key, default)] on a dict literal with distinct keys. *)
Fixpoint dict_get {V} (d : list (string * V)) (key : string) (default : V) : V :=
  match d with
  | [] => default
  | (k, v) :: d' => if String.eqb k key then v else dict_get d' key default
  end.

Section CostModel.
Variable fl : Q -> Q.

Local Notation "x +. y" := (fadd fl x y) (at level 50, left associativity).
Local Notation "x *. y" := (fmul fl x y) (at level 40, left associativity).
Local Notation "x /. y" := (fdiv fl x y) (at level 40, left associativity).

Definition compute_cost (input_tokens output_tokens cache_read_tokens : Z)
    (model : string) : Q :=
  let pricing := dict_get MODEL_PRICING model DEFAULT_PRICING in
  let fresh_input := Z.max 0 (input_tokens - cache_read_tokens) in
  let cost :=
    (float_of_int fl fresh_input *. float_lit fl (p_input pricing)
       /. float_of_int fl 1000000)
    +. (float_of_int fl cache_read_tokens *. float_lit fl (p_cached_input pricing)
          /. float_of_int fl 1000000)
    +. (float_of_int fl output_tokens *. float_lit fl (p_output pricing)
          /. float_of_int fl 1000000) in
  py_round fl cost 6.
End CostModel.

(** *** Strings *)

Definition is_digit (c : ascii) : bool :=
  let n := N_of_ascii c in ((48 <=? n) && (n <=? 57))%N.

(** [str.isspace] and the class [\s], on ASCII. *)
Definition is_space (c : ascii) : bool :=
  let n := N_of_ascii c in
  (((9 <=? n) && (n <=? 13)) || ((28 <=? n) && (n <=? 32)))%N.

Definition lower_ascii (c : ascii) : ascii :=
  let n := N_of_ascii c in
  if ((65 <=? n) && (n <=? 90))%N then ascii_of_N (n + 32) else c.

(** [s.lower()] *)
Fixpoint lower (s : string) : string :=
  match s with
  | "" => ""
  | String c s' => String (lower_ascii c) (lower s')
  end.

(** [sub in s] *)
Fixpoint contains (sub s : string) : bool :=
  String.prefix sub s ||
  match s with
  | "" => false
  | String _ s' => contains sub s'
  end.

(** [any(kw in s for kw in kws)] *)
Definition any_in (kws : list string) (s : string) : bool :=
  existsb (fun kw => contains kw s) kws.

(** [s[:n]] *)
Definition py_take (n : nat) (s : string) : string := substring 0 n s.

Fixpoint lstrip (s : string) : string :=
  match s with
  | "" => ""
  | String c s' => if is_space c then lstrip s' else s
  end.

Fixpoint rstrip (s : string) : string :=
  match s with
  | "" => ""
  | String c s' =>
      match rstrip s' with
      | "" => if is_space c then "" else String c ""
      | r => String c r
      end
  end.

(** [s.strip()] *)
Definition strip (s : string) : string := rstrip (lstrip s).

(** [s.count(c)] for a one-character [c]. *)
Fixpoint count_char (c : ascii) (s : string) : Z :=
  match s with
  | "" => 0
  | String c' s' => (if Ascii.eqb c c' then 1 else 0) + count_char c s'
  end.

(** [sep.join(ls)] *)
Definition join (sep : string) (ls : list string) : string := String.concat sep ls.

(** [int(s)] for a string of ASCII digits. *)
Definition digit_val (c : ascii) : Z := Z.of_N (N_of_ascii c) - 48.

Fixpoint int_of_digits_from (acc : Z) (s : string) : Z :=
  match s with
  | "" => acc
  | String c s' => int_of_digits_from (10 * acc + digit_val c) s'
  end.

Definition py_int (s : string) : Z := int_of_digits_from 0 s.

(** [a < b] on strings: lexicographic by character code. *)
Definition str_lt (a b : string) : bool := String.ltb a b.

(** *** Regular expressions

    The three patterns of the program use literals, the classes [\d], [\s]
    and [[\d:.]], greedy [*] and [+], bounded repetition and capture groups.
    [re_at] is a backtracking matcher with Python's preference order
    (greedy first); the continuation receives the rest of the text and the
    captured groups, in order of their closing. *)

Inductive regex :=
| Lit (s : string)
| Cls (p : ascii -> bool)
| Cat (r1 r2 : regex)
| Star (r : regex)
| Grp (r : regex).

Definition Plus (r : regex) : regex := Cat r (Star r).

Fixpoint Rep (n : nat) (r : regex) : regex :=
  match n with
  | O => Lit ""
  | S n' => Cat r (Rep n' r)
  end.

Fixpoint drop_prefix (p s : string) : option string :=
  match p, s with
  | "", _ => Some s
  | String a p', String b s' => if Ascii.eqb a b then drop_prefix p' s' else None
  | _, _ => None
  end.

Section Matcher.
Context {R : Type}.

Fixpoint re_at (r : regex) (s : string) (caps : list string)
    (k : string -> list string -> option R) {struct r} : option R :=
  match r with
  | Lit l =>
      match drop_prefix l s with
      | Some s' => k s' caps
      | None => None
      end
  | Cls p =>
      match s with
      | String c s' => if p c then k s' caps else None
      | "" => None
      end
  | Cat r1 r2 => re_at r1 s caps (fun s' caps' => re_at r2 s' caps' k)
  | Grp r1 =>
      re_at r1 s caps (fun s' caps' =>
        k s' (caps' ++ [py_take (String.length s - String.length s') s]))
  | Star r1 =>
      (fix loop (fuel : nat) (s : string) (caps : list string) : option R :=
         match fuel with
         | O => k s caps
         | S fuel' =>
             match re_at r1 s caps (fun s' caps' =>
                     if (String.length s' <? String.length s)%nat
                     then loop fuel' s' caps' else None) with
             | Some x => Some x
             | None => k s caps
             end
         end) (String.length s) s caps
  end.
End Matcher.

(** [re.match(r, s)]: the groups and the text after the match. *)
Definition re_match (r : regex) (s : string) : option (list string * string) :=
  re_at r s [] (fun rest caps => Some (caps, rest)).

(** [re.search(r, s)]: the groups of the leftmost match. *)
Fixpoint re_search (r : regex) (s : string) : option (list string) :=
  match re_match r s with
  | Some (caps, _) => Some caps
  | None =>
      match s with
      | "" => None
      | String _ s' => re_search r s'
      end
  end.

(** [re.sub('^' + r, '', s)]: a pattern anchored at the start of the text
    matches at most once, at position 0. *)
Definition re_sub_anchored_empty (r : regex) (s : string) : string :=
  match re_match r s with
  | Some (_, rest) => rest
  | None => s
  end.

Definition digit : regex := Cls is_digit.
Definition space : regex := Cls is_space.

(** [r'^\d{4}-\d{2}-\d{2}T[\d:.]+Z\s*'] without its anchor. *)
Definition TIMESTAMP_PREFIX : regex :=
  Cat (Rep 4 digit) (Cat (Lit "-") (Cat (Rep 2 digit) (Cat (Lit "-")
  (Cat (Rep 2 digit) (Cat (Lit "T")
  (Cat (Plus (Cls (fun c => is_digit c || Ascii.eqb c ":" || Ascii.eqb c ".")))
  (Cat (Lit "Z") (Star space)))))))).

(** [r'(\d+)\s+Error\(s\)'] *)
Definition ERROR_COUNT : regex :=
  Cat (Grp (Plus digit)) (Cat (Plus space) (Lit "Error(s)")).

(** [r'Passed!\s*-\s*Failed:\s*(\d+),\s*Passed:\s*(\d+)'] *)
Definition TEST_SUMMARY : regex :=
  Cat (Lit "Passed!") (Cat (Star space) (Cat (Lit "-") (Cat (Star space)
  (Cat (Lit "Failed:") (Cat (Star space) (Cat (Grp (Plus digit))
  (Cat (Lit ",") (Cat (Star space) (Cat (Lit "Passed:") (Cat (Star space)
  (Grp (Plus digit)))))))))))).

(** *** Telemetry block extraction ([parse_process_log]) *)

(** [content.split("\n")] *)
Fixpoint split_lines (content : string) : list string :=
  match content with
  | "" => [""]
  | String c rest =>
      match split_lines rest with
      | l :: ls => if Ascii.eqb c "010" then "" :: l :: ls else String c l :: ls
      | [] => [String c ""]
      end
  end.

Definition TELEMETRY_MARKER : string := "[Telemetry] cli.telemetry:".

(** The test of the inner loop for the first line of a block. *)
Definition is_block_start (stripped : string) : bool :=
  String.prefix "{" (strip stripped).

(** The inner [while] loop, on [lines[i:]]. The result is [json_lines] and
    [lines[i:]] at the exit of the loop: at a [break] the index still
    points to the line that closed the block. *)
Fixpoint collect_block (ls : list string) (json_lines : list string)
    (brace_count : Z) (started : bool) : list string * list string :=
  match ls with
  | [] => (json_lines, [])
  | line :: rest =>
      let stripped := re_sub_anchored_empty TIMESTAMP_PREFIX line in
      let started :=
        if negb started && is_block_start stripped then true else started in
      if started then
        let json_lines := json_lines ++ [stripped] in
        let brace_count :=
          brace_count + (count_char "{" stripped - count_char "}" stripped) in
        if (brace_count <=? 0) && started then (json_lines, ls)
        else collect_block rest json_lines brace_count started
      else if started then (json_lines, ls)
      else collect_block rest json_lines brace_count started
  end.

(** One telemetry object after [json.loads], with the reads of
    [parse_process_log] and their defaults applied. *)
Record telemetry_block := TelemetryBlock {
  b_kind : option string;
  b_session_id : string;
  b_model : string;
  b_initiator : string;
  b_api_call_id : string;
  b_input_tokens : Z;
  b_output_tokens : Z;
  b_cache_read_tokens : Z;
  b_cache_write_tokens : Z;
  b_cost : Q;
  b_duration : Z
}.

Record llm_call := LlmCall {
  c_model : string;
  c_initiator : string;
  c_api_call_id : string;
  c_input_tokens : Z;
  c_output_tokens : Z;
  c_cache_read_tokens : Z;
  c_cache_write_tokens : Z;
  c_cost : Q;
  c_duration_ms : Z
}.

(** The outer [while] loop, on [lines[i:]], collecting the text of every
    candidate block (the argument of [json.loads]). Each round consumes
    at least one line, so [length lines] rounds are enough. *)
Fixpoint scan_candidates (fuel : nat) (ls : list string)
    (found : list (list string)) : list (list string) :=
  match fuel with
  | O => found
  | S fuel' =>
      match ls with
      | [] => found
      | line :: rest =>
          if contains TELEMETRY_MARKER line then
            let '(json_lines, ls') := collect_block rest [] 0 false in
            let found' :=
              match json_lines with
              | [] => found
              | _ => found ++ [json_lines]
              end in
            scan_candidates fuel' (tail ls') found'
          else scan_candidates fuel' rest found
      end
  end.

Definition candidate_blocks (lines : list string) : list (list string) :=
  scan_candidates (length lines) lines [].

Section ProcessLog.
(** [json.loads] on the text of a block; [None] is [JSONDecodeError]. *)
Variable json_loads : string -> option telemetry_block.

Definition usage_blocks (lines : list string) : list telemetry_block :=
  flat_map (fun json_lines =>
    match json_loads (join (String "010" "") json_lines) with
    | Some block =>
        match b_kind block with
        | Some kind => if String.eqb kind "assistant_usage" then [block] else []
        | None => []
        end
    | None => []
    end) (candidate_blocks lines).

(** [log_path] is the content of the log, [None] when there is no log
    or it cannot be read. *)
Definition parse_process_log (log : option string) (session_id : string)
    : list llm_call :=
  match log with
  | None => []
  | Some content =>
      flat_map (fun block =>
        if negb (String.eqb session_id "")
           && negb (String.eqb (b_session_id block) session_id)
        then []
        else [ LlmCall (b_model block) (b_initiator block) (b_api_call_id block)
                 (b_input_tokens block) (b_output_tokens block)
                 (b_cache_read_tokens block) (b_cache_write_tokens block)
                 (b_cost block) (b_duration block) ])
        (usage_blocks (split_lines content))
  end.
End ProcessLog.

(** *** Event stream ([parse_events]) *)

(** One decoded line of [events.jsonl]: the [type] tag with the fields of
    [data] that the parser reads, defaults applied. The timestamp travels
    beside it. *)
Inductive event :=
| SessionStart (sessionId copilotVersion : string) (startTime : option string)
    (cwd gitRoot branch repository : string)
| UserMessage (content : string)
| TurnStart (turnId : string)
| TurnEnd
| AssistantMessage (toolRequests : list string)
| ToolExecutionStart (toolName toolCallId command description : string)
| ToolExecutionComplete (toolCallId : string) (success : bool)
    (result_content : string)
| SubagentStarted (toolCallId agentName agentDisplayName : string)
| SubagentCompleted (toolCallId : string)
| CompactionStart
| CompactionComplete (preCompactionTokens : option Z) (success : bool)
| SessionError (errorType message : string)
| ModeChanged
| PlanChanged
| TaskComplete
| OtherEvent (etype : string).

Record session_info := SessionInfo {
  s_id : string;
  s_copilotVersion : string;
  s_startTime : string;
  s_cwd : string;
  s_gitRoot : string;
  s_branch : string;
  s_repository : string
}.

Record user_message := UserMessageRec {
  um_content_preview : string;
  um_timestamp : string;
  um_full_length : Z
}.

Record turn := Turn {
  t_turnId : string;
  t_startTime : string;
  t_endTime : option string;
  t_tool_calls : list string;
  t_message_count : Z
}.

Record tool_start := ToolStart {
  ts_name : string;
  ts_timestamp : string;
  ts_toolCallId : string
}.

Record tool_complete := ToolComplete {
  tc_toolCallId : string;
  tc_name : string;
  tc_success : bool;
  tc_startTime : string;
  tc_endTime : string
}.

Record subagent := Subagent {
  sa_toolCallId : string;
  sa_name : string;
  sa_displayName : string;
  sa_startTime : string;
  sa_endTime : option string
}.

Record compaction := Compaction {
  cp_startTime : string;
  cp_endTime : option string;
  cp_preTokens : option Z;
  cp_success : option bool
}.

Record session_error := SessionErrorRec {
  er_type : string;
  er_message : string;
  er_timestamp : string
}.

Inductive dl_type := Build | Test.

(** A dev-loop dict. The keys written at completion are absent before. *)
Record dev_loop_action := DevLoop {
  dl_kind : dl_type;
  dl_command : string;
  dl_description : string;
  dl_startTime : string;
  dl_endTime : option string;
  dl_duration_ms : option (option Z);
  dl_success : option bool;
  dl_result_preview : option string;
  dl_test_failed : option Z;
  dl_test_passed : option Z
}.

(** An entry of [tool_start_map]. The dev-loop dict is shared between the
    map entry and [events["dev_loop"]], so both hold its location in
    the store of dev-loop dicts. *)
Record start_info := StartInfo {
  si_name : string;
  si_timestamp : string;
  si_command : string;
  si_description : string;
  si_dev_loop : option nat
}.

Record events := Events {
  e_session_info : option session_info;
  e_user_messages : list user_message;
  e_turns : list turn;
  e_tool_starts : list tool_start;
  e_tool_completes : list tool_complete;
  e_subagents : list subagent;
  e_compactions : list compaction;
  e_errors : list session_error;
  e_mode_changes : list string;
  e_plan_changes : Z;
  e_task_completes : Z;
  e_dev_loop : list nat
}.

(** The state of the loop of [parse_events]. *)
Record parser := Parser {
  p_events : events;
  p_current_turn : option turn;
  p_tool_start_map : gmap string start_info;
  p_store : list dev_loop_action
}.

Definition with_session_info v (e : events) : events :=
  Events v (e_user_messages e) (e_turns e) (e_tool_starts e) (e_tool_completes e)
    (e_subagents e) (e_compactions e) (e_errors e) (e_mode_changes e)
    (e_plan_changes e) (e_task_completes e) (e_dev_loop e).
Definition with_user_messages v (e : events) : events :=
  Events (e_session_info e) v (e_turns e) (e_tool_starts e) (e_tool_completes e)
    (e_subagents e) (e_compactions e) (e_errors e) (e_mode_changes e)
    (e_plan_changes e) (e_task_completes e) (e_dev_loop e).
Definition with_turns v (e : events) : events :=
  Events (e_session_info e) (e_user_messages e) v (e_tool_starts e) (e_tool_completes e)
    (e_subagents e) (e_compactions e) (e_errors e) (e_mode_changes e)
    (e_plan_changes e) (e_task_completes e) (e_dev_loop e).
Definition with_tool_starts v (e : events) : events :=
  Events (e_session_info e) (e_user_messages e) (e_turns e) v (e_tool_completes e)
    (e_subagents e) (e_compactions e) (e_errors e) (e_mode_changes e)
    (e_plan_changes e) (e_task_completes e) (e_dev_loop e).
Definition with_tool_completes v (e : events) : events :=
  Events (e_session_info e) (e_user_messages e) (e_turns e) (e_tool_starts e) v
    (e_subagents e) (e_compactions e) (e_errors e) (e_mode_changes e)
    (e_plan_changes e) (e_task_completes e) (e_dev_loop e).
Definition with_subagents v (e : events) : events :=
  Events (e_session_info e) (e_user_messages e) (e_turns e) (e_tool_starts e)
    (e_tool_completes e) v (e_compactions e) (e_errors e) (e_mode_changes e)
    (e_plan_changes e) (e_task_completes e) (e_dev_loop e).
Definition with_compactions v (e : events) : events :=
  Events (e_session_info e) (e_user_messages e) (e_turns e) (e_tool_starts e)
    (e_tool_completes e) (e_subagents e) v (e_errors e) (e_mode_changes e)
    (e_plan_changes e) (e_task_completes e) (e_dev_loop e).
Definition with_errors v (e : events) : events :=
  Events (e_session_info e) (e_user_messages e) (e_turns e) (e_tool_starts e)
    (e_tool_completes e) (e_subagents e) (e_compactions e) v (e_mode_changes e)
    (e_plan_changes e) (e_task_completes e) (e_dev_loop e).
Definition with_mode_changes v (e : events) : events :=
  Events (e_session_info e) (e_user_messages e) (e_turns e) (e_tool_starts e)
    (e_tool_completes e) (e_subagents e) (e_compactions e) (e_errors e) v
    (e_plan_changes e) (e_task_completes e) (e_dev_loop e).
Definition with_plan_changes v (e : events) : events :=
  Events (e_session_info e) (e_user_messages e) (e_turns e) (e_tool_starts e)
    (e_tool_completes e) (e_subagents e) (e_compactions e) (e_errors e)
    (e_mode_changes e) v (e_task_completes e) (e_dev_loop e).
Definition with_task_completes v (e : events) : events :=
  Events (e_session_info e) (e_user_messages e) (e_turns e) (e_tool_starts e)
    (e_tool_completes e) (e_subagents e) (e_compactions e) (e_errors e)
    (e_mode_changes e) (e_plan_changes e) v (e_dev_loop e).
Definition with_dev_loop v (e : events) : events :=
  Events (e_session_info e) (e_user_messages e) (e_turns e) (e_tool_starts e)
    (e_tool_completes e) (e_subagents e) (e_compactions e) (e_errors e)
    (e_mode_changes e) (e_plan_changes e) (e_task_completes e) v.

Definition with_events (f : events -> events) (p : parser) : parser :=
  Parser (f (p_events p)) (p_current_turn p) (p_tool_start_map p) (p_store p).
Definition with_current_turn v (p : parser) : parser :=
  Parser (p_events p) v (p_tool_start_map p) (p_store p).
Definition with_tool_start_map v (p : parser) : parser :=
  Parser (p_events p) (p_current_turn p) v (p_store p).
Definition with_store v (p : parser) : parser :=
  Parser (p_events p) (p_current_turn p) (p_tool_start_map p) v.

Definition initial_events : events :=
  Events None [] [] [] [] [] [] [] [] 0 0 [].

Definition initial_parser : parser := Parser initial_events None ∅ [].

Definition BUILD_KEYWORDS : list string :=
  [ "dotnet build"; "dotnet msbuild"; "msbuild"; "npm run build";
    "cargo build"; "go build"; "make"; "cmake"; "gradle build";
    "mvn compile"; "mvn package"; "tsc"; "webpack" ].

Definition TEST_KEYWORDS : list string :=
  [ "dotnet test"; "npm test"; "npm run test"; "cargo test";
    "go test"; "pytest"; "jest"; "mocha"; "xunit"; "nunit";
    "gradle test"; "mvn test" ].

Definition BUILD_FAILURE_PHRASES : list string :=
  [ "build failed"; "error(s)"; "compilation error";
    "failed!"; "error cs"; "error ts"; "error:"; "exited with exit code 1";
    "exited with exit code 2" ].

Definition TEST_FAILURE_PHRASES : list string :=
  [ "test run failed"; "tests failed" ].

(** [error_match]: the number captured by the error-count pattern. *)
Definition error_match (result_content : string) : option Z :=
  match re_search ERROR_COUNT result_content with
  | Some (n :: _) => Some (py_int n)
  | _ => None
  end.

(** [test_passed_match]: the failed and passed counts of the summary. *)
Definition test_passed_match (result_content : string) : option (Z * Z) :=
  match re_search TEST_SUMMARY result_content with
  | Some (f :: p :: _) => Some (py_int f, py_int p)
  | _ => None
  end.

Definition build_failed (result_content : string) : bool :=
  let result_lower := lower result_content in
  let build_failed := any_in BUILD_FAILURE_PHRASES result_lower in
  match error_match result_content with
  | Some n => 0 <? n
  | None => build_failed
  end.

Definition test_failed (result_content : string) : bool :=
  let result_lower := lower result_content in
  match test_passed_match result_content with
  | Some (failed, _) => 0 <? failed
  | None => if any_in TEST_FAILURE_PHRASES result_lower then true else false
  end.

(** [subagent.completed]: the first entry with this id and no end time. *)
Fixpoint complete_subagent (tcid ts : string) (sas : list subagent) : list subagent :=
  match sas with
  | [] => []
  | sa :: sas' =>
      if String.eqb (sa_toolCallId sa) tcid && bool_decide (sa_endTime sa = None)
      then Subagent (sa_toolCallId sa) (sa_name sa) (sa_displayName sa)
             (sa_startTime sa) (Some ts) :: sas'
      else sa :: complete_subagent tcid ts sas'
  end.

(** [session.compaction_complete]: only the last entry is looked at. *)
Definition complete_compaction (ts : string) (preTokens : option Z) (success : bool)
    (cs : list compaction) : list compaction :=
  match last cs with
  | Some l =>
      match cp_endTime l with
      | None =>
          <[pred (length cs) :=
              Compaction (cp_startTime l) (Some ts) preTokens (Some success)]> cs
      | Some _ => cs
      end
  | None => cs
  end.

Section Parser.
(** [compute_duration_ms(start_ts, end_ts)]: the difference of two ISO
    timestamps in milliseconds, [None] when one of them does not parse.
    It rests on [datetime.fromisoformat]; no property below depends on
    what it returns. *)
Variable compute_duration_ms : string -> string -> option Z.

(** The update of a dev-loop dict at [tool.execution_complete]. *)
Definition finalize_dev_loop (dl : dev_loop_action) (success : bool)
    (result_content ts : string) : dev_loop_action :=
  let build_failed := build_failed result_content in
  let test_failed := test_failed result_content in
  let m := test_passed_match result_content in
  DevLoop (dl_kind dl) (dl_command dl) (dl_description dl) (dl_startTime dl)
    (Some ts)
    (Some (compute_duration_ms (dl_startTime dl) ts))
    (Some (success && negb build_failed && negb test_failed))
    (Some (py_take 200 result_content))
    (match m with Some (failed, _) => Some failed | None => dl_test_failed dl end)
    (match m with Some (_, passed) => Some passed | None => dl_test_passed dl end).

(** The body of the loop of [parse_events] for one decoded event. *)
Definition handle_event (e : event) (ts : string) (p : parser) : parser :=
  match e with
  | SessionStart sessionId copilotVersion startTime cwd gitRoot branch repository =>
      with_events (with_session_info
        (Some (SessionInfo sessionId copilotVersion (default ts startTime)
                 cwd gitRoot branch repository))) p
  | UserMessage content =>
      with_events (fun ev => with_user_messages
        (e_user_messages ev ++
           [UserMessageRec (py_take 200 content) ts
              (Z.of_nat (String.length content))]) ev) p
  | TurnStart turnId =>
      with_current_turn (Some (Turn turnId ts None [] 0)) p
  | TurnEnd =>
      match p_current_turn p with
      | Some t =>
          let t := Turn (t_turnId t) (t_startTime t) (Some ts)
                     (t_tool_calls t) (t_message_count t) in
          with_current_turn None
            (with_events (fun ev => with_turns (e_turns ev ++ [t]) ev) p)
      | None => p
      end
  | AssistantMessage toolRequests =>
      match p_current_turn p with
      | Some t =>
          with_current_turn
            (Some (Turn (t_turnId t) (t_startTime t) (t_endTime t)
                     (t_tool_calls t ++ toolRequests) (t_message_count t + 1))) p
      | None => p
      end
  | ToolExecutionStart tool_name tool_call_id cmd desc =>
      let p :=
        with_tool_start_map
          (<[tool_call_id := StartInfo tool_name ts cmd desc None]>
             (p_tool_start_map p)) p in
      let p :=
        with_events (fun ev => with_tool_starts
          (e_tool_starts ev ++ [ToolStart tool_name ts tool_call_id]) ev) p in
      if String.eqb tool_name "bash" then
        let cmd_lower := lower cmd in
        let is_build := any_in BUILD_KEYWORDS cmd_lower in
        let is_test := any_in TEST_KEYWORDS cmd_lower in
        if is_build || is_test then
          let loc := length (p_store p) in
          let dl := DevLoop (if is_test then Test else Build) (py_take 200 cmd)
                      desc ts None None None None None None in
          with_tool_start_map
            (<[tool_call_id := StartInfo tool_name ts cmd desc (Some loc)]>
               (p_tool_start_map p))
            (with_store (p_store p ++ [dl]) p)
        else p
      else p
  | ToolExecutionComplete tool_call_id success result_content =>
      let start_info := p_tool_start_map p !! tool_call_id in
      let p :=
        with_events (fun ev => with_tool_completes
          (e_tool_completes ev ++
             [ToolComplete tool_call_id
                (from_option si_name "" start_info) success
                (from_option si_timestamp "" start_info) ts]) ev) p in
      match start_info ≫= si_dev_loop with
      | Some loc =>
          match p_store p !! loc with
          | Some dl =>
              with_events (fun ev => with_dev_loop (e_dev_loop ev ++ [loc]) ev)
                (with_store
                   (<[loc := finalize_dev_loop dl success result_content ts]>
                      (p_store p)) p)
          | None => p
          end
      | None => p
      end
  | SubagentStarted toolCallId agentName agentDisplayName =>
      with_events (fun ev => with_subagents
        (e_subagents ev ++
           [Subagent toolCallId agentName agentDisplayName ts None]) ev) p
  | SubagentCompleted tcid =>
      with_events (fun ev => with_subagents
        (complete_subagent tcid ts (e_subagents ev)) ev) p
  | CompactionStart =>
      with_events (fun ev => with_compactions
        (e_compactions ev ++ [Compaction ts None None None]) ev) p
  | CompactionComplete preCompactionTokens success =>
      with_events (fun ev => with_compactions
        (complete_compaction ts preCompactionTokens success (e_compactions ev)) ev) p
  | SessionError errorType message =>
      with_events (fun ev => with_errors
        (e_errors ev ++ [SessionErrorRec errorType (py_take 300 message) ts]) ev) p
  | ModeChanged =>
      with_events (fun ev => with_mode_changes (e_mode_changes ev ++ [ts]) ev) p
  | PlanChanged =>
      with_events (fun ev => with_plan_changes (e_plan_changes ev + 1) ev) p
  | TaskComplete =>
      with_events (fun ev => with_task_completes (e_task_completes ev + 1) ev) p
  | OtherEvent _ => p
  end.

(** The loop over the decoded events, from a given state. *)
Definition handle_events (evs : list (event * string)) (p : parser) : parser :=
  fold_left (fun p et => handle_event (fst et) (snd et) p) evs p.

Definition run_events (evs : list (event * string)) : parser :=
  handle_events evs initial_parser.

(** [events["dev_loop"]] as the caller reads it: each entry is the
    current content of the dict it refers to. *)
Definition dev_loop_of (p : parser) : list dev_loop_action :=
  omap (fun loc => p_store p !! loc) (e_dev_loop (p_events p)).

(** [json.loads] of one line with the reads of [type], [data] and
    [timestamp]; [None] is [JSONDecodeError]. *)
Variable decode_event : string -> option (event * string).

Definition parse_events (lines : list string) : parser :=
  run_events
    (omap (fun line =>
             let line := strip line in
             if String.eqb line "" then None else decode_event line) lines).
End Parser.

(** *** Summary ([build_summary]) *)

Definition len {A} (l : list A) : Z := Z.of_nat (length l).

Definition sum_Z (l : list Z) : Z := foldr Z.add 0 l.

Record fix_cycle := FixCycle {
  fc_failures : Z;
  fc_first_failure : string;
  fc_resolution : option string;
  fc_command_preview : string
}.

(** [b.get("success", True)] *)
Definition succeeded (b : dev_loop_action) : bool := default true (dl_success b).

(** The dict appended to [fix_cycles] when [len(current_cycle) >= 2]. *)
Definition emit_fix_cycle (current_cycle : list dev_loop_action)
    (resolution : option string) : list fix_cycle :=
  if 2 <=? len current_cycle then
    match current_cycle with
    | first :: _ =>
        [FixCycle (len current_cycle) (dl_startTime first) resolution
           (py_take 100 (dl_command first))]
    | [] => []
    end
  else [].

(** The loop over [builds]; the result is [current_cycle] and
    [fix_cycles] after it. *)
Fixpoint fix_cycles_loop (builds current_cycle : list dev_loop_action)
    (fix_cycles : list fix_cycle) : list dev_loop_action * list fix_cycle :=
  match builds with
  | [] => (current_cycle, fix_cycles)
  | b :: builds' =>
      if negb (succeeded b) then
        fix_cycles_loop builds' (current_cycle ++ [b]) fix_cycles
      else
        fix_cycles_loop builds' []
          (fix_cycles ++ emit_fix_cycle current_cycle (Some (dl_startTime b)))
  end.

Definition detect_fix_cycles (builds : list dev_loop_action) : list fix_cycle :=
  match builds with
  | [] => []
  | _ =>
      let '(current_cycle, fix_cycles) := fix_cycles_loop builds [] [] in
      fix_cycles ++ emit_fix_cycle current_cycle None
  end.

Definition is_edit (tc : tool_complete) : bool :=
  String.eqb (tc_name tc) "edit" || String.eqb (tc_name tc) "create".

(** [edit_timestamps]. The program keeps a set and only asks whether some
    element lies in an interval, so a list with repetitions serves. *)
Definition edit_timestamps (tool_completes : list tool_complete) : list string :=
  map tc_endTime (List.filter is_edit tool_completes).

(** The test made on a build [b] that has a predecessor [prev_build]. *)
Definition redundant_after (edit_timestamps : list string)
    (prev_build b : dev_loop_action) : bool :=
  if succeeded b then
    let prev_cmd_key := py_take 80 (dl_command prev_build) in
    let curr_cmd_key := py_take 80 (dl_command b) in
    if String.eqb prev_cmd_key curr_cmd_key then
      let prev_end := default (dl_startTime prev_build) (dl_endTime prev_build) in
      let curr_start := dl_startTime b in
      let edits_between :=
        existsb (fun et => str_lt prev_end et && str_lt et curr_start)
          edit_timestamps in
      negb edits_between
    else false
  else false.

Fixpoint redundant_loop (edit_timestamps : list string)
    (builds : list dev_loop_action) (prev_build : option dev_loop_action)
    (redundant_builds : Z) : Z :=
  match builds with
  | [] => redundant_builds
  | b :: builds' =>
      let redundant_builds :=
        match prev_build with
        | Some prev =>
            if redundant_after edit_timestamps prev b
            then redundant_builds + 1 else redundant_builds
        | None => redundant_builds
        end in
      redundant_loop edit_timestamps builds' (Some b) redundant_builds
  end.

Definition count_redundant_builds (builds : list dev_loop_action)
    (tool_completes : list tool_complete) : Z :=
  match builds with
  | [] => 0
  | _ =>
      if 2 <=? len builds
      then redundant_loop (edit_timestamps tool_completes) builds None 0
      else 0
  end.

Definition is_kind (k : dl_type) (d : dev_loop_action) : bool :=
  match k, dl_kind d with
  | Build, Build | Test, Test => true
  | _, _ => false
  end.

Record turn_counts := TurnCounts {
  turns_total : Z;
  turns_user_initiated : Z;
  turns_agent_initiated : Z
}.

Record tool_calls := ToolCalls {
  tc_total : Z;
  tc_by_name : gmap string Z;
  tc_long_running : list (string * Z)
}.

Record subagent_info := SubagentInfo {
  sai_name : string;
  sai_displayName : string;
  sai_duration_ms : option Z
}.

Record dev_loop_summary := DevLoopSummary {
  total_builds : Z;
  total_tests : Z;
  build_failures : Z;
  test_failures : Z;
  build_success_rate_pct : option Q;
  test_success_rate_pct : option Q;
  fix_cycles : list fix_cycle;
  redundant_builds : Z;
  total_build_time_ms : Z;
  total_test_time_ms : Z;
  edits_without_validation : Z;
  total_passed : Z;
  total_failed : Z
}.

Record longest_call := LongestCall {
  lc_duration_ms : Z;
  lc_model : string;
  lc_initiator : string
}.

Record summary := Summary {
  total_llm_calls : Z;
  total_input_tokens : Z;
  total_output_tokens : Z;
  total_cache_read_tokens : Z;
  total_cache_write_tokens : Z;
  cache_hit_rate_pct : Q;
  total_llm_duration_ms : Z;
  avg_llm_duration_ms : Z;
  sm_longest_call : option longest_call;
  models_used : gmap string Z;
  estimated_cost_usd : Q;
  session_duration_ms : option Z;
  sm_total_turns : Z;
  sm_user_turns : Z;
  sm_agent_turns : Z;
  sm_total_tool_calls : Z;
  sm_total_subagents : Z;
  sm_total_compactions : Z;
  sm_total_errors : Z;
  sm_total_builds : Z;
  sm_total_tests : Z;
  sm_build_failures : Z;
  sm_test_failures : Z;
  sm_fix_cycles : Z
}.

Record report := Report {
  r_session : option session_info;
  r_session_endTime : option string;
  r_llm_calls : list llm_call;
  r_turns : turn_counts;
  r_user_messages : list user_message;
  r_tool_calls : tool_calls;
  r_subagents : list subagent_info;
  r_compactions : list compaction;
  r_errors : list session_error;
  r_dev_loop : list dev_loop_action;
  r_dev_loop_summary : dev_loop_summary;
  r_plan_changes : Z;
  r_task_completes : Z;
  r_summary : summary
}.

(** [counts[key] = counts.get(key, 0) + 1] *)
Definition count_up (counts : gmap string Z) (key : string) : gmap string Z :=
  <[key := default 0 (counts !! key) + 1]> counts.

(** [max(llm_calls, key=lambda c: c["duration_ms"])]: the first call of
    the longest duration. *)
Definition longest_of (llm_calls : list llm_call) : option llm_call :=
  match llm_calls with
  | [] => None
  | c :: calls =>
      Some (foldl (fun best c' =>
                     if c_duration_ms best <? c_duration_ms c' then c' else best)
              c calls)
  end.

Section Summary.
(** The rounding of float operations. *)
Variable fl : Q -> Q.
(** [compute_duration_ms], as in the parser. *)
Variable compute_duration_ms : string -> string -> option Z.

(** [cache_hit_rate], before [round]; [None] would be a
    [ZeroDivisionError]. *)
Definition cache_hit_rate (total_cache_read total_input : Z) : option Q :=
  if 0 <? total_input
  then q ← py_truediv fl (inject_Z total_cache_read) (inject_Z total_input);
       Some (fmul fl q (float_of_int fl 100))
  else Some 0%Q.

(** [round((n - f) / n * 100, 1) if n else None] *)
Definition success_rate_pct (n f : Z) : option (option Q) :=
  if n =? 0 then Some None
  else q ← py_truediv fl (inject_Z (n - f)) (inject_Z n);
       Some (Some (py_round fl (fmul fl q (float_of_int fl 100)) 1)).

(** [compute_duration_ms] on values that may be [None]. *)
Definition duration_between (start_ts end_ts : option string) : option Z :=
  match start_ts, end_ts with
  | Some s, Some e => compute_duration_ms s e
  | _, _ => None
  end.

(** [build_summary(events, llm_calls)]; [dev_loop] is [events["dev_loop"]]
    with its dicts read. [None] stands for an uncaught exception of a
    division. *)
Definition build_summary (ev : events) (dev_loop : list dev_loop_action)
    (llm_calls : list llm_call) : option report :=
  let session := e_session_info ev in
  let end_time :=
    match last (e_turns ev) with
    | Some last_turn => t_endTime last_turn
    | None => None
    end in
  let end_time :=
    match end_time, last (e_user_messages ev) with
    | None, Some m | Some "", Some m => Some (um_timestamp m)
    | _, _ => end_time
    end in
  let total_input := sum_Z (map c_input_tokens llm_calls) in
  let total_output := sum_Z (map c_output_tokens llm_calls) in
  let total_cache_read := sum_Z (map c_cache_read_tokens llm_calls) in
  let total_cache_write := sum_Z (map c_cache_write_tokens llm_calls) in
  let total_duration := sum_Z (map c_duration_ms llm_calls) in
  cache_hit_rate ← cache_hit_rate total_cache_read total_input;
  let longest := longest_of llm_calls in
  let models_used := foldl (fun m c => count_up m (c_model c)) ∅ llm_calls in
  let total_cost :=
    foldl (fun total_cost c =>
             fadd fl total_cost
               (compute_cost fl (c_input_tokens c) (c_output_tokens c)
                  (c_cache_read_tokens c) (c_model c))) 0%Q llm_calls in
  let user_turns := len (e_user_messages ev) in
  let total_turns := len (e_turns ev) in
  let agent_turns := total_turns - user_turns in
  let tool_counts :=
    foldl (fun m tc => count_up m (tc_name tc)) ∅ (e_tool_completes ev) in
  let tool_durations :=
    omap (fun tc =>
            dur ← compute_duration_ms (tc_startTime tc) (tc_endTime tc);
            Some (tc_name tc, dur)) (e_tool_completes ev) in
  let long_tools := List.filter (fun t => 60000 <? snd t) tool_durations in
  let subagent_info :=
    map (fun sa =>
           SubagentInfo (sa_name sa) (sa_displayName sa)
             (duration_between (Some (sa_startTime sa)) (sa_endTime sa)))
      (e_subagents ev) in
  let session_duration_ms := duration_between (s_startTime <$> session) end_time in
  let builds := List.filter (is_kind Build) dev_loop in
  let tests := List.filter (is_kind Test) dev_loop in
  let build_failures := List.filter (fun d => negb (succeeded d)) builds in
  let test_failures := List.filter (fun d => negb (succeeded d)) tests in
  let fix_cycles := detect_fix_cycles builds in
  let redundant_builds := count_redundant_builds builds (e_tool_completes ev) in
  let edit_count :=
    default 0 (tool_counts !! "edit") + default 0 (tool_counts !! "create") in
  let build_test_count := len builds + len tests in
  let edits_without_validation :=
    if 0 <? edit_count then Z.max 0 (edit_count - build_test_count) else 0 in
  build_rate ← success_rate_pct (len builds) (len build_failures);
  test_rate ← success_rate_pct (len tests) (len test_failures);
  avg_duration ←
    match llm_calls with
    | [] => Some 0
    | _ => q ← py_truediv fl (inject_Z total_duration) (inject_Z (len llm_calls));
           Some (round_half_even q)
    end;
  let duration_or_0 (d : dev_loop_action) :=
    match dl_duration_ms d with Some (Some ms) => ms | _ => 0 end in
  Some (Report session end_time llm_calls
    (TurnCounts total_turns user_turns agent_turns)
    (e_user_messages ev)
    (ToolCalls (len (e_tool_completes ev)) tool_counts long_tools)
    subagent_info (e_compactions ev) (e_errors ev) dev_loop
    (DevLoopSummary (len builds) (len tests) (len build_failures) (len test_failures)
       build_rate test_rate fix_cycles redundant_builds
       (sum_Z (map duration_or_0 builds)) (sum_Z (map duration_or_0 tests))
       edits_without_validation
       (sum_Z (map (fun t => default 0 (dl_test_passed t)) tests))
       (sum_Z (map (fun t => default 0 (dl_test_failed t)) tests)))
    (e_plan_changes ev) (e_task_completes ev)
    (Summary (len llm_calls) total_input total_output total_cache_read
       total_cache_write (py_round fl cache_hit_rate 1) total_duration avg_duration
       ((fun c => LongestCall (c_duration_ms c) (c_model c) (c_initiator c))
          <$> longest)
       models_used (py_round fl total_cost 4) session_duration_ms
       total_turns user_turns agent_turns
       (len (e_tool_completes ev)) (len (e_subagents ev)) (len (e_compactions ev))
       (len (e_errors ev)) (len builds) (len tests) (len build_failures)
       (len test_failures) (len fix_cycles))).

(** [main]: the report of a session from its decoded events and the calls
    found in the process log. *)
Definition session_report (evs : list (event * string)) (llm_calls : list llm_call)
    : option report :=
  let p := run_events compute_duration_ms evs in
  build_summary (p_events p) (dev_loop_of p) llm_calls.
End Summary.

(** *** Timestamps ([ts_to_dt], [compute_duration_ms])

    The parser and the summary above take [compute_duration_ms] as a
    parameter with values in [option Z]; that is the function below on
    the runs in which it raises nothing. *)

(** [ts_str.replace("Z", "+00:00")] *)
Fixpoint replace_Z (s : string) : string :=
  match s with
  | "" => ""
  | String c s' =>
      if Ascii.eqb c "Z" then String.append "+00:00" (replace_Z s')
      else String c (replace_Z s')
  end.

(** A [datetime]: the wall-clock time in microseconds since the start of
    year 1, and the UTC offset in microseconds of an aware value ([None]
    for a naive one). *)
Record datetime := DateTime {
  dt_wall : Z;
  dt_utcoffset : option Z
}.

(** What a call gives: a value, or the [TypeError] that the subtraction of
    a naive and an aware [datetime] raises and the program does not catch. *)
Inductive outcome (A : Type) :=
| Returned (a : A)
| TypeError.
Arguments Returned {A} a.
Arguments TypeError {A}.

(** [end - start], in microseconds. *)
Definition dt_sub (e s : datetime) : outcome Z :=
  match dt_utcoffset e, dt_utcoffset s with
  | None, None => Returned (dt_wall e - dt_wall s)
  | Some oe, Some os => Returned ((dt_wall e - oe) - (dt_wall s - os))
  | _, _ => TypeError
  end.

(** [int(x)] for a float: truncation toward zero. *)
Definition int_of_float (x : Q) : Z :=
  if Qle_bool 0 x then Qfloor x else Qceiling x.

Section Clock.
Variable fl : Q -> Q.
(** [datetime.fromisoformat]; [None] is [ValueError]. *)
Variable fromisoformat : string -> option datetime.

(** [ts_str] is [None] for a missing value. *)
Definition ts_to_dt (ts_str : option string) : option datetime :=
  match ts_str with
  | None | Some "" => None
  | Some s => fromisoformat (replace_Z s)
  end.

(** [timedelta.total_seconds()]: the microseconds over [10**6], one
    correctly rounded division of integers. *)
Definition total_seconds (microseconds : Z) : Q :=
  fl (inject_Z microseconds / inject_Z 1000000).

Definition compute_duration_ms (start_ts end_ts : option string)
    : outcome (option Z) :=
  let start := ts_to_dt start_ts in
  let end_ := ts_to_dt end_ts in
  match start, end_ with
  | Some s, Some e =>
      match dt_sub e s with
      | Returned microseconds =>
          Returned (Some (int_of_float
            (fmul fl (total_seconds microseconds) (float_of_int fl 1000))))
      | TypeError => TypeError
      end
  | _, _ => Returned None
  end.
End Clock.

(** *** Files ([find_process_log], [main]) *)

(** The lines that iterating over a text file yields: each line keeps its
    newline, the last one may lack it. *)
Fixpoint file_lines (content : string) : list string :=
  match content with
  | "" => []
  | String c rest =>
      if Ascii.eqb c "010" then String c "" :: file_lines rest
      else match file_lines rest with
           | [] => [String c ""]
           | l :: ls => String c l :: ls
           end
  end.

(** A file that [LOGS_DIR.glob("process-*.log")] found, with the
    modification time that [stat] reports. *)
Record log_file := LogFile {
  lf_path : string;
  lf_mtime : Q
}.

(** [sorted(..., key=mtime, reverse=True)]: most recent first; files of
    equal time keep their order. *)
Fixpoint insert_by_mtime (f : log_file) (sorted : list log_file) : list log_file :=
  match sorted with
  | [] => [f]
  | g :: rest =>
      if Qle_bool (lf_mtime g) (lf_mtime f) then f :: sorted
      else g :: insert_by_mtime f rest
  end.

Definition sorted_by_mtime (files : list log_file) : list log_file :=
  foldr insert_by_mtime [] files.

(** The text after the first occurrence of [c]: [s.split(c, 1)[1]]; [None]
    is the [IndexError] of a text without [c]. *)
Fixpoint after_first (c : ascii) (s : string) : option string :=
  match s with
  | "" => None
  | String a s' => if Ascii.eqb a c then Some s' else after_first c s'
  end.

(** The loop of [main] over [workspace.yaml]; the file is absent or
    unreadable for [None]. *)
Definition workspace_summary (workspace_yaml : option string) : option string :=
  content ← workspace_yaml;
  line ← List.find (String.prefix "summary:") (file_lines content);
  rest ← after_first ":" line;
  Some (strip rest).

(** What [main] prints: the report, the summary of the workspace that it
    adds to the session, and the entries of [_meta]. *)
Record main_output := MainOutput {
  mo_result : option report;
  mo_session_summary : option string;
  mo_process_log : option string;
  mo_events_count : Z;
  mo_llm_calls_found : Z
}.

Section Files.
(** The file system: [Path(p).exists()], and the text of a file that can
    be opened ([None] is [OSError]). *)
Variable path_exists : string -> bool.
Variable read_text : string -> option string.

(** The inner loop of [find_process_log]: the session id occurs in one of
    the lines 0 to 30 of the file. *)
Definition mentions (session_id : string) (log_file : log_file) : bool :=
  match read_text (lf_path log_file) with
  | Some content => existsb (contains session_id) (take 31 (file_lines content))
  | None => false
  end.

(** [logs_dir] is [None] when [LOGS_DIR] does not exist, and otherwise
    holds the files that the glob finds. *)
Definition find_process_log (logs_dir : option (list log_file))
    (session_id : string) (explicit_log : option string) : option string :=
  match explicit_log with
  | Some (String _ _ as p) => if path_exists p then Some p else None
  | _ =>
      match logs_dir with
      | None => None
      | Some found =>
          lf_path <$> List.find (mentions session_id) (sorted_by_mtime found)
      end
  end.

Variable fl : Q -> Q.
Variable compute_duration_ms : string -> string -> option Z.
Variable decode_event : string -> option (event * string).
Variable json_loads : string -> option telemetry_block.

(** [main] once the session directory is found: [session_dir_name] is its
    name, [events_content] the text of its [events.jsonl]. *)
Definition main (session_dir_name events_content : string)
    (workspace_yaml : option string) (logs_dir : option (list log_file))
    (arg_log : option string) : main_output :=
  let p := parse_events compute_duration_ms decode_event (file_lines events_content) in
  let session_id :=
    match e_session_info (p_events p) with
    | Some session_info => s_id session_info
    | None => session_dir_name
    end in
  let summary := workspace_summary workspace_yaml in
  let log_path := find_process_log logs_dir session_id arg_log in
  let llm_calls := parse_process_log json_loads (log_path ≫= read_text) session_id in
  let result :=
    build_summary fl compute_duration_ms (p_events p) (dev_loop_of p) llm_calls in
  MainOutput result summary log_path (len (file_lines events_content)) (len llm_calls).
End Files.

(** *** Session directory ([find_session_dir]) *)

(** What [find_session_dir] gives: a directory, [None], or the
    [FileNotFoundError] of listing a session-state directory that does not
    exist, which nothing catches. *)
Inductive session_dir :=
| Found (path : string)
| NotFound
| FileNotFoundError.

Section SessionDir.
(** The file system: [Path(p).is_dir()], [(Path(p) / "events.jsonl").exists()],
    the path [SESSION_STATE_DIR / name], and the names that
    [SESSION_STATE_DIR.iterdir()] yields ([None] when the directory does
    not exist). *)
Variable is_dir : string -> bool.
Variable has_events : string -> bool.
Variable under_state_dir : string -> string.
Variable state_listing : option (list string).

Definition find_session_dir (session_id_or_path : string) : session_dir :=
  let p := session_id_or_path in
  if is_dir p && has_events p then Found p
  else
    let candidate := under_state_dir session_id_or_path in
    if is_dir candidate && has_events candidate then Found candidate
    else
      match state_listing with
      | None => FileNotFoundError
      | Some names =>
          match List.find (fun name =>
                             is_dir (under_state_dir name)
                             && String.prefix session_id_or_path name
                             && has_events (under_state_dir name)) names with
          | Some name => Found (under_state_dir name)
          | None => NotFound
          end
      end.
End SessionDir.

(** *** Specification side

    The notions that the properties are stated with; none of them is used
    by the program above. *)

(** The rates that apply to a model. *)
Definition pricing_of (model : string) : pricing :=
  dict_get MODEL_PRICING model DEFAULT_PRICING.

(** The cost as the design document writes it, one division of the sum,
    in the arithmetic of [fl]. *)
Definition cost_formula (fl : Q -> Q) (rates : pricing)
    (inputTokens outputTokens cacheReadTokens : Z) : Q :=
  let freshInput := Z.max 0 (inputTokens - cacheReadTokens) in
  py_round fl
    (fdiv fl
       (fadd fl
          (fadd fl
             (fmul fl (float_of_int fl freshInput) (float_lit fl (p_input rates)))
             (fmul fl (float_of_int fl cacheReadTokens)
                (float_lit fl (p_cached_input rates))))
          (fmul fl (float_of_int fl outputTokens) (float_lit fl (p_output rates))))
       (float_of_int fl 1000000)) 6.

(** The cache hit rate as the design document writes it: 0 when the input
    tokens sum to 0, and otherwise cache reads / input tokens * 100 rounded
    to 1 decimal, in the arithmetic of [fl]. *)
Definition cache_hit_rate_formula (fl : Q -> Q)
    (total_cache_read total_input : Z) : Q :=
  if total_input =? 0 then 0%Q
  else py_round fl
         (fmul fl (fdiv fl (inject_Z total_cache_read) (inject_Z total_input))
            (float_of_int fl 100)) 1.

(** [tokens * rate / 1_000_000] in the arithmetic of [fl]. *)
Definition per_million (fl : Q -> Q) (tokens : Z) (rate : Q) : Q :=
  fdiv fl (fmul fl (float_of_int fl tokens) (float_lit fl rate))
    (float_of_int fl 1000000).

(** A cost in whole micro-dollars, for a cost with 6 decimals. *)
Definition micro_dollars (cost : Q) : Z := round_half_even (cost * 1000000).

Definition sane_pricing (p : pricing) : Prop :=
  (0 <= p_input p /\ 0 <= p_output p /\ 0 <= p_cached_input p
   /\ p_cached_input p <= p_input p)%Q.

(** The fix cycle of one run of consecutive failing builds: none for a run
    shorter than two. *)
Definition run_fix_cycle (run : list dev_loop_action)
    (resolutionTime : option string) : list fix_cycle :=
  match run with
  | firstFailure :: _ :: _ =>
      [FixCycle (len run) (dl_startTime firstFailure) resolutionTime
         (py_take 100 (dl_command firstFailure))]
  | _ => []
  end.

(** The end time of a build; its start time stands in while it has none. *)
Definition build_end (b : dev_loop_action) : string :=
  default (dl_startTime b) (dl_endTime b).

(** When a build counts as redundant after the build before it. *)
Definition redundant_spec (tool_completes : list tool_complete)
    (prev b : dev_loop_action) : Prop :=
  succeeded b = true
  /\ py_take 80 (dl_command b) = py_take 80 (dl_command prev)
  /\ ~ exists tc, In tc tool_completes
        /\ (tc_name tc = "edit" \/ tc_name tc = "create")
        /\ str_lt (build_end prev) (tc_endTime tc) = true
        /\ str_lt (tc_endTime tc) (dl_startTime b) = true.

(** The number of turn ends that close an open turn, from a stream and
    whether a turn is open before it. *)
Fixpoint closed_pairs (open : bool) (evs : list (event * string)) : Z :=
  match evs with
  | [] => 0
  | (e, _) :: evs' =>
      match e with
      | TurnStart _ => closed_pairs true evs'
      | TurnEnd => (if open then 1 else 0) + closed_pairs false evs'
      | _ => closed_pairs open evs'
      end
  end.

(** Every turn start is followed by a turn end before the next turn start
    and before the end of the stream. *)
Fixpoint well_paired (open : bool) (evs : list (event * string)) : bool :=
  match evs with
  | [] => negb open
  | (e, _) :: evs' =>
      match e with
      | TurnStart _ => negb open && well_paired true evs'
      | TurnEnd => well_paired false evs'
      | _ => well_paired open evs'
      end
  end.

Definition is_turn_start (e : event) : bool :=
  match e with TurnStart _ => true | _ => false end.

Definition is_user_message (e : event) : bool :=
  match e with UserMessage _ => true | _ => false end.

Definition count_events (f : event -> bool) (evs : list (event * string)) : Z :=
  len (List.filter (fun et => f (fst et)) evs).

Definition turn_open (p : parser) : bool :=
  match p_current_turn p with Some _ => true | None => false end.

(** Two parser states that differ in the open turn only. *)
Definition same_but_turn (p q : parser) : Prop :=
  p_events p = p_events q /\ p_tool_start_map p = p_tool_start_map q
  /\ p_store p = p_store q.

(** A dev-loop dict after its completion. *)
Definition finalized (d : dev_loop_action) : Prop :=
  is_Some (dl_endTime d) /\ is_Some (dl_success d).

Definition dev_loop_finalized (p : parser) : Prop :=
  Forall (fun loc => exists d, p_store p !! loc = Some d /\ finalized d)
    (e_dev_loop (p_events p)).

(** Every dev-loop dict that the map of tool starts refers to is in the
    store. *)
Definition store_covers (p : parser) : Prop :=
  forall id si loc,
    p_tool_start_map p !! id = Some si -> si_dev_loop si = Some loc ->
    is_Some (p_store p !! loc).

(** The outcome of a dev-loop action when the pass/fail summary is read
    for test actions only. *)
Definition outcome_tests_only (kind : dl_type) (success : bool)
    (result_content : string) : bool :=
  let outcome := success in
  let outcome :=
    if any_in BUILD_FAILURE_PHRASES (lower result_content) then false else outcome in
  let outcome :=
    match error_match result_content with
    | Some n => if 0 <? n then false else success
    | None => outcome
    end in
  match kind with
  | Test =>
      match test_passed_match result_content with
      | Some (failed, _) => if 0 <? failed then false else outcome
      | None => outcome
      end
  | Build => outcome
  end.

Definition attach (ts : string) (preTokens : option Z) (success : bool)
    (c : compaction) : compaction :=
  Compaction (cp_startTime c) (Some ts) preTokens (Some success).

Fixpoint attach_first_open (ts : string) (preTokens : option Z) (success : bool)
    (cs : list compaction) : list compaction :=
  match cs with
  | [] => []
  | c :: cs' =>
      match cp_endTime c with
      | None => attach ts preTokens success c :: cs'
      | Some _ => c :: attach_first_open ts preTokens success cs'
      end
  end.

(** A completion that goes to the most recently opened entry among those
    still unterminated, wherever it stands in the list. *)
Definition complete_latest_open (ts : string) (preTokens : option Z)
    (success : bool) (cs : list compaction) : list compaction :=
  rev (attach_first_open ts preTokens success (rev cs)).

(** **** Telemetry blocks *)

(** A line of the log without its time stamp, as the inner loop sees it. *)
Definition strip_timestamp (line : string) : string :=
  re_sub_anchored_empty TIMESTAMP_PREFIX line.

(** The opening braces of a line less its closing braces. *)
Definition brace_delta (stripped : string) : Z :=
  count_char "{" stripped - count_char "}" stripped.

(** The number of lines up to and including the first one at which the
    running balance of braces is 0 or less; [None] when there is none. *)
Fixpoint block_length (ls : list string) (balance : Z) : option nat :=
  match ls with
  | [] => None
  | line :: rest =>
      let balance := balance + brace_delta (strip_timestamp line) in
      if balance <=? 0 then Some 1%nat else S <$> block_length rest balance
  end.

(** The lines from the first one that opens a block. *)
Fixpoint seek_block (ls : list string) : list string :=
  match ls with
  | [] => []
  | line :: rest =>
      if is_block_start (strip_timestamp line) then ls else seek_block rest
  end.

Definition is_marker_line (line : string) : bool := contains TELEMETRY_MARKER line.

(** A block of lines taken from [lines]: it opens with a brace, and each
    of its lines is a line of the log without its time stamp. *)
Definition well_formed_block (lines block : list string) : Prop :=
  (exists first rest, block = first :: rest /\ is_block_start first = true)
  /\ Forall (fun l => exists l0, In l0 lines /\ l = strip_timestamp l0) block.

(** [t] is what is left of [s] after some first characters. *)
Definition str_suffix (t s : string) : Prop := exists pre, s = String.append pre t.

(** A match of [r] hands to its continuation an end of the text it was
    given. *)
Definition hands_on_suffix (R : Type) (r : regex) : Prop :=
  forall (s : string) (caps : list string) (k : string -> list string -> option R)
         (res : R),
    re_at r s caps k = Some res ->
    exists s' caps', str_suffix s' s /\ k s' caps' = Some res.

(** **** Events *)

(** Whether a sub-agent entry is the one a completion with this id looks for. *)
Definition open_for (tcid : string) (sa : subagent) : bool :=
  String.eqb (sa_toolCallId sa) tcid && bool_decide (sa_endTime sa = None).

Definition close_subagent (ts : string) (sa : subagent) : subagent :=
  Subagent (sa_toolCallId sa) (sa_name sa) (sa_displayName sa) (sa_startTime sa)
    (Some ts).

Definition is_tool_complete (e : event) : bool :=
  match e with ToolExecutionComplete _ _ _ => true | _ => false end.
Definition is_tool_start (e : event) : bool :=
  match e with ToolExecutionStart _ _ _ _ => true | _ => false end.
Definition is_subagent_started (e : event) : bool :=
  match e with SubagentStarted _ _ _ => true | _ => false end.
Definition is_compaction_start (e : event) : bool :=
  match e with CompactionStart => true | _ => false end.
Definition is_session_error (e : event) : bool :=
  match e with SessionError _ _ => true | _ => false end.
Definition is_plan_changed (e : event) : bool :=
  match e with PlanChanged => true | _ => false end.
Definition is_task_complete (e : event) : bool :=
  match e with TaskComplete => true | _ => false end.
Definition is_assistant_message (e : event) : bool :=
  match e with AssistantMessage _ => true | _ => false end.

(** 1 for an event of the kind [f], 0 for another. *)
Definition tally (f : event -> bool) (e : event) : Z := if f e then 1 else 0.

(** The session record that a [session.start] event writes. *)
Definition session_of (et : event * string) : option session_info :=
  match fst et with
  | SessionStart sessionId copilotVersion startTime cwd gitRoot branch repository =>
      Some (SessionInfo sessionId copilotVersion (default (snd et) startTime)
              cwd gitRoot branch repository)
  | _ => None
  end.

(** The tool names requested by the assistant messages of a stream. *)
Definition tool_requests_of (evs : list (event * string)) : list string :=
  flat_map (fun et => match fst et with
                      | AssistantMessage toolRequests => toolRequests
                      | _ => []
                      end) evs.

(** An event that neither opens nor closes a turn. *)
Definition inside_turn (et : event * string) : Prop :=
  is_turn_start (fst et) = false /\ fst et <> TurnEnd.

(** Name and time of the start events of a stream with a given call id. *)
Definition starts_of (tool_call_id : string) (evs : list (event * string))
    : list (string * string) :=
  omap (fun et => match fst et with
                  | ToolExecutionStart toolName id _ _ =>
                      if String.eqb id tool_call_id then Some (toolName, snd et)
                      else None
                  | _ => None
                  end) evs.

Definition name_and_time (si : start_info) : string * string :=
  (si_name si, si_timestamp si).

(** The time stamps of the turn ends that close a turn. *)
Fixpoint turn_ends (open : bool) (evs : list (event * string)) : list string :=
  match evs with
  | [] => []
  | (e, ts) :: evs' =>
      match e with
      | TurnStart _ => turn_ends true evs'
      | TurnEnd => (if open then [ts] else []) ++ turn_ends false evs'
      | _ => turn_ends open evs'
      end
  end.

(** The time stamps of the user messages of a stream. *)
Definition user_message_times (evs : list (event * string)) : list string :=
  map snd (List.filter (fun et => is_user_message (fst et)) evs).

(** A dev-loop dict with every key that a completion writes. *)
Definition completed_action (d : dev_loop_action) : Prop :=
  is_Some (dl_endTime d) /\ is_Some (dl_duration_ms d) /\ is_Some (dl_success d)
  /\ is_Some (dl_result_preview d).

Definition dev_loop_complete (p : parser) : Prop :=
  Forall (fun loc => exists d, p_store p !! loc = Some d /\ completed_action d)
    (e_dev_loop (p_events p)).

(** A preview has the length of the text it was cut from, up to [limit]. *)
Definition preview_of (limit : nat) (preview : string) (full_length : Z) : Prop :=
  Z.of_nat (String.length preview) = Z.min (Z.of_nat limit) full_length.

Definition short_action (d : dev_loop_action) : Prop :=
  (String.length (dl_command d) <= 200)%nat
  /\ (forall preview, dl_result_preview d = Some preview ->
        (String.length preview <= 200)%nat).

Definition previews_bounded (p : parser) : Prop :=
  Forall (fun m => preview_of 200 (um_content_preview m) (um_full_length m))
    (e_user_messages (p_events p))
  /\ Forall (fun er => (String.length (er_message er) <= 300)%nat)
       (e_errors (p_events p))
  /\ Forall short_action (p_store p).

(** A line that [parse_events] passes over. *)
Definition skipped (decode_event : string -> option (event * string))
    (line : string) : Prop :=
  strip line = "" \/ decode_event (strip line) = None.

(** **** Summary *)

(** The number of elements of a list with a given key. *)
Definition count_key {A} (key : A -> string) (k : string) (l : list A) : Z :=
  len (List.filter (fun x => String.eqb (key x) k) l).

(** [None] for a count of 0: a key that was never counted is not in the dict. *)
Definition positive_count (n : Z) : option Z := if n =? 0 then None else Some n.

Definition failed (d : dev_loop_action) : bool := negb (succeeded d).

(** [round(a / b * 100, 1)] *)
Definition percent (fl : Q -> Q) (a b : Z) : Q :=
  py_round fl (fmul fl (fdiv fl (inject_Z a) (inject_Z b)) (float_of_int fl 100)) 1.

(** A success rate against the actions it is the rate of. *)
Definition rate_in_range (actions : list dev_loop_action) (rate : option Q) : Prop :=
  match rate with
  | None => actions = []
  | Some pct =>
      actions <> []
      /\ (0 <= pct <= 100)%Q
      /\ (Forall (fun d => succeeded d = true) actions -> (pct == 100)%Q)
      /\ (Forall (fun d => succeeded d = false) actions -> (pct == 0)%Q)
  end.

(** **** Durations and files *)

(** The unit roundoff of binary64, [2^-53]. *)
Definition unit_roundoff : Q := 1 # 9007199254740992.

(** Most recent first. *)
Fixpoint descending (l : list log_file) : Prop :=
  match l with
  | [] => True
  | f :: rest => Forall (fun g => (lf_mtime g <= lf_mtime f)%Q) rest /\ descending rest
  end.

(** A directory that holds an [events.jsonl]. *)
Definition session_directory (is_dir has_events : string -> bool) (path : string)
    : Prop :=
  is_dir path = true /\ has_events path = true.

(** *** Sample data *)

(** A stand-in for [compute_duration_ms] where durations do not matter. *)
Definition no_clock : string -> string -> option Z := fun _ _ => None.

Definition quoted (s : string) : string :=
  String "034" (String.append s (String "034" "")).

(** A process log in which another log line stands between the marker and
    the telemetry object. *)
Definition other_line : string :=
  "2026-01-05T10:00:00.001Z [INFO] unrelated log line".

Definition kind_line : string :=
  String.append "  " (String.append (quoted "kind")
    (String.append ": " (quoted "assistant_usage"))).

Definition interleaved_log : list string :=
  [ "2026-01-05T10:00:00.000Z [INFO] [Telemetry] cli.telemetry:";
    other_line; "{"; kind_line; "}" ].

(** [json.loads] restricted to the one object of [interleaved_log]: it
    has the kind of a usage block and none of the other keys, so the reads
    give their defaults. *)
Definition loads_usage_object (text : string) : option telemetry_block :=
  if String.eqb text (join (String "010" "") ["{"; kind_line; "}"])
  then Some (TelemetryBlock (Some "assistant_usage") "" "unknown" "unknown" ""
               0 0 0 0 0 0)
  else None.

Definition call (input_tokens cache_read_tokens : Z) : llm_call :=
  LlmCall "claude-sonnet-4.5" "agent" "" input_tokens 0 cache_read_tokens 0 0 0.

Definition build_at (command startTime endTime : string) (success : bool)
    : dev_loop_action :=
  DevLoop Build command "" startTime (Some endTime) (Some None) (Some success)
    (Some "") None None.

(** Outcomes fail, fail, success, success; the last two with one command. *)
Definition four_builds : list dev_loop_action :=
  [ build_at "make a" "t1" "t2" false; build_at "make b" "t3" "t4" false;
    build_at "make" "t5" "t6" true; build_at "make" "t7" "t8" true ].

Definition build_started : parser :=
  run_events no_clock [(ToolExecutionStart "bash" "call-1" "dotnet build" "", "t1")].

Definition hello_session : list (event * string) :=
  [ (SessionStart "s" "1.0" None "" "" "" "", "t0"); (UserMessage "hello", "t1");
    (TurnStart "0", "t2"); (TurnEnd, "t3") ].

(** A stand-in for [datetime.fromisoformat] on four time stamps of one
    day: three with an offset of zero, one naive. *)
Definition sample_fromisoformat (s : string) : option datetime :=
  if String.eqb s "2026-01-05T10:00:00.000+00:00" then Some (DateTime 0 (Some 0))
  else if String.eqb s "2026-01-05T10:00:01.001+00:00" then Some (DateTime 1001000 (Some 0))
  else if String.eqb s "2026-01-05T10:00:01.0015+00:00" then Some (DateTime 1001500 (Some 0))
  else if String.eqb s "2026-01-05T10:00:02" then Some (DateTime 2000000 None)
  else None.

(** The line [{"type": "session.start"}]: a session start without data. *)
Definition bare_start_line : string :=
  String.append "{" (String.append (quoted "type")
    (String.append ": " (String.append (quoted "session.start") "}"))).

(** [json.loads] with the reads of [parse_events], restricted to that line:
    every read of [data] gives its default. *)
Definition decode_bare_start (line : string) : option (event * string) :=
  if String.eqb line bare_start_line
  then Some (SessionStart "" "" None "" "" "" "", "")
  else None.

(** A file system with one process log, [interleaved_log]. *)
Definition one_log (path : string) : option string :=
  if String.eqb path "process-1.log"
  then Some (join (String "010" "") interleaved_log)
  else None.

(** ** Part II. Properties *)

(** *** Rounding to an integer *)

Lemma round_half_even_comp (q q' : Q) :
  (q == q')%Q -> round_half_even q = round_half_even q'.
Proof.
  intros E. unfold round_half_even.
  rewrite (Qfloor_comp _ _ E).
  assert (E' : (q - inject_Z (Qfloor q') == q' - inject_Z (Qfloor q'))%Q)
    by (rewrite E; reflexivity).
  rewrite (Qcompare_comp _ _ E' _ _ (Qeq_refl (1 # 2))). reflexivity.
Qed.

Lemma round_half_even_bounds (q : Q) :
  Qfloor q <= round_half_even q <= Qfloor q + 1.
Proof.
  unfold round_half_even.
  destruct Qcompare; [destruct Z.even|..]; lia.
Qed.

Lemma round_half_even_mono (q q' : Q) :
  (q <= q')%Q -> round_half_even q <= round_half_even q'.
Proof.
  intros L.
  pose proof (Qfloor_resp_le _ _ L) as Lf.
  destruct (Z.eq_dec (Qfloor q) (Qfloor q')) as [E|N].
  - unfold round_half_even. rewrite <- E.
    destruct (Qcompare_spec (q - inject_Z (Qfloor q)) (1 # 2)) as [A|A|A];
    destruct (Qcompare_spec (q' - inject_Z (Qfloor q)) (1 # 2)) as [B|B|B];
    try destruct (Z.even (Qfloor q)); try lia; exfalso; lra.
  - pose proof (round_half_even_bounds q).
    pose proof (round_half_even_bounds q'). lia.
Qed.

Lemma round_half_even_inject (z : Z) : round_half_even (inject_Z z) = z.
Proof.
  unfold round_half_even. rewrite Qfloor_Z.
  destruct (Qcompare_spec (inject_Z z - inject_Z z) (1 # 2)) as [A|A|A];
    try reflexivity; exfalso; lra.
Qed.

Lemma inject_Z_lt (a b : Z) : a < b -> (inject_Z a < inject_Z b)%Q.
Proof. intros. rewrite <- Zlt_Qlt. assumption. Qed.

Lemma inject_Z_le (a b : Z) : a <= b -> (inject_Z a <= inject_Z b)%Q.
Proof. intros. rewrite <- Zle_Qle. assumption. Qed.

Lemma Qeq_le (x y : Q) : (x == y)%Q -> (x <= y)%Q.
Proof. intros E. rewrite E. apply Qle_refl. Qed.

Lemma scale_pos (n : nat) : (0 < inject_Z (10 ^ Z.of_nat n))%Q.
Proof. apply (inject_Z_lt 0). apply Z.pow_pos_nonneg; lia. Qed.

(** *** Binary64 rounding *)

Lemma two_neq_0 : ~ (2 == 0)%Q.
Proof. discriminate. Qed.

Lemma pow2_pos (k : Z) : (0 < pow2 k)%Q.
Proof. apply Qpower_0_lt. reflexivity. Qed.

Lemma pow2_add (j k : Z) : (pow2 (j + k) == pow2 j * pow2 k)%Q.
Proof. apply Qpower_plus, two_neq_0. Qed.

Lemma pow2_sub (j k : Z) : (pow2 (j - k) == pow2 j / pow2 k)%Q.
Proof. apply Qpower_minus, two_neq_0. Qed.

Lemma pow2_le (j k : Z) : j <= k -> (pow2 j <= pow2 k)%Q.
Proof. intros L. apply Qpower_le_compat_l; [exact L | discriminate]. Qed.

Lemma pow2_inject (k : Z) : 0 <= k -> (pow2 k == inject_Z (2 ^ k))%Q.
Proof. intros L. symmetry. apply (Zpower_Qpower 2 k L). Qed.

Lemma binade_spec (a : Q) :
  (0 < a)%Q -> (pow2 (binade a) <= a /\ a < pow2 (binade a + 1))%Q.
Proof.
  intros Pa. unfold binade.
  set (n := Qnum a). set (d := Zpos (Qden a)).
  assert (Pn : 0 < n)
    by (unfold n; destruct a as [[|?|?] ?]; unfold Qlt in Pa; simpl in *; lia).
  assert (Pd : 0 < d) by (unfold d; lia).
  destruct (Z.log2_spec n Pn) as [Ln Un]. destruct (Z.log2_spec d Pd) as [Ld Ud].
  pose proof (Z.log2_nonneg n) as Nn. pose proof (Z.log2_nonneg d) as Nd.
  set (ln := Z.log2 n) in *. set (ld := Z.log2 d) in *.
  assert (Ea : (a == inject_Z n / inject_Z d)%Q).
  { destruct a as [an ad]. unfold n, d. simpl. apply Qmake_Qdiv. }
  assert (Qd : (0 < inject_Z d)%Q) by (apply (inject_Z_lt 0); exact Pd).
  assert (A : (inject_Z n < pow2 (ln + 1))%Q).
  { rewrite pow2_inject by lia. apply inject_Z_lt. exact Un. }
  assert (B : (pow2 ld <= inject_Z d)%Q).
  { rewrite pow2_inject by lia. apply inject_Z_le. exact Ld. }
  assert (C : (pow2 ln <= inject_Z n)%Q).
  { rewrite pow2_inject by lia. apply inject_Z_le. exact Ln. }
  assert (D : (inject_Z d < pow2 (ld + 1))%Q).
  { rewrite pow2_inject by lia. apply inject_Z_lt. exact Ud. }
  assert (Up : (a < pow2 (ln - ld + 1))%Q).
  { rewrite Ea. apply Qlt_shift_div_r; [exact Qd|].
    replace (ln - ld + 1) with ((ln + 1) - ld) by lia. rewrite pow2_sub.
    pose proof (pow2_pos ld) as P1. pose proof (pow2_pos (ln + 1)) as P2.
    apply Qlt_le_trans with (pow2 (ln + 1)); [exact A|].
    apply Qle_trans with (pow2 (ln + 1) / pow2 ld * pow2 ld)%Q.
    - apply Qeq_le. field. intros H. rewrite H in P1. apply (Qlt_irrefl 0 P1).
    - apply Qmult_le_l; [|exact B].
      apply Qlt_shift_div_l; [exact P1|]. lra. }
  assert (Lo : (pow2 (ln - ld - 1) <= a)%Q).
  { rewrite Ea. apply Qle_shift_div_l; [exact Qd|].
    replace (ln - ld - 1) with (ln - (ld + 1)) by lia. rewrite pow2_sub.
    pose proof (pow2_pos (ld + 1)) as P1. pose proof (pow2_pos ln) as P2.
    apply Qle_trans with (pow2 ln); [|exact C].
    apply Qle_trans with (pow2 ln / pow2 (ld + 1) * pow2 (ld + 1))%Q.
    - apply Qmult_le_l; [|apply Qlt_le_weak, D].
      apply Qlt_shift_div_l; [exact P1|]. lra.
    - apply Qeq_le. field. intros H. rewrite H in P1. apply (Qlt_irrefl 0 P1). }
  destruct (Qle_bool (pow2 (ln - ld)) a) eqn:T.
  - apply Qle_bool_iff in T. split; assumption.
  - split; [exact Lo|].
    replace (ln - ld - 1 + 1) with (ln - ld) by lia.
    apply Qnot_le_lt. intros H. apply Qle_bool_iff in H. congruence.
Qed.

Lemma binade_mono (a a' : Q) :
  (0 < a)%Q -> (a <= a')%Q -> binade a <= binade a'.
Proof.
  intros Pa L.
  destruct (binade_spec a Pa) as [La Ua].
  destruct (binade_spec a' (Qlt_le_trans _ _ _ Pa L)) as [La' Ua'].
  destruct (Z_le_gt_dec (binade a) (binade a')) as [H|H]; [exact H|exfalso].
  pose proof (pow2_le (binade a' + 1) (binade a) ltac:(lia)) as P.
  lra.
Qed.

(** A rounded number stays in the closed binade of the number. *)
Lemma b64_pos_bounds (a : Q) :
  (0 < a)%Q -> (pow2 (binade a) <= b64_pos a <= pow2 (binade a + 1))%Q.
Proof.
  intros Pa. destruct (binade_spec a Pa) as [La Ua]. unfold b64_pos.
  set (e := binade a) in *. pose proof (pow2_pos (e - 52)) as Pp.
  assert (S1 : (pow2 e == pow2 52 * pow2 (e - 52))%Q)
    by (rewrite <- pow2_add; replace (52 + (e - 52)) with e by lia; reflexivity).
  assert (S2 : (pow2 (e + 1) == pow2 53 * pow2 (e - 52))%Q)
    by (rewrite <- pow2_add; replace (53 + (e - 52)) with (e + 1) by lia;
        reflexivity).
  assert (M1 : 2 ^ 52 <= round_half_even (a / pow2 (e - 52))).
  { rewrite <- (round_half_even_inject (2 ^ 52)). apply round_half_even_mono.
    rewrite <- pow2_inject by lia. apply Qle_shift_div_l; [exact Pp|].
    rewrite <- S1. exact La. }
  assert (M2 : round_half_even (a / pow2 (e - 52)) <= 2 ^ 53).
  { rewrite <- (round_half_even_inject (2 ^ 53)). apply round_half_even_mono.
    rewrite <- pow2_inject by lia. apply Qle_shift_div_r; [exact Pp|].
    rewrite <- S2. apply Qlt_le_weak, Ua. }
  rewrite S1, S2, !pow2_inject by lia. split.
  - apply Qmult_le_compat_r; [apply inject_Z_le, M1 | apply Qlt_le_weak, Pp].
  - apply Qmult_le_compat_r; [apply inject_Z_le, M2 | apply Qlt_le_weak, Pp].
Qed.

Lemma b64_pos_pos (a : Q) : (0 < a)%Q -> (0 < b64_pos a)%Q.
Proof.
  intros Pa. destruct (b64_pos_bounds a Pa) as [L _].
  apply Qlt_le_trans with (pow2 (binade a)); [apply pow2_pos | exact L].
Qed.

Lemma b64_pos_mono (a a' : Q) :
  (0 < a)%Q -> (a <= a')%Q -> (b64_pos a <= b64_pos a')%Q.
Proof.
  intros Pa L. assert (Pa' : (0 < a')%Q) by (eapply Qlt_le_trans; eassumption).
  pose proof (binade_mono a a' Pa L) as B.
  destruct (Z.eq_dec (binade a) (binade a')) as [E|N].
  - unfold b64_pos. rewrite <- E. pose proof (pow2_pos (binade a - 52)) as Pp.
    apply Qmult_le_compat_r; [|apply Qlt_le_weak, Pp].
    apply inject_Z_le, round_half_even_mono.
    apply Qmult_le_compat_r; [exact L|]. apply Qlt_le_weak, Qinv_lt_0_compat, Pp.
  - destruct (b64_pos_bounds a Pa) as [_ U].
    destruct (b64_pos_bounds a' Pa') as [L' _].
    pose proof (pow2_le (binade a + 1) (binade a') ltac:(lia)). lra.
Qed.

Lemma b64_unfold (q : Q) :
  (b64 q == match Qcompare q 0 with
            | Eq => 0
            | Gt => b64_pos q
            | Lt => - b64_pos (- q)
            end)%Q.
Proof. unfold b64. apply Qred_correct. Qed.

(** Binary64 rounding is monotone and keeps 0. *)
Lemma b64_mono (q q' : Q) : (q <= q')%Q -> (b64 q <= b64 q')%Q.
Proof.
  intros L. rewrite !b64_unfold.
  destruct (Qcompare_spec q 0) as [A|A|A]; destruct (Qcompare_spec q' 0) as [B|B|B];
    try (exfalso; lra).
  - apply Qle_refl.
  - apply Qlt_le_weak, b64_pos_pos, B.
  - pose proof (b64_pos_pos (- q) ltac:(lra)). lra.
  - pose proof (b64_pos_mono (- q') (- q) ltac:(lra) ltac:(lra)). lra.
  - pose proof (b64_pos_pos (- q) ltac:(lra)).
    pose proof (b64_pos_pos q' B). lra.
  - apply b64_pos_mono; assumption.
Qed.

Lemma b64_0 : (b64 0 == 0)%Q.
Proof. reflexivity. Qed.

Lemma exact_mono (q q' : Q) : (q <= q')%Q -> (exact q <= exact q')%Q.
Proof. intros L. exact L. Qed.

Lemma exact_0 : (exact 0 == 0)%Q.
Proof. reflexivity. Qed.

(** The literals of the program that are not binary fractions, as Python
    reads them. *)
Example b64_three_tenths : b64 (3 # 10) = (5404319552844595 # 18014398509481984)%Q.
Proof. vm_compute. reflexivity. Qed.

Example b64_million : b64 1000000 = 1000000%Q.
Proof. vm_compute. reflexivity. Qed.

(** *** Float operations under a monotone rounding *)

Section FloatFacts.
Variable fl : Q -> Q.
Hypothesis fl_mono : forall q q', (q <= q')%Q -> (fl q <= fl q')%Q.
Hypothesis fl_zero : (fl 0 == 0)%Q.

Lemma fl_comp (q q' : Q) : (q == q')%Q -> (fl q == fl q')%Q.
Proof.
  intros E. apply Qle_antisym; apply fl_mono, Qeq_le;
    [exact E | symmetry; exact E].
Qed.

Lemma fl_nonneg (q : Q) : (0 <= q)%Q -> (0 <= fl q)%Q.
Proof. intros L. rewrite <- fl_zero. apply fl_mono, L. Qed.

Lemma float_of_int_mono (a b : Z) :
  a <= b -> (float_of_int fl a <= float_of_int fl b)%Q.
Proof. intros L. apply fl_mono, inject_Z_le, L. Qed.

Lemma float_of_int_nonneg (a : Z) : 0 <= a -> (0 <= float_of_int fl a)%Q.
Proof. intros L. apply fl_nonneg, (inject_Z_le 0), L. Qed.

Lemma fmul_mono_l (x x' y : Q) :
  (0 <= y)%Q -> (x <= x')%Q -> (fmul fl x y <= fmul fl x' y)%Q.
Proof. intros Py L. apply fl_mono, Qmult_le_compat_r; assumption. Qed.

Lemma fmul_nonneg (x y : Q) : (0 <= x)%Q -> (0 <= y)%Q -> (0 <= fmul fl x y)%Q.
Proof. intros Px Py. apply fl_nonneg, Qmult_le_0_compat; assumption. Qed.

Lemma fdiv_mono_l (x x' y : Q) :
  (0 <= y)%Q -> (x <= x')%Q -> (fdiv fl x y <= fdiv fl x' y)%Q.
Proof.
  intros Py L. apply fl_mono. unfold Qdiv.
  apply Qmult_le_compat_r; [exact L | apply Qinv_le_0_compat, Py].
Qed.

Lemma fdiv_nonneg (x y : Q) : (0 <= x)%Q -> (0 <= y)%Q -> (0 <= fdiv fl x y)%Q.
Proof.
  intros Px Py. apply fl_nonneg. unfold Qdiv.
  apply Qmult_le_0_compat; [exact Px | apply Qinv_le_0_compat, Py].
Qed.

Lemma fadd_mono (x x' y y' : Q) :
  (x <= x')%Q -> (y <= y')%Q -> (fadd fl x y <= fadd fl x' y')%Q.
Proof. intros Lx Ly. apply fl_mono, Qplus_le_compat; assumption. Qed.

Lemma fadd_nonneg (x y : Q) : (0 <= x)%Q -> (0 <= y)%Q -> (0 <= fadd fl x y)%Q.
Proof. intros Px Py. apply fl_nonneg. lra. Qed.

Lemma py_round_mono (q q' : Q) (n : nat) :
  (q <= q')%Q -> (py_round fl q n <= py_round fl q' n)%Q.
Proof.
  intros L. unfold py_round. pose proof (scale_pos n) as P.
  apply fl_mono, Qmult_le_compat_r.
  - apply inject_Z_le, round_half_even_mono.
    apply Qmult_le_compat_r; [exact L | apply Qlt_le_weak, P].
  - apply Qlt_le_weak, Qinv_lt_0_compat, P.
Qed.

Lemma py_round_0 (q : Q) (n : nat) : (q == 0)%Q -> (py_round fl q n == 0)%Q.
Proof.
  intros E. unfold py_round.
  rewrite (round_half_even_comp _ (inject_Z 0)) by (rewrite E; ring).
  rewrite round_half_even_inject.
  rewrite (fl_comp _ 0) by (unfold Qdiv; ring). exact fl_zero.
Qed.

Lemma py_round_nonneg (q : Q) (n : nat) : (0 <= q)%Q -> (0 <= py_round fl q n)%Q.
Proof.
  intros L. rewrite <- (py_round_0 0 n) by reflexivity. apply py_round_mono, L.
Qed.
End FloatFacts.

(** *** Cost model *)

Lemma dict_get_spec {V} (d : list (string * V)) (key : string) (dflt : V) :
  In (key, dict_get d key dflt) d
  \/ (~ In key (map fst d) /\ dict_get d key dflt = dflt).
Proof.
  induction d as [|[k v] d IH]; simpl.
  - right. split; [tauto | reflexivity].
  - destruct (String.eqb_spec k key) as [->|N].
    + left. left. reflexivity.
    + destruct IH as [IH|[IH1 IH2]]; [left; right; exact IH|].
      right. split; [|exact IH2]. intros [E|I]; [exact (N E) | exact (IH1 I)].
Qed.

Lemma dict_get_Forall {V} (P : V -> Prop) (d : list (string * V)) (key : string)
    (dflt : V) :
  Forall P (map snd d) -> P dflt -> P (dict_get d key dflt).
Proof.
  intros F D. induction d as [|[k v] d IH]; simpl in *; [exact D|].
  inversion F; subst. destruct (String.eqb k key); auto.
Qed.

(** In the table and in the fallback no rate is negative and cached input
    is never dearer than fresh input. *)
Lemma pricing_sane (model : string) : sane_pricing (pricing_of model).
Proof.
  unfold pricing_of. apply dict_get_Forall.
  - repeat constructor; unfold Qle; simpl; lia.
  - repeat split; unfold Qle; simpl; lia.
Qed.

Lemma compute_cost_unfold (fl : Q -> Q) (model : string) (i o c : Z) :
  compute_cost fl i o c model =
  py_round fl
    (fadd fl
       (fadd fl
          (per_million fl (Z.max 0 (i - c)) (p_input (pricing_of model)))
          (per_million fl c (p_cached_input (pricing_of model))))
       (per_million fl o (p_output (pricing_of model)))) 6.
Proof. reflexivity. Qed.

(** The examples of the design document and of this section, as Python
    computes them. *)
Example compute_cost_sonnet :
  compute_cost b64 1000 100 200 "claude-sonnet-4.5" = b64 (396 # 100000).
Proof. vm_compute. reflexivity. Qed.

Section CostFacts.
Variable fl : Q -> Q.
Hypothesis fl_mono : forall q q', (q <= q')%Q -> (fl q <= fl q')%Q.
Hypothesis fl_zero : (fl 0 == 0)%Q.

(** One term of the cost: tokens times rate, per million. *)
Lemma cost_term_mono (n n' : Z) (rate : Q) :
  (0 <= rate)%Q -> n <= n' ->
  (per_million fl n rate <= per_million fl n' rate)%Q.
Proof.
  intros Pr L. apply fdiv_mono_l; [exact fl_mono | |].
  - apply float_of_int_nonneg; [exact fl_mono | exact fl_zero | lia].
  - apply fmul_mono_l; [exact fl_mono | apply fl_nonneg; assumption |].
    apply float_of_int_mono; assumption.
Qed.

Lemma cost_term_nonneg (n : Z) (rate : Q) :
  (0 <= rate)%Q -> 0 <= n -> (0 <= per_million fl n rate)%Q.
Proof.
  intros Pr L. apply fdiv_nonneg; [exact fl_mono | exact fl_zero | |].
  - apply fmul_nonneg; [exact fl_mono | exact fl_zero | |].
    + apply float_of_int_nonneg; assumption.
    + apply fl_nonneg; assumption.
  - apply float_of_int_nonneg; [exact fl_mono | exact fl_zero | lia].
Qed.

(** C1, as the program has it. In every arithmetic whose rounding is
    monotone and keeps 0, binary64 among them, and for non-negative token
    counts: the cost is never negative; it does not decrease when the input
    count or the output count grows; and it does not decrease when the
    cache-read count grows from a value that is at least the input count.
    (Below the input count a cache read replaces a fresh input token at a
    lower rate, and the cost can fall.) *)
Theorem compute_cost_nonneg_monotone (model : string) (i o c i' o' c' : Z) :
  0 <= i -> 0 <= o -> 0 <= c ->
  (0 <= compute_cost fl i o c model)%Q
  /\ (i <= i' -> (compute_cost fl i o c model <= compute_cost fl i' o c model)%Q)
  /\ (o <= o' -> (compute_cost fl i o c model <= compute_cost fl i o' c model)%Q)
  /\ (i <= c <= c' ->
      (compute_cost fl i o c model <= compute_cost fl i o c' model)%Q).
Proof.
  intros Hi Ho Hc. rewrite !compute_cost_unfold.
  destruct (pricing_sane model) as (Pi & Po & Pc & Pci).
  repeat split.
  - apply py_round_nonneg; [exact fl_mono | exact fl_zero |].
    repeat apply fadd_nonneg; try exact fl_mono; try exact fl_zero;
      apply cost_term_nonneg; try assumption; lia.
  - intros L. apply py_round_mono; [exact fl_mono|].
    repeat apply fadd_mono; try exact fl_mono; try apply Qle_refl.
    apply cost_term_mono; [exact Pi | lia].
  - intros L. apply py_round_mono; [exact fl_mono|].
    repeat apply fadd_mono; try exact fl_mono; try apply Qle_refl.
    apply cost_term_mono; [exact Po | lia].
  - intros [L1 L2]. apply py_round_mono; [exact fl_mono|].
    repeat apply fadd_mono; try exact fl_mono; try apply Qle_refl.
    + apply cost_term_mono; [exact Pi | lia].
    + apply cost_term_mono; [exact Pc | lia].
Qed.

(** The cost of no tokens is 0 in every such arithmetic. *)
Lemma compute_cost_zero (model : string) :
  (compute_cost fl 0 0 0 model == 0)%Q.
Proof.
  rewrite compute_cost_unfold. apply py_round_0; [exact fl_mono | exact fl_zero |].
  assert (T : forall rate, (per_million fl 0 rate == 0)%Q).
  { intros rate. unfold per_million, fdiv, fmul, float_of_int.
    rewrite (fl_comp fl fl_mono _ 0); [exact fl_zero|].
    rewrite (fl_comp fl fl_mono (fl (inject_Z 0) * _) 0).
    - rewrite fl_zero. unfold Qdiv. ring.
    - change (inject_Z 0) with 0%Q. rewrite fl_zero. ring. }
  change (Z.max 0 (0 - 0)) with 0. unfold fadd.
  rewrite (fl_comp fl fl_mono _ 0); [exact fl_zero|].
  rewrite (fl_comp fl fl_mono (_ + _) 0); [rewrite fl_zero, T; ring|].
  rewrite !T. ring.
Qed.
End CostFacts.

Lemma compute_cost_nonneg_monotone_witness :
  (0 <= compute_cost b64 1000 100 200 "claude-sonnet-4.5")%Q
  /\ (compute_cost b64 1000 100 200 "claude-sonnet-4.5"
      <= compute_cost b64 2000 100 200 "claude-sonnet-4.5")%Q.
Proof.
  pose proof (compute_cost_nonneg_monotone b64 b64_mono b64_0 "claude-sonnet-4.5"
                1000 100 200 2000 100 200
                ltac:(lia) ltac:(lia) ltac:(lia)) as (H0 & H1 & _).
  split; [exact H0 | apply H1; lia].
Defined.

(** C1 as stated fails in the cache-read count: with 1000 input tokens of
    claude-sonnet-4.5, raising the cache reads from 0 to 1000 lowers the
    cost from 0.003 to 0.0003 dollars. *)
Lemma compute_cost_cache_read_not_monotone :
  0 <= 1000 /\ 0 <= 0 /\ 0 <= 0 <= 1000
  /\ compute_cost b64 1000 0 0 "claude-sonnet-4.5" = b64 (3 # 1000)
  /\ compute_cost b64 1000 0 1000 "claude-sonnet-4.5" = b64 (3 # 10000)
  /\ ~ (compute_cost b64 1000 0 0 "claude-sonnet-4.5"
        <= compute_cost b64 1000 0 1000 "claude-sonnet-4.5")%Q.
Proof.
  repeat split; try lia; try (vm_compute; reflexivity).
  vm_compute. intros H. apply H. reflexivity.
Qed.

(** In exact arithmetic the cost is the formula with one division. *)
Lemma compute_cost_exact_formula (model : string) (i o c : Z) :
  (compute_cost exact i o c model == cost_formula exact (pricing_of model) i o c)%Q.
Proof.
  rewrite compute_cost_unfold.
  unfold cost_formula, per_million, py_round, fadd, fdiv, fmul, float_of_int,
    float_lit, exact.
  rewrite (round_half_even_comp _
    (((inject_Z (Z.max 0 (i - c)) * p_input (pricing_of model)
       + inject_Z c * p_cached_input (pricing_of model)
       + inject_Z o * p_output (pricing_of model)) / inject_Z 1000000)
     * inject_Z (10 ^ Z.of_nat 6))%Q); [reflexivity|].
  field.
Qed.

(** C6, as the program has it. The rates of a model are its entry of the
    table, or the fallback for a model that is not in the table. The cost
    is the sum of the three products tokens * rate, each divided by
    1,000,000 before the sum, rounded to 6 decimals: max(0, input -
    cacheRead) at the input rate, cacheRead at the cached-input rate and
    output at the output rate. In exact arithmetic this is the formula with
    one division of the sum. The cost of no tokens is 0 in every arithmetic
    whose rounding is monotone and keeps 0, binary64 among them. *)
Theorem compute_cost_exact (fl : Q -> Q) (model : string) (i o c : Z) :
  (forall q q', (q <= q')%Q -> (fl q <= fl q')%Q) -> (fl 0 == 0)%Q ->
  let rates := pricing_of model in
  (In (model, rates) MODEL_PRICING
   \/ (~ In model (map fst MODEL_PRICING) /\ rates = DEFAULT_PRICING))
  /\ compute_cost fl i o c model =
     py_round fl
       (fadd fl
          (fadd fl (per_million fl (Z.max 0 (i - c)) (p_input rates))
             (per_million fl c (p_cached_input rates)))
          (per_million fl o (p_output rates))) 6
  /\ (compute_cost exact i o c model == cost_formula exact rates i o c)%Q
  /\ (compute_cost fl 0 0 0 model == 0)%Q.
Proof.
  intros fl_mono fl_zero rates. split; [apply dict_get_spec|]. split; [|split].
  - apply compute_cost_unfold.
  - apply compute_cost_exact_formula.
  - apply compute_cost_zero; assumption.
Qed.

Lemma compute_cost_exact_witness :
  (compute_cost exact 1000 100 200 "claude-sonnet-4.5"
   == cost_formula exact (pricing_of "claude-sonnet-4.5") 1000 100 200)%Q
  /\ (compute_cost b64 0 0 0 "claude-sonnet-4.5" == 0)%Q.
Proof.
  destruct (compute_cost_exact b64 "claude-sonnet-4.5" 1000 100 200 b64_mono b64_0)
    as (_ & _ & H1 & H2).
  split; [exact H1 | exact H2].
Defined.

(** C6 as stated fails in binary64. For gpt-5.2 with 4 input, 4 output
    and 3 cache-read tokens the products are 2, 1.5 and 32 micro-dollars,
    35.5 in all. The formula with one division gives 0.000036, in binary64
    as in exact arithmetic; the program adds the three quotients and
    returns 0.000035. *)
Lemma compute_cost_differs_from_formula :
  compute_cost b64 4 4 3 "gpt-5.2" = b64 (35 # 1000000)
  /\ cost_formula b64 (pricing_of "gpt-5.2") 4 4 3 = b64 (36 # 1000000)
  /\ (cost_formula exact (pricing_of "gpt-5.2") 4 4 3 == 36 # 1000000)%Q
  /\ ~ (compute_cost b64 4 4 3 "gpt-5.2"
        == cost_formula b64 (pricing_of "gpt-5.2") 4 4 3)%Q
  /\ ~ (compute_cost b64 4 4 3 "gpt-5.2"
        == cost_formula exact (pricing_of "gpt-5.2") 4 4 3)%Q.
Proof. repeat split; try (vm_compute; reflexivity); vm_compute; discriminate. Qed.

(** The same at a larger total, 513411.5 micro-dollars. *)
Example compute_cost_differs_large :
  micro_dollars (compute_cost b64 110341 49293 67743 "gpt-5.2") = 513411
  /\ micro_dollars (cost_formula b64 (pricing_of "gpt-5.2") 110341 49293 67743)
     = 513412.
Proof. split; vm_compute; reflexivity. Qed.

(** In exact arithmetic, and below the input count, each further cache
    read lowers the cost or leaves it: the cached rate is at most the
    input rate. *)
Lemma compute_cost_cache_read_cheaper (model : string) (i o c c' : Z) :
  0 <= c <= c' -> c' <= i ->
  (compute_cost exact i o c' model <= compute_cost exact i o c model)%Q.
Proof.
  intros [Hc L1] L2. rewrite !compute_cost_unfold.
  destruct (pricing_sane model) as (Pi & Po & Pc & Pci).
  apply py_round_mono; [exact exact_mono|].
  unfold per_million, fadd, fdiv, fmul, float_of_int, float_lit, exact.
  replace (Z.max 0 (i - c)) with (i - c) by lia.
  replace (Z.max 0 (i - c')) with (i - c') by lia.
  unfold Z.sub. rewrite !inject_Z_plus, !inject_Z_opp.
  set (ri := p_input (pricing_of model)) in *.
  set (rc := p_cached_input (pricing_of model)) in *.
  set (ro := p_output (pricing_of model)) in *.
  assert (D : (0 <= inject_Z c' - inject_Z c)%Q)
    by (pose proof (inject_Z_le _ _ L1); lra).
  assert (R : (0 <= ri - rc)%Q) by lra.
  pose proof (Qmult_le_0_compat _ _ D R) as M.
  assert (E : forall x, (x / inject_Z 1000000 == x * (1 # 1000000))%Q)
    by (intros x; field).
  rewrite !E. lra.
Qed.

(** *** Telemetry block extraction *)

Lemma collect_block_rest (ls json_lines : list string) (brace_count : Z)
    (started : bool) :
  (length (snd (collect_block ls json_lines brace_count started)) <= length ls)%nat.
Proof.
  revert json_lines brace_count started.
  induction ls as [|line rest IH]; intros json_lines brace_count started;
    [reflexivity|].
  cbn [collect_block]. repeat case_match; cbn [snd length]; try lia;
    match goal with |- context [collect_block rest ?j ?b ?s] =>
      specialize (IH j b s); lia end.
Qed.

Lemma scan_candidates_fuel (n m : nat) (ls : list string)
    (found : list (list string)) :
  (length ls <= n)%nat -> (length ls <= m)%nat ->
  scan_candidates n ls found = scan_candidates m ls found.
Proof.
  revert m ls found. induction n as [|n IH]; intros m ls found Hn Hm.
  - destruct ls; [|simpl in Hn; lia]. destruct m; reflexivity.
  - destruct m as [|m]; [destruct ls; [reflexivity | simpl in Hm; lia]|].
    destruct ls as [|line rest]; [reflexivity|]. cbn [scan_candidates].
    simpl in Hn, Hm. destruct (contains TELEMETRY_MARKER line).
    + pose proof (collect_block_rest rest [] 0 false) as L.
      destruct (collect_block rest [] 0 false) as [json_lines ls']. cbn [snd] in L.
      assert (length (tail ls') <= length ls')%nat by (destruct ls'; simpl; lia).
      apply IH; lia.
    + apply IH; lia.
Qed.

(** The scan ends within as many rounds as there are lines: any larger
    supply of rounds finds the same blocks. *)
Lemma candidate_blocks_fuel (fuel : nat) (lines : list string) :
  (length lines <= fuel)%nat ->
  scan_candidates fuel lines [] = candidate_blocks lines.
Proof. intros H. apply scan_candidates_fuel; [exact H | reflexivity]. Qed.

(** While no block has started, a line that does not open one is passed
    over and the search for the block of the same marker goes on. *)
Lemma collect_block_keeps_seeking (line : string) (rest json_lines : list string)
    (brace_count : Z) :
  is_block_start (re_sub_anchored_empty TIMESTAMP_PREFIX line) = false ->
  collect_block (line :: rest) json_lines brace_count false =
  collect_block rest json_lines brace_count false.
Proof. intros H. cbn [collect_block]. rewrite H. reflexivity. Qed.

(** C2, the program at a log where the claim and the program part. The
    line after the marker does not open a block, yet the marker is not
    given up: the object that starts one line later is collected as the
    block of this marker, and a call record is made of it. *)
Theorem marker_survives_other_lines :
  is_block_start (re_sub_anchored_empty TIMESTAMP_PREFIX other_line) = false
  /\ candidate_blocks interleaved_log = [["{"; kind_line; "}"]]
  /\ parse_process_log loads_usage_object
       (Some (join (String "010" "") interleaved_log)) ""
     = [LlmCall "unknown" "unknown" "" 0 0 0 0 0 0].
Proof. repeat split; vm_compute; reflexivity. Qed.

(** *** Summary *)

Lemma py_truediv_Some (fl : Q -> Q) (a : Q) (b : Z) :
  b <> 0 -> py_truediv fl a (inject_Z b) = Some (fdiv fl a (inject_Z b)).
Proof.
  intros N. unfold py_truediv.
  destruct (Qeq_bool (inject_Z b) 0) eqn:E; [|reflexivity].
  apply Qeq_bool_eq in E. unfold Qeq in E. simpl in E. lia.
Qed.

Lemma cache_hit_rate_total (fl : Q -> Q) (total_cache_read total_input : Z) :
  cache_hit_rate fl total_cache_read total_input =
  Some (if 0 <? total_input
        then fmul fl (fdiv fl (inject_Z total_cache_read) (inject_Z total_input))
               (float_of_int fl 100)
        else 0%Q).
Proof.
  unfold cache_hit_rate. destruct (Z.ltb_spec 0 total_input); [|reflexivity].
  rewrite py_truediv_Some by lia. reflexivity.
Qed.

Lemma success_rate_pct_total (fl : Q -> Q) (n f : Z) :
  is_Some (success_rate_pct fl n f).
Proof.
  unfold success_rate_pct. destruct (Z.eqb_spec n 0); [eexists; reflexivity|].
  rewrite py_truediv_Some by assumption. eexists; reflexivity.
Qed.

Lemma len_cons_nonzero {A} (x : A) (l : list A) : len (x :: l) <> 0.
Proof. unfold len. simpl. lia. Qed.

Lemma len_snoc {A} (l : list A) (x : A) : len (l ++ [x]) = len l + 1.
Proof. unfold len. rewrite length_app. simpl. lia. Qed.

(** [build_summary] never raises: each division is behind its guard.
    The fields of the report that the properties below speak of. *)
Lemma build_summary_fields (fl : Q -> Q) (cdm : string -> string -> option Z)
    (ev : events) (dev_loop : list dev_loop_action) (llm_calls : list llm_call) :
  exists r, build_summary fl cdm ev dev_loop llm_calls = Some r
    /\ r_turns r =
       TurnCounts (len (e_turns ev)) (len (e_user_messages ev))
         (len (e_turns ev) - len (e_user_messages ev))
    /\ cache_hit_rate_pct (r_summary r) =
       py_round fl
         (if 0 <? sum_Z (map c_input_tokens llm_calls)
          then fmul fl
                 (fdiv fl (inject_Z (sum_Z (map c_cache_read_tokens llm_calls)))
                    (inject_Z (sum_Z (map c_input_tokens llm_calls))))
                 (float_of_int fl 100)
          else 0%Q) 1
    /\ fix_cycles (r_dev_loop_summary r) =
       detect_fix_cycles (List.filter (is_kind Build) dev_loop)
    /\ redundant_builds (r_dev_loop_summary r) =
       count_redundant_builds (List.filter (is_kind Build) dev_loop)
         (e_tool_completes ev).
Proof.
  unfold build_summary. rewrite cache_hit_rate_total. cbn [mbind option_bind].
  destruct (success_rate_pct_total fl
              (len (List.filter (is_kind Build) dev_loop))
              (len (List.filter (fun d => negb (succeeded d))
                      (List.filter (is_kind Build) dev_loop)))) as [rb ->].
  destruct (success_rate_pct_total fl
              (len (List.filter (is_kind Test) dev_loop))
              (len (List.filter (fun d => negb (succeeded d))
                      (List.filter (is_kind Test) dev_loop)))) as [rt ->].
  cbn [mbind option_bind].
  destruct llm_calls as [|c0 calls].
  - cbn [mbind option_bind]. eexists. split; [reflexivity|]. repeat split.
  - rewrite py_truediv_Some by apply len_cons_nonzero.
    cbn [mbind option_bind]. eexists. split; [reflexivity|]. repeat split.
Qed.

(** C7. In every arithmetic whose rounding is monotone and keeps 0, and
    for every list of call records: no division of the summary divides by
    zero ([None] of [build_summary] is a ZeroDivisionError, and the result
    is [Some] report); its cache hit rate is 0 when the input
    tokens sum to 0 or to less, whatever the cache reads; when they sum to
    more than 0 it is cache reads / input tokens * 100 rounded to 1 decimal;
    and for a sum that is not negative this is the rate of the design
    document. *)
Theorem cache_hit_rate_pct_guarded (fl : Q -> Q)
    (cdm : string -> string -> option Z) (ev : events)
    (dev_loop : list dev_loop_action) (llm_calls : list llm_call) :
  (forall q q', (q <= q')%Q -> (fl q <= fl q')%Q) -> (fl 0 == 0)%Q ->
  let total_input := sum_Z (map c_input_tokens llm_calls) in
  let total_cache_read := sum_Z (map c_cache_read_tokens llm_calls) in
  exists r, build_summary fl cdm ev dev_loop llm_calls = Some r
    /\ (total_input <= 0 -> (cache_hit_rate_pct (r_summary r) == 0)%Q)
    /\ (0 < total_input ->
        cache_hit_rate_pct (r_summary r)
        = py_round fl
            (fmul fl (fdiv fl (inject_Z total_cache_read) (inject_Z total_input))
               (float_of_int fl 100)) 1)
    /\ (0 <= total_input ->
        (cache_hit_rate_pct (r_summary r)
         == cache_hit_rate_formula fl total_cache_read total_input)%Q).
Proof.
  intros fl_mono fl_zero total_input total_cache_read.
  destruct (build_summary_fields fl cdm ev dev_loop llm_calls) as (r & E & _ & C & _).
  exists r. split; [exact E|]. rewrite C. fold total_input total_cache_read.
  split; [|split].
  - intros NP. destruct (Z.ltb_spec 0 total_input); [lia|].
    apply py_round_0; try assumption. reflexivity.
  - intros P. destruct (Z.ltb_spec 0 total_input); [reflexivity | lia].
  - intros NN. unfold cache_hit_rate_formula.
    destruct (Z.eqb_spec total_input 0) as [Z0|NZ].
    + rewrite Z0. simpl (0 <? 0). apply py_round_0; try assumption. reflexivity.
    + destruct (Z.ltb_spec 0 total_input); [reflexivity | lia].
Qed.

Lemma cache_hit_rate_pct_guarded_witness :
  exists r,
    build_summary b64 no_clock initial_events [] [call (-3) 7; call 6 1] = Some r
    /\ cache_hit_rate_pct (r_summary r) = b64 (2667 # 10).
Proof.
  destruct (cache_hit_rate_pct_guarded b64 no_clock initial_events []
              [call (-3) 7; call 6 1] b64_mono b64_0)
    as (r & E & _ & H & _).
  exists r. split; [exact E|]. rewrite H by (simpl; lia). vm_compute. reflexivity.
Defined.

(** C7 as stated fails where the input tokens sum to less than 0. For one
    call with -5 input tokens and 1 cache-read token the sum is -5, not 0:
    the design document's rate is 1 / -5 * 100 = -20.0, in binary64 as in
    exact arithmetic, while the program, whose guard is [total_input > 0],
    reports 0. *)
Lemma cache_hit_rate_negative_total :
  sum_Z (map c_input_tokens [call (-5) 1]) = -5
  /\ sum_Z (map c_cache_read_tokens [call (-5) 1]) = 1
  /\ option_map (fun r => cache_hit_rate_pct (r_summary r))
       (build_summary b64 no_clock initial_events [] [call (-5) 1]) = Some 0%Q
  /\ cache_hit_rate_formula b64 1 (-5) = b64 (-20 # 1)
  /\ (cache_hit_rate_formula exact 1 (-5) == -20 # 1)%Q
  /\ ~ (0 == cache_hit_rate_formula b64 1 (-5))%Q.
Proof. repeat split; try (vm_compute; reflexivity); vm_compute; discriminate. Qed.

(** With no input tokens the rate is 0 even when cache reads are recorded. *)
Example cache_hit_rate_no_input :
  option_map (fun r => cache_hit_rate_pct (r_summary r))
    (build_summary b64 no_clock initial_events [] [call 0 7]) = Some 0%Q.
Proof. vm_compute. reflexivity. Qed.

(** The same when input counts of both signs sum to 0. *)
Example cache_hit_rate_zero_sum :
  option_map (fun r => cache_hit_rate_pct (r_summary r))
    (build_summary b64 no_clock initial_events [] [call (-3) 7; call 3 1])
  = Some 0%Q.
Proof. vm_compute. reflexivity. Qed.

(** **** Fix cycles *)

Lemma emit_fix_cycle_run (run : list dev_loop_action) (resolution : option string) :
  emit_fix_cycle run resolution = run_fix_cycle run resolution.
Proof.
  unfold emit_fix_cycle, run_fix_cycle, len.
  destruct run as [|a [|b run]]; simpl; try reflexivity.
  destruct (Z.leb_spec 2 (Z.of_nat (S (S (length run))))); [reflexivity | lia].
Qed.

Lemma fix_cycles_loop_acc (builds cc : list dev_loop_action) (fcs : list fix_cycle) :
  fix_cycles_loop builds cc fcs =
  (fst (fix_cycles_loop builds cc []), fcs ++ snd (fix_cycles_loop builds cc [])).
Proof.
  revert cc fcs. induction builds as [|b builds IH]; intros cc fcs; simpl.
  - rewrite app_nil_r. reflexivity.
  - destruct (succeeded b); simpl.
    + rewrite (IH [] (fcs ++ _)), (IH [] (emit_fix_cycle cc _)). simpl.
      rewrite app_assoc. reflexivity.
    + apply IH.
Qed.

Lemma fix_cycles_loop_failing (fails rest cc : list dev_loop_action)
    (fcs : list fix_cycle) :
  Forall (fun b => succeeded b = false) fails ->
  fix_cycles_loop (fails ++ rest) cc fcs = fix_cycles_loop rest (cc ++ fails) fcs.
Proof.
  intros F. revert cc. induction F as [|b fails Hb F IH]; intros cc; simpl.
  - rewrite app_nil_r. reflexivity.
  - rewrite Hb. simpl. rewrite IH. rewrite <- app_assoc. reflexivity.
Qed.

Lemma detect_fix_cycles_loop (builds : list dev_loop_action) :
  detect_fix_cycles builds =
  snd (fix_cycles_loop builds [] [])
  ++ emit_fix_cycle (fst (fix_cycles_loop builds [] [])) None.
Proof.
  unfold detect_fix_cycles. destruct builds as [|b builds]; [reflexivity|].
  destruct (fix_cycles_loop (b :: builds) [] []). reflexivity.
Qed.

(** C9. Let [fails] be a run of consecutive failing builds. When a
    successful build [s] ends it, the detection yields the fix cycle of the
    run, from the start of its first failure to the start of [s], if the
    run has at least 2 builds and nothing otherwise, and goes on with the
    builds after [s] from an empty run. When the list ends with the run,
    the fix cycle has no resolution time. Every list of builds is such
    runs separated by successes, so the two equations give all the fix
    cycles: one per maximal run of length at least 2. *)
Theorem fix_cycles_per_run (fails : list dev_loop_action) :
  Forall (fun b => succeeded b = false) fails ->
  (forall s rest, succeeded s = true ->
     detect_fix_cycles (fails ++ s :: rest) =
     run_fix_cycle fails (Some (dl_startTime s)) ++ detect_fix_cycles rest)
  /\ detect_fix_cycles fails = run_fix_cycle fails None.
Proof.
  intros F. split.
  - intros s rest Hs. rewrite !detect_fix_cycles_loop.
    rewrite fix_cycles_loop_failing by assumption. simpl. rewrite Hs. simpl.
    rewrite fix_cycles_loop_acc. simpl.
    rewrite emit_fix_cycle_run, <- app_assoc. reflexivity.
  - rewrite detect_fix_cycles_loop.
    rewrite <- (app_nil_r fails) at 1 2.
    rewrite fix_cycles_loop_failing by assumption. simpl.
    apply emit_fix_cycle_run.
Qed.

Lemma fix_cycles_per_run_witness :
  detect_fix_cycles four_builds = [FixCycle 2 "t1" (Some "t5") "make a"].
Proof.
  destruct (fix_cycles_per_run (firstn 2 four_builds)) as [H _].
  - repeat constructor.
  - exact (H (build_at "make" "t5" "t6" true) [build_at "make" "t7" "t8" true]
             eq_refl).
Defined.

(** The run that is still failing when the list ends. *)
Example unresolved_fix_cycle :
  detect_fix_cycles (firstn 3 four_builds ++ firstn 2 four_builds)
  = [ FixCycle 2 "t1" (Some "t5") "make a"; FixCycle 2 "t1" None "make a" ].
Proof. reflexivity. Qed.

(** **** Redundant builds *)

Lemma is_edit_spec (tc : tool_complete) :
  is_edit tc = true <-> tc_name tc = "edit" \/ tc_name tc = "create".
Proof.
  unfold is_edit. rewrite orb_true_iff, !String.eqb_eq. reflexivity.
Qed.

Lemma redundant_after_spec (tool_completes : list tool_complete)
    (prev b : dev_loop_action) :
  redundant_after (edit_timestamps tool_completes) prev b = true
  <-> redundant_spec tool_completes prev b.
Proof.
  unfold redundant_after, redundant_spec, edit_timestamps. fold (build_end prev).
  destruct (succeeded b); [|split; [discriminate | intros [? _]; discriminate]].
  destruct (String.eqb_spec (py_take 80 (dl_command prev))
              (py_take 80 (dl_command b))) as [E|N].
  - rewrite negb_true_iff, <- not_true_iff_false, existsb_exists. split.
    + intros H. split; [reflexivity|]. split; [symmetry; exact E|].
      intros (tc & I & Ed & L1 & L2). apply H. exists (tc_endTime tc). split.
      * apply in_map, filter_In. split; [exact I | apply is_edit_spec, Ed].
      * rewrite L1, L2. reflexivity.
    + intros (_ & _ & H) (et & I & L). apply H.
      apply in_map_iff in I. destruct I as (tc & <- & I).
      apply filter_In in I. destruct I as [I Ed].
      apply andb_true_iff in L. destruct L as [L1 L2].
      exists tc. repeat split; try assumption. apply is_edit_spec, Ed.
  - split; [discriminate|]. intros (_ & E & _). congruence.
Qed.

Lemma redundant_loop_count (ets : list string) (builds : list dev_loop_action)
    (prev : dev_loop_action) (n : Z) :
  redundant_loop ets builds (Some prev) n =
  n + len (List.filter (fun pb => redundant_after ets (fst pb) (snd pb))
             (zip (prev :: builds) builds)).
Proof.
  revert prev n. induction builds as [|b builds IH]; intros prev n.
  - simpl. unfold len. simpl. lia.
  - cbn [redundant_loop]. rewrite IH.
    change (zip (prev :: b :: builds) (b :: builds))
      with ((prev, b) :: zip (b :: builds) builds).
    cbn [List.filter fst snd].
    destruct (redundant_after ets prev b); unfold len; cbn [length];
      generalize (length (List.filter
                            (fun pb => redundant_after ets (fst pb) (snd pb))
                            (zip (b :: builds) builds))); intros; lia.
Qed.

Lemma count_redundant_builds_pairs (builds : list dev_loop_action)
    (tool_completes : list tool_complete) :
  count_redundant_builds builds tool_completes =
  len (List.filter
         (fun pb => redundant_after (edit_timestamps tool_completes) (fst pb) (snd pb))
         (zip builds (tail builds))).
Proof.
  unfold count_redundant_builds. destruct builds as [|b [|b2 builds]]; try reflexivity.
  destruct (Z.leb_spec 2 (len (b :: b2 :: builds))) as [_|L].
  - change (redundant_loop (edit_timestamps tool_completes) (b :: b2 :: builds) None 0)
      with (redundant_loop (edit_timestamps tool_completes) (b2 :: builds) (Some b) 0).
    rewrite redundant_loop_count. reflexivity.
  - unfold len in L. simpl in L. lia.
Qed.

(** C8. The reported number of redundant builds is the number of builds
    that pass the test against the build just before them in the list,
    whatever the outcome of that build; and a build passes the test exactly
    when it succeeded, its command cut to 80 characters is that of the
    build before it, and no completion of an [edit] or [create] tool has a
    time stamp strictly between the end of the build before it and its own
    start. *)
Theorem redundant_builds_count (fl : Q -> Q) (cdm : string -> string -> option Z)
    (ev : events) (dev_loop : list dev_loop_action)
    (llm_calls : list llm_call) :
  let builds := List.filter (is_kind Build) dev_loop in
  let tool_completes := e_tool_completes ev in
  (exists r, build_summary fl cdm ev dev_loop llm_calls = Some r
     /\ redundant_builds (r_dev_loop_summary r) =
        len (List.filter
               (fun pb => redundant_after (edit_timestamps tool_completes)
                            (fst pb) (snd pb))
               (zip builds (tail builds))))
  /\ (forall prev b,
        redundant_after (edit_timestamps tool_completes) prev b = true
        <-> redundant_spec tool_completes prev b).
Proof.
  intros builds tool_completes. split; [|apply redundant_after_spec].
  destruct (build_summary_fields fl cdm ev dev_loop llm_calls) as (r & E & _ & _ & _ & R).
  exists r. split; [exact E|]. rewrite R. apply count_redundant_builds_pairs.
Qed.

(** The example of the design document: of four builds that fail, fail,
    succeed and succeed, the last two with one command and no edit between
    them, one is redundant (and one fix cycle of two failures is found). *)
Example four_builds_redundant : count_redundant_builds four_builds [] = 1.
Proof. reflexivity. Qed.

(** An edit that ends between the two builds clears the second one. *)
Example four_builds_edited :
  count_redundant_builds four_builds [ToolComplete "c" "edit" true "t6" "t6x"] = 0.
Proof. reflexivity. Qed.

(** *** Event stream *)

Ltac handle_cases :=
  unfold handle_event, with_events, with_current_turn, with_tool_start_map,
    with_store, with_session_info, with_user_messages, with_turns,
    with_tool_starts, with_tool_completes, with_subagents, with_compactions,
    with_errors, with_mode_changes, with_plan_changes, with_task_completes,
    with_dev_loop;
  repeat case_match; simpl in *; try congruence; try reflexivity.

Section ParserFacts.
Variable fl : Q -> Q.
Variable cdm : string -> string -> option Z.

Lemma handle_events_cons (e : event) (ts : string) (evs : list (event * string))
    (p : parser) :
  handle_events cdm ((e, ts) :: evs) p =
  handle_events cdm evs (handle_event cdm e ts p).
Proof. reflexivity. Qed.

Lemma handle_events_app (evs1 evs2 : list (event * string)) (p : parser) :
  handle_events cdm (evs1 ++ evs2) p =
  handle_events cdm evs2 (handle_events cdm evs1 p).
Proof. apply fold_left_app. Qed.

(** **** Turns *)

Lemma handle_event_turns (e : event) (ts : string) (p : parser) :
  e_turns (p_events (handle_event cdm e ts p)) =
  match e, p_current_turn p with
  | TurnEnd, Some t =>
      e_turns (p_events p)
      ++ [Turn (t_turnId t) (t_startTime t) (Some ts) (t_tool_calls t)
            (t_message_count t)]
  | _, _ => e_turns (p_events p)
  end.
Proof. destruct e; handle_cases. Qed.

Lemma handle_event_turn_open (e : event) (ts : string) (p : parser) :
  turn_open (handle_event cdm e ts p) =
  match e with
  | TurnStart _ => true
  | TurnEnd => false
  | _ => turn_open p
  end.
Proof. unfold turn_open. destruct e; handle_cases. Qed.

Lemma handle_event_user_messages (e : event) (ts : string) (p : parser) :
  e_user_messages (p_events (handle_event cdm e ts p)) =
  match e with
  | UserMessage content =>
      e_user_messages (p_events p)
      ++ [UserMessageRec (py_take 200 content) ts
            (Z.of_nat (String.length content))]
  | _ => e_user_messages (p_events p)
  end.
Proof. destruct e; handle_cases. Qed.

(** The turns of the list are the closed pairs of the stream. *)
Lemma turns_closed_pairs (evs : list (event * string)) (p : parser) :
  len (e_turns (p_events (handle_events cdm evs p))) =
  len (e_turns (p_events p)) + closed_pairs (turn_open p) evs.
Proof.
  revert p. induction evs as [|[e ts] evs IH]; intros p.
  - simpl. lia.
  - rewrite handle_events_cons, IH, handle_event_turns, handle_event_turn_open.
    unfold turn_open. destruct e; simpl; try reflexivity.
    destruct (p_current_turn p); [rewrite len_snoc|]; lia.
Qed.

Lemma user_messages_count (evs : list (event * string)) (p : parser) :
  len (e_user_messages (p_events (handle_events cdm evs p))) =
  len (e_user_messages (p_events p)) + count_events is_user_message evs.
Proof.
  revert p. induction evs as [|[e ts] evs IH]; intros p.
  - unfold count_events, len. simpl. lia.
  - rewrite handle_events_cons, IH, handle_event_user_messages.
    unfold count_events. destruct e; simpl; try reflexivity.
    rewrite !len_snoc. unfold len. cbn [length]. lia.
Qed.

Lemma well_paired_all_closed (evs : list (event * string)) (open : bool) :
  well_paired open evs = true ->
  closed_pairs open evs =
  (if open then 1 else 0) + count_events is_turn_start evs.
Proof.
  revert open. induction evs as [|[e ts] evs IH]; intros open W.
  - simpl in *. destruct open; [discriminate | reflexivity].
  - unfold count_events in *. destruct e; simpl in *; try (apply IH; assumption).
    + apply andb_true_iff in W. destruct W as [O W].
      destruct open; [discriminate|].
      rewrite (IH true W). unfold len. cbn [length]. lia.
    + rewrite (IH false W). lia.
Qed.

Lemma same_but_turn_step (e : event) (ts : string) (p q : parser) :
  e <> TurnEnd -> same_but_turn p q ->
  same_but_turn (handle_event cdm e ts p) (handle_event cdm e ts q).
Proof.
  destruct p as [pe pt pm ps], q as [qe qt qm qs].
  unfold same_but_turn. simpl. intros N (-> & -> & ->).
  destruct e; try congruence; handle_cases; simplify_eq; auto.
Qed.

Lemma same_but_turn_steps (evs : list (event * string)) (p q : parser) :
  Forall (fun et => fst et <> TurnEnd) evs -> same_but_turn p q ->
  same_but_turn (handle_events cdm evs p) (handle_events cdm evs q).
Proof.
  intros F. revert p q. induction F as [|[e ts] evs N F IH]; intros p q S.
  - exact S.
  - rewrite !handle_events_cons. apply IH, same_but_turn_step; assumption.
Qed.

(** A turn start replaces whatever turn was open. *)
Lemma turn_start_forgets (turnId ts : string) (p q : parser) :
  same_but_turn p q ->
  handle_event cdm (TurnStart turnId) ts p =
  handle_event cdm (TurnStart turnId) ts q.
Proof.
  destruct p, q. unfold same_but_turn. simpl. intros (-> & -> & ->). reflexivity.
Qed.

Lemma session_report_turns (evs : list (event * string))
    (llm_calls : list llm_call) :
  exists r, session_report fl cdm evs llm_calls = Some r
    /\ r_turns r =
       TurnCounts (closed_pairs false evs) (count_events is_user_message evs)
         (closed_pairs false evs - count_events is_user_message evs).
Proof.
  unfold session_report.
  destruct (build_summary_fields fl cdm (p_events (run_events cdm evs))
              (dev_loop_of (run_events cdm evs)) llm_calls) as (r & E & T & _).
  exists r. split; [exact E|]. rewrite T. unfold run_events.
  rewrite turns_closed_pairs, user_messages_count. reflexivity.
Qed.

(** C5. (1) For a stream in which every turn start is closed by a turn
    end before the next turn start, the reported [turns.total] is the
    number of turn starts, that is of start/end pairs, and
    [agent_initiated] is [total - user_initiated]. (2) A turn that is
    still open when the next turn starts leaves no trace: the parse ends
    in the same state as on the stream without its start. (3) No event
    other than a turn end adds to the list of turns. *)
Theorem turns_total_counts_pairs :
  (forall evs llm_calls, well_paired false evs = true ->
     exists r, session_report fl cdm evs llm_calls = Some r
       /\ turns_total (r_turns r) = count_events is_turn_start evs
       /\ turns_agent_initiated (r_turns r) =
          turns_total (r_turns r) - turns_user_initiated (r_turns r))
  /\ (forall pre mid post a ta b tb,
        Forall (fun et => fst et <> TurnEnd) mid ->
        run_events cdm (pre ++ (TurnStart a, ta) :: mid ++ (TurnStart b, tb) :: post)
        = run_events cdm (pre ++ mid ++ (TurnStart b, tb) :: post))
  /\ (forall e ts p, e <> TurnEnd ->
        e_turns (p_events (handle_event cdm e ts p)) = e_turns (p_events p)).
Proof.
  split; [|split].
  - intros evs llm_calls W.
    destruct (session_report_turns evs llm_calls) as (r & E & T).
    exists r. split; [exact E|]. rewrite T. simpl.
    rewrite (well_paired_all_closed evs false W). split; [lia | reflexivity].
  - intros pre mid post a ta b tb F. unfold run_events.
    rewrite !handle_events_app, !handle_events_cons, !handle_events_app,
      !handle_events_cons.
    f_equal. apply turn_start_forgets, same_but_turn_steps; [exact F|].
    repeat split.
  - intros e ts p N. rewrite handle_event_turns.
    destruct e; try reflexivity. congruence.
Qed.

(** C10. The reported [user_initiated] is the number of user messages of
    the stream, [total] the number of closed turns, and [agent_initiated]
    their difference as it comes, so that a stream with a user message
    and no closed turn reports a negative [agent_initiated]. *)
Theorem agent_initiated_unclamped :
  (forall evs llm_calls,
     exists r, session_report fl cdm evs llm_calls = Some r
       /\ turns_user_initiated (r_turns r) = count_events is_user_message evs
       /\ turns_total (r_turns r) = closed_pairs false evs
       /\ turns_agent_initiated (r_turns r) =
          closed_pairs false evs - count_events is_user_message evs)
  /\ (exists evs, forall llm_calls,
        exists r, session_report fl cdm evs llm_calls = Some r
          /\ turns_agent_initiated (r_turns r) = -1).
Proof.
  split.
  - intros evs llm_calls.
    destruct (session_report_turns evs llm_calls) as (r & E & T).
    exists r. rewrite T. repeat split. exact E.
  - exists [(UserMessage "hello", "t1")]. intros llm_calls.
    destruct (session_report_turns [(UserMessage "hello", "t1")] llm_calls)
      as (r & E & T).
    exists r. split; [exact E|]. rewrite T. reflexivity.
Qed.
End ParserFacts.

Lemma turns_total_counts_pairs_witness :
  exists r,
    session_report b64 no_clock hello_session [] = Some r
    /\ turns_total (r_turns r) = 1
    /\ turns_agent_initiated (r_turns r) =
       turns_total (r_turns r) - turns_user_initiated (r_turns r).
Proof.
  exact (proj1 (turns_total_counts_pairs b64 no_clock) hello_session [] eq_refl).
Defined.

(** The end-to-end example of the design document: one session start, the
    user message hello and one turn. *)
Example hello_session_report :
  option_map (fun r => (r_turns r, tc_total (r_tool_calls r), total_llm_calls (r_summary r)))
    (session_report b64 no_clock hello_session [])
  = Some (TurnCounts 1 1 0, 0, 0).
Proof. reflexivity. Qed.

(** **** The store of dev-loop dicts *)

Section Invariant.
Variable cdm : string -> string -> option Z.

Lemma dev_loop_finalized_step (e : event) (ts : string) (p : parser) :
  dev_loop_finalized p -> dev_loop_finalized (handle_event cdm e ts p).
Proof.
  unfold dev_loop_finalized. intros I.
  destruct e; handle_cases; try exact I;
    try (eapply Forall_impl; [exact I|]; intros loc (d & L & F);
         exists d; split; [|exact F]; apply lookup_app_l_Some, L).
  apply Forall_app. split.
  - eapply Forall_impl; [exact I|]. intros loc (d' & L & F).
    destruct (decide (n = loc)) as [->|N].
    + eexists. split; [apply list_lookup_insert_eq; eapply lookup_lt_Some, L|].
      split; eexists; reflexivity.
    + exists d'. split; [|exact F]. rewrite list_lookup_insert_ne; assumption.
  - constructor; [|constructor]. eexists.
    split; [apply list_lookup_insert_eq; eapply lookup_lt_Some; eassumption|].
    split; eexists; reflexivity.
Qed.

Lemma dev_loop_finalized_steps (evs : list (event * string)) (p : parser) :
  dev_loop_finalized p -> dev_loop_finalized (handle_events cdm evs p).
Proof.
  revert p. induction evs as [|[e ts] evs IH]; intros p I; [exact I|].
  apply IH, dev_loop_finalized_step, I.
Qed.

(** Every action that [parse_events] hands to [build_summary] carries an
    end time and an outcome, so [build_end] is its end time and
    [succeeded] its recorded outcome. *)
Lemma parsed_dev_loop_finalized (evs : list (event * string)) :
  Forall finalized (dev_loop_of (run_events cdm evs)).
Proof.
  assert (I : dev_loop_finalized (run_events cdm evs))
    by (apply dev_loop_finalized_steps; constructor).
  unfold dev_loop_finalized, dev_loop_of in *.
  induction I as [|loc locs (d & L & F) I IH]; [constructor|].
  cbn [omap list_omap]. rewrite L. constructor; assumption.
Qed.
Lemma store_covers_step (e : event) (ts : string) (p : parser) :
  store_covers p -> store_covers (handle_event cdm e ts p).
Proof.
  unfold store_covers. intros I.
  destruct e; handle_cases; try exact I; intros id si loc Hm Hd.
  1, 2: (rewrite lookup_insert in Hm; case_decide; simplify_eq/=;
          [ rewrite lookup_app_r by lia; rewrite Nat.sub_diag; eexists; reflexivity
          | rewrite lookup_insert in Hm; case_decide; simplify_eq/=;
            destruct (I _ _ _ Hm Hd) as [d Hd']; exists d;
            apply lookup_app_l_Some, Hd' ]).
  1, 2: (rewrite lookup_insert in Hm; case_decide; simplify_eq/=; eauto).
  destruct (I _ _ _ Hm Hd) as [d' Hd'].
  apply lookup_lt_is_Some. rewrite length_insert. eapply lookup_lt_Some, Hd'.
Qed.

(** In every state that the parser reaches, a pending dev-loop action is
    in the store. *)
Lemma store_covers_run (evs : list (event * string)) :
  store_covers (run_events cdm evs).
Proof.
  unfold run_events.
  assert (I0 : store_covers initial_parser).
  { intros id si loc Hm. simpl in Hm. rewrite lookup_empty in Hm. discriminate. }
  revert I0. generalize initial_parser.
  induction evs as [|[e ts] evs IH]; intros p I; [exact I|].
  apply IH, store_covers_step, I.
Qed.
End Invariant.

(** **** Dev-loop outcome *)

Lemma finalize_success (cdm : string -> string -> option Z) (dl : dev_loop_action)
    (success : bool) (result_content ts : string) :
  dl_success (finalize_dev_loop cdm dl success result_content ts) =
  Some (success && negb (build_failed result_content)
        && negb (test_failed result_content)).
Proof. reflexivity. Qed.

Lemma ltb_bool_decide (n : Z) : (0 <? n) = bool_decide (0 < n).
Proof.
  destruct (Z.ltb_spec 0 n);
    [rewrite bool_decide_eq_true_2 | rewrite bool_decide_eq_false_2]; auto; lia.
Qed.

Lemma build_failed_spec (result_content : string) :
  build_failed result_content =
  match error_match result_content with
  | Some n => bool_decide (0 < n)
  | None => any_in BUILD_FAILURE_PHRASES (lower result_content)
  end.
Proof.
  unfold build_failed. destruct (error_match result_content);
    [apply ltb_bool_decide | reflexivity].
Qed.

Lemma test_failed_spec (result_content : string) :
  test_failed result_content =
  match test_passed_match result_content with
  | Some (failed, _) => bool_decide (0 < failed)
  | None => any_in TEST_FAILURE_PHRASES (lower result_content)
  end.
Proof.
  unfold test_failed. destruct (test_passed_match result_content) as [[f ps]|];
    [apply ltb_bool_decide|].
  destruct (any_in TEST_FAILURE_PHRASES (lower result_content)); reflexivity.
Qed.

(** The patterns on the output of the .NET tools. *)
Example error_match_zero :
  error_match "Build succeeded.    3 Warning(s)    0 Error(s)" = Some 0
  /\ build_failed "Build succeeded.    3 Warning(s)    0 Error(s)" = false.
Proof. split; reflexivity. Qed.

Example error_match_two :
  error_match "Build FAILED.    0 Warning(s)    2 Error(s)" = Some 2
  /\ build_failed "Build FAILED.    0 Warning(s)    2 Error(s)" = true.
Proof. split; reflexivity. Qed.

Example error_count_beats_phrase :
  any_in BUILD_FAILURE_PHRASES (lower "warning: build failed before; 0 Error(s)") = true
  /\ build_failed "warning: build failed before; 0 Error(s)" = false.
Proof. split; reflexivity. Qed.

Example test_summary_counts :
  test_passed_match "Passed!  - Failed:     0, Passed:   112, Skipped: 0" = Some (0, 112).
Proof. reflexivity. Qed.

Lemma dev_loop_outcome_at (cdm : string -> string -> option Z) (p : parser)
    (tool_call_id : string) (success : bool) (result_content ts : string)
    (si : start_info) (loc : nat) (dl : dev_loop_action) :
  p_tool_start_map p !! tool_call_id = Some si ->
  si_dev_loop si = Some loc ->
  p_store p !! loc = Some dl ->
  handle_event cdm (ToolExecutionComplete tool_call_id success result_content) ts p
  = with_events (fun ev => with_dev_loop (e_dev_loop ev ++ [loc]) ev)
      (with_store
         (<[loc := finalize_dev_loop cdm dl success result_content ts]> (p_store p))
         (with_events (fun ev => with_tool_completes
            (e_tool_completes ev ++
               [ToolComplete tool_call_id (si_name si) success (si_timestamp si) ts])
            ev) p)).
Proof.
  intros Hm Hd Hs. unfold handle_event. rewrite Hm. cbn [mbind option_bind].
  rewrite Hd. cbn [with_events p_store]. rewrite Hs. reflexivity.
Qed.

(** C3, as the program has it. In every state that the parser reaches, a
    completion whose start seeded a dev-loop action finds that action,
    appends it to the dev loop and sets its outcome to the reported success
    flag, turned to failure by the build verdict or by the test verdict.
    The build verdict is the error count of "<N> Error(s)" being positive
    when the pattern occurs, and otherwise the presence of a failure
    phrase. The test verdict is the failure count of the pass/fail summary
    being positive when the summary occurs, and otherwise the presence of
    a test-failure phrase. The summary is read and its counts recorded for
    every dev-loop action, build or test: the kind of the action plays no
    part. *)
Theorem dev_loop_outcome (cdm : string -> string -> option Z)
    (evs : list (event * string)) (tool_call_id : string) (success : bool)
    (result_content ts : string) (si : start_info) (loc : nat) :
  let p := run_events cdm evs in
  let p' :=
    handle_event cdm (ToolExecutionComplete tool_call_id success result_content) ts p in
  p_tool_start_map p !! tool_call_id = Some si ->
  si_dev_loop si = Some loc ->
  exists dl dl',
    p_store p !! loc = Some dl
    /\ p_store p' !! loc = Some dl'
    /\ e_dev_loop (p_events p') = e_dev_loop (p_events p) ++ [loc]
    /\ dl_kind dl' = dl_kind dl
    /\ dl_success dl' =
       Some (success
             && negb (match error_match result_content with
                      | Some n => bool_decide (0 < n)
                      | None => any_in BUILD_FAILURE_PHRASES (lower result_content)
                      end)
             && negb (match test_passed_match result_content with
                      | Some (failed, _) => bool_decide (0 < failed)
                      | None => any_in TEST_FAILURE_PHRASES (lower result_content)
                      end))
    /\ (dl_test_failed dl', dl_test_passed dl') =
       match test_passed_match result_content with
       | Some (failed, passed) => (Some failed, Some passed)
       | None => (dl_test_failed dl, dl_test_passed dl)
       end.
Proof.
  intros p p' Hm Hd.
  destruct (store_covers_run cdm evs _ _ _ Hm Hd) as [dl Hs]. fold p in Hs.
  exists dl, (finalize_dev_loop cdm dl success result_content ts).
  split; [exact Hs|]. subst p'.
  rewrite (dev_loop_outcome_at cdm p _ _ _ _ si loc dl Hm Hd Hs). split.
  { cbn [with_events with_store p_store]. apply list_lookup_insert_eq.
    eapply lookup_lt_Some, Hs. }
  split; [reflexivity|]. split; [reflexivity|]. split.
  - rewrite finalize_success, build_failed_spec, test_failed_spec. reflexivity.
  - unfold finalize_dev_loop. cbn [dl_test_failed dl_test_passed].
    destruct (test_passed_match result_content) as [[f ps]|]; reflexivity.
Qed.

Lemma dev_loop_outcome_witness :
  exists dl',
    p_store (handle_event no_clock
               (ToolExecutionComplete "call-1" true
                  "Build succeeded. 0 Warning(s) 0 Error(s)") "t2" build_started)
      !! 0%nat = Some dl'
    /\ dl_kind dl' = Build /\ dl_success dl' = Some true.
Proof.
  destruct (dev_loop_outcome no_clock
              [(ToolExecutionStart "bash" "call-1" "dotnet build" "", "t1")]
              "call-1" true "Build succeeded. 0 Warning(s) 0 Error(s)" "t2"
              (StartInfo "bash" "t1" "dotnet build" "" (Some 0%nat)) 0%nat
              eq_refl eq_refl) as (dl & dl' & Hs & Hs' & _ & Hk & Ho & _).
  exists dl'. split; [exact Hs'|]. split.
  - rewrite Hk. vm_compute in Hs. injection Hs as <-. reflexivity.
  - rewrite Ho. vm_compute. reflexivity.
Defined.

(** C3 as stated fails for a build action. The command [dotnet build] is
    classified as a build; its result holds no failure phrase and no error
    count, but a pass/fail summary with one failure. Were the summary read
    for test actions only, the outcome would be the reported success; the
    program reads it, records the counts and sets the outcome to failure. *)
Lemma build_outcome_reads_test_summary :
  dev_loop_of (run_events no_clock
    [ (ToolExecutionStart "bash" "call-1" "dotnet build" "", "t1");
      (ToolExecutionComplete "call-1" true "Passed! - Failed: 1, Passed: 2", "t2") ])
  = [ DevLoop Build "dotnet build" "" "t1" (Some "t2") (Some None) (Some false)
        (Some "Passed! - Failed: 1, Passed: 2") (Some 1) (Some 2) ]
  /\ outcome_tests_only Build true "Passed! - Failed: 1, Passed: 2" = true.
Proof. split; vm_compute; reflexivity. Qed.

(** A second completion for the same call updates the one dict that both
    entries of the dev loop refer to. *)
Example completed_twice :
  map dl_endTime (dev_loop_of (run_events no_clock
    [ (ToolExecutionStart "bash" "call-1" "npm test" "", "t1");
      (ToolExecutionComplete "call-1" true "ok", "t2");
      (ToolExecutionComplete "call-1" false "ok", "t3") ]))
  = [Some "t3"; Some "t3"].
Proof. vm_compute. reflexivity. Qed.

(** **** Compactions *)

Lemma complete_compaction_open (ts : string) (preTokens : option Z) (success : bool)
    (front : list compaction) (l : compaction) :
  cp_endTime l = None ->
  complete_compaction ts preTokens success (front ++ [l]) =
  front ++ [attach ts preTokens success l].
Proof.
  intros H. unfold complete_compaction. rewrite last_snoc, H.
  rewrite length_app. simpl.
  replace (pred (length front + 1)) with (length front + 0)%nat by lia.
  rewrite insert_app_r. reflexivity.
Qed.

Lemma complete_compaction_closed (ts : string) (preTokens : option Z) (success : bool)
    (front : list compaction) (l : compaction) :
  cp_endTime l <> None ->
  complete_compaction ts preTokens success (front ++ [l]) = front ++ [l].
Proof.
  intros H. unfold complete_compaction. rewrite last_snoc.
  destruct (cp_endTime l); [reflexivity | congruence].
Qed.

(** C4, as the program has it. A compaction-complete event changes nothing
    but the list of compactions. When the most recently opened entry, the
    last of the list, is unterminated, the event sets the end time, the
    pre-compaction token count and the success flag of that entry and
    leaves every other entry as it was. When the last entry is terminated
    or the list is empty, the event has no effect, whether or not an
    earlier entry is still unterminated. *)
Theorem compaction_complete_last_only (cdm : string -> string -> option Z)
    (p : parser) (preTokens : option Z) (success : bool) (ts : string) :
  let cs := e_compactions (p_events p) in
  let p' := handle_event cdm (CompactionComplete preTokens success) ts p in
  let cs' := e_compactions (p_events p') in
  p' = with_events (with_compactions cs') p
  /\ (forall front l, cs = front ++ [l] -> cp_endTime l = None ->
        cs' = front ++ [attach ts preTokens success l])
  /\ (forall front l, cs = front ++ [l] -> cp_endTime l <> None -> cs' = cs)
  /\ (cs = [] -> cs' = []).
Proof.
  intros cs p' cs'. subst cs cs' p'. simpl. split; [reflexivity|]. split; [|split].
  - intros front l -> H. apply complete_compaction_open, H.
  - intros front l E H. rewrite E. apply complete_compaction_closed, H.
  - intros ->. reflexivity.
Qed.

Lemma compaction_complete_last_only_witness :
  e_compactions (p_events (run_events no_clock
    [(CompactionStart, "t1"); (CompactionComplete (Some 10) true, "t2")]))
  = [Compaction "t1" (Some "t2") (Some 10) (Some true)].
Proof.
  destruct (compaction_complete_last_only no_clock
              (run_events no_clock [(CompactionStart, "t1")]) (Some 10) true "t2")
    as (_ & H & _).
  exact (H [] (Compaction "t1" None None None) eq_refl eq_refl).
Defined.

(** C4 as stated fails when a compaction starts while another is open.
    After two starts and one completion the first entry is the only one
    still unterminated, hence the most recently opened unterminated entry;
    a second completion does not reach it. *)
Lemma compaction_complete_leaves_earlier_open :
  let cs := e_compactions (p_events (run_events no_clock
              [ (CompactionStart, "t1"); (CompactionStart, "t2");
                (CompactionComplete (Some 10) true, "t3") ])) in
  cs = [ Compaction "t1" None None None;
         Compaction "t2" (Some "t3") (Some 10) (Some true) ]
  /\ e_compactions (p_events (run_events no_clock
       [ (CompactionStart, "t1"); (CompactionStart, "t2");
         (CompactionComplete (Some 10) true, "t3");
         (CompactionComplete (Some 20) true, "t4") ])) = cs
  /\ complete_latest_open "t4" (Some 20) true cs
     = [ Compaction "t1" (Some "t4") (Some 20) (Some true);
         Compaction "t2" (Some "t3") (Some 10) (Some true) ]
  /\ complete_compaction "t4" (Some 20) true cs
     <> complete_latest_open "t4" (Some 20) true cs.
Proof. vm_compute. repeat split; try reflexivity. discriminate. Qed.

(** *** Telemetry blocks, line by line *)

Lemma split_lines_nonempty (content : string) : split_lines content <> [].
Proof.
  destruct content as [|c rest]; simpl; [discriminate|].
  destruct (split_lines rest); [discriminate|]. destruct (Ascii.eqb c "010"); discriminate.
Qed.

Lemma join_cons (sep l : string) (l' : string) (ls : list string) :
  join sep (l :: l' :: ls) = String.append l (String.append sep (join sep (l' :: ls))).
Proof. reflexivity. Qed.

Lemma split_lines_join (content : string) :
  join (String "010" "") (split_lines content) = content
  /\ Forall (fun line => count_char "010" line = 0) (split_lines content)
  /\ len (split_lines content) = count_char "010" content + 1.
Proof.
  induction content as [|c rest (IH1 & IH2 & IH3)].
  - repeat split. repeat constructor.
  - cbn [split_lines count_char].
    pose proof (split_lines_nonempty rest) as N.
    destruct (split_lines rest) as [|l ls]; [congruence|].
    destruct (Ascii.eqb_spec c "010") as [->|Nc].
    + split; [|split].
      * rewrite join_cons, IH1. reflexivity.
      * constructor; [reflexivity | exact IH2].
      * rewrite Ascii.eqb_refl. unfold len in *. cbn [length] in *. lia.
    + split; [|split].
      * destruct ls as [|l' ls]; [simpl in *; congruence|].
        rewrite <- IH1. reflexivity.
      * inversion IH2; subst. constructor; [|assumption].
        cbn [count_char]. destruct (Ascii.eqb_spec "010" c); [congruence | lia].
      * destruct (Ascii.eqb_spec "010" c); [congruence|].
        unfold len in *. cbn [length] in *. lia.
Qed.

Lemma split_lines_line (l : string) (rest : string) :
  count_char "010" l = 0 ->
  split_lines (String.append l (String "010" rest)) = l :: split_lines rest.
Proof.
  induction l as [|c l IH]; intros H.
  - change (split_lines (String.append "" (String "010" rest)))
      with (match split_lines rest with
            | l :: ls => "" :: l :: ls
            | [] => [String "010" ""]
            end).
    pose proof (split_lines_nonempty rest). destruct (split_lines rest); [congruence|].
    reflexivity.
  - cbn [count_char] in H.
    assert (Hc : Ascii.eqb "010" c = false /\ count_char "010" l = 0).
    { assert (0 <= count_char "010" l).
      { clear. induction l as [|c' l IH]; cbn [count_char]; [lia|].
        destruct (Ascii.eqb "010" c'); lia. }
      destruct (Ascii.eqb "010" c); split; try reflexivity; lia. }
    destruct Hc as [Hc Hl].
    change (split_lines (String.append (String c l) (String "010" rest)))
      with (match split_lines (String.append l (String "010" rest)) with
            | l0 :: ls => if Ascii.eqb c "010" then "" :: l0 :: ls else String c l0 :: ls
            | [] => [String c ""]
            end).
    rewrite (IH Hl).
    rewrite Ascii.eqb_sym, Hc. reflexivity.
Qed.

Lemma split_lines_single (l : string) :
  count_char "010" l = 0 -> split_lines l = [l].
Proof.
  induction l as [|c l IH]; intros H; [reflexivity|].
  cbn [count_char] in H.
  assert (0 <= count_char "010" l).
  { clear. induction l as [|c' l IH]; cbn [count_char]; [lia|].
    destruct (Ascii.eqb "010" c'); lia. }
  cbn [split_lines]. rewrite IH by (destruct (Ascii.eqb "010" c); lia).
  rewrite Ascii.eqb_sym. destruct (Ascii.eqb "010" c); [lia | reflexivity].
Qed.

Lemma join_split_lines (l : string) (ls : list string) :
  Forall (fun line => count_char "010" line = 0) (l :: ls) ->
  split_lines (join (String "010" "") (l :: ls)) = l :: ls.
Proof.
  revert l. induction ls as [|l' ls IH]; intros l F; inversion F; subst.
  - apply split_lines_single. assumption.
  - change (join (String "010" "") (l :: l' :: ls))
      with (String.append l (String "010" (join (String "010" "") (l' :: ls)))).
    rewrite split_lines_line by assumption. rewrite IH by assumption. reflexivity.
Qed.

(** X1. Splitting the log at newlines loses nothing. Joining the lines
    with newlines gives the content back; no line holds a newline; there
    is one line more than there are newlines, so the empty log is one empty
    line. And a non-empty list of lines without newlines is what the split
    of their join gives. *)
Theorem split_lines_round_trip :
  (forall content,
     join (String "010" "") (split_lines content) = content
     /\ Forall (fun line => count_char "010" line = 0) (split_lines content)
     /\ len (split_lines content) = count_char "010" content + 1)
  /\ (forall l ls,
        Forall (fun line => count_char "010" line = 0) (l :: ls) ->
        split_lines (join (String "010" "") (l :: ls)) = l :: ls).
Proof. split; [apply split_lines_join | apply join_split_lines]. Qed.

(** **** The inner loop *)

Lemma collect_block_started (ls json_lines : list string) (brace_count : Z) :
  collect_block ls json_lines brace_count true =
  match block_length ls brace_count with
  | Some n => (json_lines ++ map strip_timestamp (take n ls), drop (pred n) ls)
  | None => (json_lines ++ map strip_timestamp ls, [])
  end.
Proof.
  revert json_lines brace_count.
  induction ls as [|line rest IH]; intros json_lines brace_count.
  - simpl. rewrite app_nil_r. reflexivity.
  - cbn [collect_block block_length negb andb].
    fold (strip_timestamp line). fold (brace_delta (strip_timestamp line)).
    destruct (Z.leb_spec (brace_count + brace_delta (strip_timestamp line)) 0) as [L|L].
    + reflexivity.
    + cbn [andb]. rewrite IH.
      destruct (block_length rest (brace_count + brace_delta (strip_timestamp line)))
        as [n|] eqn:E; cbn [fmap option_fmap option_map].
      * assert (n <> O) as Nn.
        { destruct rest; simpl in E; [discriminate|].
          destruct (_ <=? 0); [congruence|].
          destruct (block_length _ _); simpl in E; congruence. }
        destruct n as [|n]; [congruence|].
        cbn [take map pred drop]. rewrite <- app_assoc. reflexivity.
      * cbn [map]. rewrite <- app_assoc. reflexivity.
Qed.

Lemma collect_block_seeking (ls json_lines : list string) (brace_count : Z) :
  collect_block ls json_lines brace_count false =
  match seek_block ls with
  | [] => (json_lines, [])
  | ls0 => collect_block ls0 json_lines brace_count true
  end.
Proof.
  induction ls as [|line rest IH]; [reflexivity|].
  cbn [seek_block]. destruct (is_block_start (strip_timestamp line)) eqn:E.
  - cbn [collect_block negb andb]. fold (strip_timestamp line). rewrite E. reflexivity.
  - rewrite <- IH. apply collect_block_keeps_seeking. exact E.
Qed.

Lemma seek_block_start (ls : list string) :
  match seek_block ls with
  | [] => Forall (fun l => is_block_start (strip_timestamp l) = false) ls
  | l0 :: _ => is_block_start (strip_timestamp l0) = true
  end.
Proof.
  induction ls as [|line rest IH]; [constructor|].
  cbn [seek_block]. destruct (is_block_start (strip_timestamp line)) eqn:E; [exact E|].
  destruct (seek_block rest); [constructor; assumption | exact IH].
Qed.

Lemma collect_block_extent (ls : list string) :
  collect_block ls [] 0 false =
  match block_length (seek_block ls) 0 with
  | Some n =>
      (map strip_timestamp (take n (seek_block ls)), drop (pred n) (seek_block ls))
  | None => (map strip_timestamp (seek_block ls), [])
  end.
Proof.
  rewrite collect_block_seeking.
  destruct (seek_block ls) as [|l0 ls0'] eqn:E; [reflexivity|].
  rewrite collect_block_started. reflexivity.
Qed.

Lemma In_drop {A} (k : nat) (l : list A) (x : A) : In x (drop k l) -> In x l.
Proof.
  revert l. induction k as [|k IH]; intros [|a l] H; simpl in *; auto.
Qed.

Lemma In_take {A} (k : nat) (l : list A) (x : A) : In x (take k l) -> In x l.
Proof.
  revert l. induction k as [|k IH]; intros [|a l] H; simpl in *; intuition.
Qed.

Lemma seek_block_drop (ls : list string) : exists j, seek_block ls = drop j ls.
Proof.
  induction ls as [|line rest [j IH]]; [exists O; reflexivity|].
  cbn [seek_block]. destruct (is_block_start (strip_timestamp line)).
  - exists O. reflexivity.
  - exists (S j). exact IH.
Qed.

(** X2. The block that the inner loop collects for a marker. It starts
    at the first following line that opens a block, whatever lines stand
    before it, and takes every line from there up to and including the
    first one at which the count of opening braces less closing braces,
    taken over the lines of the block so far, is 0 or less; when no line
    brings the count down, it takes all the remaining lines. With it comes
    the rest of the log from the closing line on. *)
Theorem block_of_marker (ls : list string) :
  let ls0 := seek_block ls in
  collect_block ls [] 0 false =
  match block_length ls0 0 with
  | Some n => (map strip_timestamp (take n ls0), drop (pred n) ls0)
  | None => (map strip_timestamp ls0, [])
  end
  /\ (exists skipped_lines,
        ls = skipped_lines ++ ls0
        /\ Forall (fun l => is_block_start (strip_timestamp l) = false)
             skipped_lines)
  /\ match ls0 with
     | [] => True
     | l0 :: _ => is_block_start (strip_timestamp l0) = true
     end.
Proof.
  intros ls0. subst ls0. split; [apply collect_block_extent|]. split.
  - induction ls as [|line rest (sk & E & F)]; [exists []; split; [reflexivity | constructor]|].
    cbn [seek_block]. destruct (is_block_start (strip_timestamp line)) eqn:S.
    + exists []. split; [reflexivity | constructor].
    + exists (line :: sk). split; [cbn [app]; f_equal; exact E|].
      constructor; assumption.
  - pose proof (seek_block_start ls) as H. destruct (seek_block ls); [exact I | exact H].
Qed.

Lemma count_markers_drop (k : nat) (ls : list string) :
  (length (List.filter is_marker_line (drop k ls))
   <= length (List.filter is_marker_line ls))%nat.
Proof.
  revert ls. induction k as [|k IH]; intros [|l ls]; simpl; try lia.
  specialize (IH ls). destruct (is_marker_line l); simpl; lia.
Qed.

Lemma collect_block_result (ls : list string) :
  let r := collect_block ls [] 0 false in
  (fst r = [] \/ well_formed_block ls (fst r)) /\ exists k, snd r = drop k ls.
Proof.
  intros r. subst r. rewrite collect_block_extent.
  destruct (seek_block_drop ls) as [j Ej].
  pose proof (seek_block_start ls) as Hs.
  assert (Sub : forall x, In x (seek_block ls) -> In x ls)
    by (intros x; rewrite Ej; apply In_drop).
  assert (F : forall l', (forall x, In x l' -> In x (seek_block ls)) ->
            Forall (fun l => exists l0, In l0 ls /\ l = strip_timestamp l0)
              (map strip_timestamp l')).
  { intros l' H. induction l' as [|a l' IH]; [constructor|].
    constructor; [exists a; split; [apply Sub, H; left|]; reflexivity|].
    apply IH. intros x I. apply H. right. exact I. }
  destruct (block_length (seek_block ls) 0) as [n|] eqn:E; cbn [fst snd].
  - split.
    + destruct (seek_block ls) as [|l0 ls0] eqn:E0; [discriminate|].
      destruct n as [|n].
      { simpl in E. destruct (_ <=? 0); [congruence|].
        destruct (block_length ls0 _); simpl in E; congruence. }
      right. split; [exists (strip_timestamp l0); eexists; split; [reflexivity | exact Hs]|].
      apply F. intros x. apply In_take.
    + rewrite Ej, drop_drop. eexists. reflexivity.
  - split; [|exists (length ls); rewrite drop_all; reflexivity].
    destruct (seek_block ls) as [|l0 ls0] eqn:E0; [left; reflexivity|].
    right. split; [exists (strip_timestamp l0); eexists; split; [reflexivity | exact Hs]|].
    apply F. auto.
Qed.

Lemma scan_candidates_sound (lines : list string) (fuel : nat) (ls : list string)
    (found : list (list string)) :
  (forall x, In x ls -> In x lines) ->
  Forall (well_formed_block lines) found ->
  Forall (well_formed_block lines) (scan_candidates fuel ls found).
Proof.
  revert ls found. induction fuel as [|fuel IH]; intros ls found Sub F; [exact F|].
  destruct ls as [|line rest]; [exact F|]. cbn [scan_candidates].
  assert (SubR : forall x, In x rest -> In x lines) by (intros x I; apply Sub; right; exact I).
  destruct (contains TELEMETRY_MARKER line); [|apply IH; assumption].
  pose proof (collect_block_result rest) as [W [k Ek]].
  destruct (collect_block rest [] 0 false) as [json_lines ls']. cbn [fst snd] in *.
  apply IH.
  - intros x I. apply SubR. subst ls'.
    apply In_drop with k. destruct (drop k rest); [destruct I | right; exact I].
  - destruct json_lines as [|j0 js]; [exact F|].
    apply Forall_app. split; [exact F|]. constructor; [|constructor].
    destruct W as [W|[W1 W2]]; [discriminate|]. split; [exact W1|].
    eapply Forall_impl; [exact W2|]. intros l (l0 & I & ->). exists l0. auto.
Qed.

Lemma scan_candidates_count (fuel : nat) (ls : list string)
    (found : list (list string)) :
  (length (scan_candidates fuel ls found)
   <= length found + length (List.filter is_marker_line ls))%nat.
Proof.
  revert ls found. induction fuel as [|fuel IH]; intros ls found; [simpl; lia|].
  destruct ls as [|line rest]; [simpl; lia|]. cbn [scan_candidates List.filter].
  unfold is_marker_line at 1. destruct (contains TELEMETRY_MARKER line).
  - pose proof (collect_block_result rest) as [_ [k Ek]].
    destruct (collect_block rest [] 0 false) as [json_lines ls']. cbn [snd] in Ek.
    etransitivity; [apply IH|]. subst ls'.
    assert (length (List.filter is_marker_line (tail (drop k rest)))
            <= length (List.filter is_marker_line rest))%nat.
    { replace (tail (drop k rest)) with (drop 1 (drop k rest)) by (destruct (drop k rest); reflexivity).
      rewrite drop_drop. apply count_markers_drop. }
    destruct json_lines; [|rewrite length_app]; cbn [length]; lia.
  - apply IH.
Qed.

(** X3. Every block that the scan hands to [json.loads] is not empty,
    opens with a brace (after blanks), and consists of lines of the log
    without their time stamps; and there are at most as many blocks as
    there are lines with the marker. *)
Theorem candidate_blocks_well_formed (lines : list string) :
  Forall (well_formed_block lines) (candidate_blocks lines)
  /\ (length (candidate_blocks lines)
      <= length (List.filter is_marker_line lines))%nat.
Proof.
  split.
  - apply scan_candidates_sound; [auto | constructor].
  - apply (scan_candidates_count (length lines) lines []).
Qed.

Lemma flat_map_length_le {A B} (f : A -> list B) (l : list A) :
  (forall x, length (f x) <= 1)%nat -> (length (flat_map f l) <= length l)%nat.
Proof.
  intros H. induction l as [|a l IH]; simpl; [lia|].
  rewrite length_app. specialize (H a). lia.
Qed.

Lemma flat_map_sublist {A B} (f g : A -> list B) (l : list A) :
  (forall x, f x = g x \/ f x = []) -> sublist (flat_map f l) (flat_map g l).
Proof.
  intros H. induction l as [|a l IH]; simpl; [constructor|].
  destruct (H a) as [-> | ->].
  - apply sublist_app; [reflexivity | exact IH].
  - simpl. apply sublist_inserts_l. exact IH.
Qed.

Section ProcessLogFacts.
Variable json_loads : string -> option telemetry_block.

Lemma parse_process_log_unfiltered (content : string) :
  length (parse_process_log json_loads (Some content) "")
  = length (usage_blocks json_loads (split_lines content)).
Proof.
  unfold parse_process_log. simpl.
  induction (usage_blocks json_loads (split_lines content)); simpl; congruence.
Qed.

(** X4. The calls of a log. There is at most one call per line with the
    marker. A session id only leaves calls out: the calls for a session
    are a sublist of the calls for the empty id, which are one per usage
    block of the log. Without a log there is no call. *)
Theorem parse_process_log_calls (content session_id : string) :
  (length (parse_process_log json_loads (Some content) session_id)
   <= length (List.filter is_marker_line (split_lines content)))%nat
  /\ sublist (parse_process_log json_loads (Some content) session_id)
       (parse_process_log json_loads (Some content) "")
  /\ length (parse_process_log json_loads (Some content) "")
     = length (usage_blocks json_loads (split_lines content))
  /\ parse_process_log json_loads None session_id = [].
Proof.
  split; [|split; [|split]].
  - unfold parse_process_log.
    etransitivity; [apply flat_map_length_le; intros b; destruct (_ && _); simpl; lia|].
    unfold usage_blocks.
    etransitivity; [apply flat_map_length_le; intros b; repeat case_match; simpl; lia|].
    apply (scan_candidates_count (length (split_lines content))
             (split_lines content) []).
  - unfold parse_process_log. apply flat_map_sublist. intros b.
    destruct (negb (String.eqb session_id "") && _); [right | left]; reflexivity.
  - apply parse_process_log_unfiltered.
  - reflexivity.
Qed.
End ProcessLogFacts.

(** **** Time stamps of log lines *)

Lemma str_suffix_refl (s : string) : str_suffix s s.
Proof. exists "". reflexivity. Qed.

Lemma append_assoc (a b c : string) :
  String.append (String.append a b) c = String.append a (String.append b c).
Proof.
  induction a as [|x a IH]; [reflexivity|].
  change (String x (String.append (String.append a b) c)
          = String x (String.append a (String.append b c))).
  rewrite IH. reflexivity.
Qed.

Lemma str_suffix_trans (a b c : string) :
  str_suffix a b -> str_suffix b c -> str_suffix a c.
Proof.
  intros [p ->] [q ->]. exists (String.append q p). symmetry. apply append_assoc.
Qed.

Lemma str_suffix_tail (c : ascii) (s : string) : str_suffix s (String c s).
Proof. exists (String c ""). reflexivity. Qed.

Lemma drop_prefix_suffix (p s s' : string) :
  drop_prefix p s = Some s' -> str_suffix s' s.
Proof.
  revert s. induction p as [|a p IH]; intros s H.
  - simpl in H. injection H as ->. apply str_suffix_refl.
  - destruct s as [|b s]; simpl in H; [discriminate|].
    destruct (Ascii.eqb a b); [|discriminate].
    eapply str_suffix_trans; [apply IH, H | apply str_suffix_tail].
Qed.

Section MatcherFacts.
Context {R : Type}.

Lemma re_at_suffix (r : regex) : hands_on_suffix R r.
Proof.
  induction r as [l|p|r1 IH1 r2 IH2|r1 IH1|r1 IH1]; intros s caps k res H.
  - cbn [re_at] in H. destruct (drop_prefix l s) as [s'|] eqn:E; [|discriminate].
    exists s', caps. split; [eapply drop_prefix_suffix, E | exact H].
  - cbn [re_at] in H. destruct s as [|c s']; [discriminate|].
    destruct (p c); [|discriminate].
    exists s', caps. split; [apply str_suffix_tail | exact H].
  - cbn [re_at] in H. apply IH1 in H. destruct H as (s1 & c1 & S1 & H).
    apply IH2 in H. destruct H as (s2 & c2 & S2 & H).
    exists s2, c2. split; [eapply str_suffix_trans; eassumption | exact H].
  - cbn [re_at] in H. revert H. generalize (String.length s) at 1. intros fuel.
    revert s caps. induction fuel as [|fuel IHf]; intros s caps H.
    + exists s, caps. split; [apply str_suffix_refl | exact H].
    + match type of H with
      | match ?m with _ => _ end = _ => destruct m as [x|] eqn:E
      end.
      * injection H as ->. apply IH1 in E. destruct E as (s1 & c1 & S1 & E).
        destruct (_ <? _)%nat; [|discriminate].
        apply IHf in E. destruct E as (s2 & c2 & S2 & E).
        exists s2, c2. split; [eapply str_suffix_trans; eassumption | exact E].
      * exists s, caps. split; [apply str_suffix_refl | exact H].
  - cbn [re_at] in H. apply IH1 in H. destruct H as (s1 & c1 & S1 & H).
    eexists s1, _. split; [exact S1 | exact H].
Qed.
End MatcherFacts.

Lemma re_match_suffix (r : regex) (s rest : string) (caps : list string) :
  re_match r s = Some (caps, rest) -> str_suffix rest s.
Proof.
  unfold re_match. intros H. apply re_at_suffix in H.
  destruct H as (s' & c' & S & [= <- <-]). exact S.
Qed.

(** X5. Stripping the time stamp only ever removes first characters of a
    line. A line that does not start with a digit is left as it is; a line
    that is changed starts with four digits and a hyphen. So the text of a
    JSON object is never touched. *)
Theorem strip_timestamp_suffix (line : string) :
  str_suffix (strip_timestamp line) line
  /\ (match line with
      | "" => True
      | String c _ => is_digit c = false
      end -> strip_timestamp line = line)
  /\ (strip_timestamp line <> line ->
      exists y1 y2 y3 y4 rest,
        line = String y1 (String y2 (String y3 (String y4 (String "-" rest))))
        /\ is_digit y1 = true /\ is_digit y2 = true /\ is_digit y3 = true
        /\ is_digit y4 = true).
Proof.
  unfold strip_timestamp, re_sub_anchored_empty. split; [|split].
  - destruct (re_match TIMESTAMP_PREFIX line) as [[caps rest]|] eqn:E;
      [eapply re_match_suffix, E | apply str_suffix_refl].
  - intros H. destruct line as [|c line]; [reflexivity|].
    unfold re_match, TIMESTAMP_PREFIX. cbn [Rep re_at digit]. rewrite H. reflexivity.
  - intros H.
    destruct (re_match TIMESTAMP_PREFIX line) as [[caps rest]|] eqn:E; [|congruence].
    clear H. unfold re_match, TIMESTAMP_PREFIX in E.
    cbn [Rep re_at digit] in E.
    destruct line as [|y1 line]; [discriminate|].
    destruct (is_digit y1) eqn:D1; [|discriminate].
    destruct line as [|y2 line]; [discriminate|].
    destruct (is_digit y2) eqn:D2; [|discriminate].
    destruct line as [|y3 line]; [discriminate|].
    destruct (is_digit y3) eqn:D3; [|discriminate].
    destruct line as [|y4 line]; [discriminate|].
    destruct (is_digit y4) eqn:D4; [|discriminate].
    cbn [drop_prefix] in E.
    destruct line as [|y5 line]; [discriminate|].
    destruct (Ascii.eqb_spec "-" y5) as [<-|N]; [|discriminate].
    exists y1, y2, y3, y4, line. repeat split; assumption.
Qed.

(** *** The event stream, event by event *)

(** **** Sub-agents *)

Lemma complete_subagent_none (tcid ts : string) (sas : list subagent) :
  Forall (fun sa => open_for tcid sa = false) sas ->
  complete_subagent tcid ts sas = sas.
Proof.
  induction 1 as [|sa sas H F IH]; [reflexivity|].
  cbn [complete_subagent]. unfold open_for in H. rewrite H, IH. reflexivity.
Qed.

Lemma complete_subagent_first (tcid ts : string) (pre post : list subagent)
    (sa : subagent) :
  Forall (fun x => open_for tcid x = false) pre -> open_for tcid sa = true ->
  complete_subagent tcid ts (pre ++ sa :: post) = pre ++ close_subagent ts sa :: post.
Proof.
  intros F O. induction F as [|x pre H F IH]; cbn [complete_subagent app].
  - unfold open_for in O. rewrite O. reflexivity.
  - unfold open_for in H. rewrite H, IH. reflexivity.
Qed.

Lemma complete_subagent_length (tcid ts : string) (sas : list subagent) :
  length (complete_subagent tcid ts sas) = length sas.
Proof.
  induction sas as [|sa sas IH]; [reflexivity|]. cbn [complete_subagent].
  destruct (_ && _); cbn [length]; congruence.
Qed.

(** X12. A sub-agent completion changes nothing but the list of
    sub-agents. It sets the end time of the first entry that has its call
    id and no end time yet, and leaves every other entry as it was, later
    open entries with the same id included; when no entry has the id and
    no end time, the list stays as it is. *)
Theorem subagent_completed_first_open (cdm : string -> string -> option Z)
    (tcid ts : string) (p : parser) :
  let sas := e_subagents (p_events p) in
  let p' := handle_event cdm (SubagentCompleted tcid) ts p in
  let sas' := e_subagents (p_events p') in
  p' = with_events (with_subagents sas') p
  /\ (forall pre sa post,
        sas = pre ++ sa :: post ->
        Forall (fun x => open_for tcid x = false) pre -> open_for tcid sa = true ->
        sas' = pre ++ close_subagent ts sa :: post)
  /\ (Forall (fun x => open_for tcid x = false) sas -> sas' = sas).
Proof.
  intros sas p' sas'. subst sas sas' p'. simpl. split; [reflexivity|]. split.
  - intros pre sa post -> F O. apply complete_subagent_first; assumption.
  - apply complete_subagent_none.
Qed.

Lemma subagent_completed_first_open_witness :
  e_subagents (p_events (run_events no_clock
    [ (SubagentStarted "a" "explore" "Explore", "t1");
      (SubagentStarted "a" "explore" "Explore", "t2");
      (SubagentCompleted "a", "t3") ]))
  = [ Subagent "a" "explore" "Explore" "t1" (Some "t3");
      Subagent "a" "explore" "Explore" "t2" None ].
Proof.
  destruct (subagent_completed_first_open no_clock "a" "t3"
              (run_events no_clock
                 [ (SubagentStarted "a" "explore" "Explore", "t1");
                   (SubagentStarted "a" "explore" "Explore", "t2") ]))
    as (_ & H & _).
  exact (H [] (Subagent "a" "explore" "Explore" "t1" None)
           [Subagent "a" "explore" "Explore" "t2" None] eq_refl
           (List.Forall_nil _) eq_refl).
Defined.

(** **** The report, field by field *)

Ltac summary_report :=
  unfold build_summary; rewrite cache_hit_rate_total; cbn [mbind option_bind];
  repeat match goal with
  | |- context [success_rate_pct ?fl ?n ?f] =>
      let r := fresh "rate" in let E := fresh "E" in
      destruct (success_rate_pct_total fl n f) as [r E]; rewrite E;
      cbn [mbind option_bind]
  end;
  match goal with
  | |- context [match ?calls with [] => Some 0 | _ :: _ => _ end] =>
      destruct calls; [|rewrite py_truediv_Some by apply len_cons_nonzero]
  end;
  cbn [mbind option_bind]; eexists; (split; [reflexivity|]).

Lemma build_summary_counts (fl : Q -> Q) (cdm : string -> string -> option Z)
    (ev : events) (dev_loop : list dev_loop_action) (llm_calls : list llm_call) :
  exists r, build_summary fl cdm ev dev_loop llm_calls = Some r
    /\ r_session r = e_session_info ev
    /\ r_session_endTime r =
       (let end_time := last (e_turns ev) ≫= t_endTime in
        match end_time, last (e_user_messages ev) with
        | None, Some m | Some "", Some m => Some (um_timestamp m)
        | _, _ => end_time
        end)
    /\ tc_total (r_tool_calls r) = len (e_tool_completes ev)
    /\ sm_total_tool_calls (r_summary r) = len (e_tool_completes ev)
    /\ sm_total_subagents (r_summary r) = len (e_subagents ev)
    /\ sm_total_compactions (r_summary r) = len (e_compactions ev)
    /\ sm_total_errors (r_summary r) = len (e_errors ev)
    /\ r_plan_changes r = e_plan_changes ev
    /\ r_task_completes r = e_task_completes ev
    /\ r_dev_loop r = dev_loop.
Proof.
  summary_report; repeat split; destruct (last (e_turns ev)); reflexivity.
Qed.

(** **** Counters *)

Lemma complete_compaction_length (ts : string) (preTokens : option Z) (success : bool)
    (cs : list compaction) :
  length (complete_compaction ts preTokens success cs) = length cs.
Proof.
  unfold complete_compaction. repeat case_match; try reflexivity.
  apply length_insert.
Qed.

Section Counters.
Variable cdm : string -> string -> option Z.

Ltac event_length :=
  unfold len, tally;
  match goal with |- context [handle_event _ ?e _ _] => destruct e end;
  handle_cases;
  rewrite ?length_app, ?complete_subagent_length, ?complete_compaction_length;
  cbn [length]; lia.

Lemma handle_event_tool_completes (e : event) (ts : string) (p : parser) :
  len (e_tool_completes (p_events (handle_event cdm e ts p)))
  = len (e_tool_completes (p_events p)) + tally is_tool_complete e.
Proof. event_length. Qed.

Lemma handle_event_tool_starts (e : event) (ts : string) (p : parser) :
  len (e_tool_starts (p_events (handle_event cdm e ts p)))
  = len (e_tool_starts (p_events p)) + tally is_tool_start e.
Proof. event_length. Qed.

Lemma handle_event_subagents (e : event) (ts : string) (p : parser) :
  len (e_subagents (p_events (handle_event cdm e ts p)))
  = len (e_subagents (p_events p)) + tally is_subagent_started e.
Proof. event_length. Qed.

Lemma handle_event_compactions (e : event) (ts : string) (p : parser) :
  len (e_compactions (p_events (handle_event cdm e ts p)))
  = len (e_compactions (p_events p)) + tally is_compaction_start e.
Proof. event_length. Qed.

Lemma handle_event_errors (e : event) (ts : string) (p : parser) :
  len (e_errors (p_events (handle_event cdm e ts p)))
  = len (e_errors (p_events p)) + tally is_session_error e.
Proof. event_length. Qed.

Lemma handle_event_plan_changes (e : event) (ts : string) (p : parser) :
  e_plan_changes (p_events (handle_event cdm e ts p))
  = e_plan_changes (p_events p) + tally is_plan_changed e.
Proof. event_length. Qed.

Lemma handle_event_task_completes (e : event) (ts : string) (p : parser) :
  e_task_completes (p_events (handle_event cdm e ts p))
  = e_task_completes (p_events p) + tally is_task_complete e.
Proof. event_length. Qed.

Lemma handle_event_lengths (e : event) (ts : string) (p : parser) :
  let ev := p_events p in
  let ev' := p_events (handle_event cdm e ts p) in
  len (e_tool_completes ev') = len (e_tool_completes ev) + tally is_tool_complete e
  /\ len (e_tool_starts ev') = len (e_tool_starts ev) + tally is_tool_start e
  /\ len (e_subagents ev') = len (e_subagents ev) + tally is_subagent_started e
  /\ len (e_compactions ev') = len (e_compactions ev) + tally is_compaction_start e
  /\ len (e_errors ev') = len (e_errors ev) + tally is_session_error e
  /\ e_plan_changes ev' = e_plan_changes ev + tally is_plan_changed e
  /\ e_task_completes ev' = e_task_completes ev + tally is_task_complete e.
Proof.
  cbn zeta.
  rewrite handle_event_tool_completes, handle_event_tool_starts,
    handle_event_subagents, handle_event_compactions, handle_event_errors,
    handle_event_plan_changes, handle_event_task_completes.
  repeat split.
Qed.

Lemma count_events_cons (f : event -> bool) (e : event) (ts : string)
    (evs : list (event * string)) :
  count_events f ((e, ts) :: evs) = tally f e + count_events f evs.
Proof.
  unfold count_events, tally, len. cbn [List.filter fst].
  destruct (f e); cbn [length]; lia.
Qed.

Lemma handle_events_lengths (evs : list (event * string)) (p : parser) :
  let ev := p_events p in
  let ev' := p_events (handle_events cdm evs p) in
  len (e_tool_completes ev') = len (e_tool_completes ev) + count_events is_tool_complete evs
  /\ len (e_tool_starts ev') = len (e_tool_starts ev) + count_events is_tool_start evs
  /\ len (e_subagents ev') = len (e_subagents ev) + count_events is_subagent_started evs
  /\ len (e_compactions ev') = len (e_compactions ev) + count_events is_compaction_start evs
  /\ len (e_errors ev') = len (e_errors ev) + count_events is_session_error evs
  /\ e_plan_changes ev' = e_plan_changes ev + count_events is_plan_changed evs
  /\ e_task_completes ev' = e_task_completes ev + count_events is_task_complete evs.
Proof.
  revert p. induction evs as [|[e ts] evs IH]; intros p.
  - unfold count_events, len. simpl. repeat split; lia.
  - cbn zeta in *. rewrite handle_events_cons, !count_events_cons.
    destruct (IH (handle_event cdm e ts p)) as (A1 & A2 & A3 & A4 & A5 & A6 & A7).
    destruct (handle_event_lengths e ts p) as (B1 & B2 & B3 & B4 & B5 & B6 & B7).
    cbn zeta in *. repeat split; lia.
Qed.
End Counters.

(** X13. The counters of the report count events of the stream: tool
    calls are the tool completions (not the starts), sub-agents the
    sub-agent starts, compactions the compaction starts, errors the session
    errors, and plan changes and task completions the events of these
    kinds. *)
Theorem report_counts_events (fl : Q -> Q) (cdm : string -> string -> option Z)
    (evs : list (event * string)) (llm_calls : list llm_call) :
  exists r, session_report fl cdm evs llm_calls = Some r
    /\ tc_total (r_tool_calls r) = count_events is_tool_complete evs
    /\ sm_total_tool_calls (r_summary r) = count_events is_tool_complete evs
    /\ sm_total_subagents (r_summary r) = count_events is_subagent_started evs
    /\ sm_total_compactions (r_summary r) = count_events is_compaction_start evs
    /\ sm_total_errors (r_summary r) = count_events is_session_error evs
    /\ r_plan_changes r = count_events is_plan_changed evs
    /\ r_task_completes r = count_events is_task_complete evs.
Proof.
  unfold session_report.
  destruct (build_summary_counts fl cdm (p_events (run_events cdm evs))
              (dev_loop_of (run_events cdm evs)) llm_calls)
    as (r & E & _ & _ & C1 & C2 & C3 & C4 & C5 & C6 & C7 & _).
  exists r. split; [exact E|].
  destruct (handle_events_lengths cdm evs initial_parser)
    as (A1 & A2 & A3 & A4 & A5 & A6 & A7).
  cbn zeta in *. unfold run_events in *. rewrite C1, C2, C3, C4, C5, C6, C7.
  rewrite A1, A3, A4, A5, A6, A7. unfold len. simpl. repeat split; lia.
Qed.

(** **** Session record *)

Section SessionFacts.
Variable cdm : string -> string -> option Z.

Lemma handle_event_session (e : event) (ts : string) (p : parser) :
  e_session_info (p_events (handle_event cdm e ts p)) =
  match session_of (e, ts) with
  | Some s => Some s
  | None => e_session_info (p_events p)
  end.
Proof. destruct e; unfold session_of; cbn [fst snd]; handle_cases. Qed.

Lemma handle_events_session (evs : list (event * string)) (p : parser) :
  e_session_info (p_events (handle_events cdm evs p)) =
  match last (omap session_of evs) with
  | Some s => Some s
  | None => e_session_info (p_events p)
  end.
Proof.
  revert p. induction evs as [|[e ts] evs IH]; intros p; [reflexivity|].
  rewrite handle_events_cons, IH, handle_event_session. cbn [omap list_omap].
  destruct (session_of (e, ts)) as [s|]; [|reflexivity].
  destruct (omap session_of evs) as [|s' l]; [reflexivity|].
  change (last (s :: s' :: l)) with (last (s' :: l)).
  destruct (proj2 (last_is_Some (s' :: l)) ltac:(discriminate)) as [x ->].
  reflexivity.
Qed.
End SessionFacts.

(** X7. The session of the report is the record of the last session start
    of the stream, with the time stamp of that event for a start time the
    event does not give; a stream without session start reports no session
    record. *)
Theorem session_is_last_start (fl : Q -> Q) (cdm : string -> string -> option Z)
    (evs : list (event * string)) (llm_calls : list llm_call) :
  exists r, session_report fl cdm evs llm_calls = Some r
    /\ r_session r = last (omap session_of evs).
Proof.
  unfold session_report.
  destruct (build_summary_counts fl cdm (p_events (run_events cdm evs))
              (dev_loop_of (run_events cdm evs)) llm_calls) as (r & E & S & _).
  exists r. split; [exact E|]. rewrite S. unfold run_events.
  rewrite handle_events_session. destruct (last (omap session_of evs)); reflexivity.
Qed.


(** **** Turn contents *)

Section TurnFacts.
Variable cdm : string -> string -> option Z.

Lemma handle_event_inside_turn (e : event) (ts : string) (p : parser) (t : turn) :
  inside_turn (e, ts) -> p_current_turn p = Some t ->
  e_turns (p_events (handle_event cdm e ts p)) = e_turns (p_events p)
  /\ p_current_turn (handle_event cdm e ts p) =
     Some (Turn (t_turnId t) (t_startTime t) (t_endTime t)
             (t_tool_calls t ++ tool_requests_of [(e, ts)])
             (t_message_count t + tally is_assistant_message e)).
Proof.
  intros [N1 N2] Ht. destruct p as [ev ct m st]. simpl in Ht. subst ct.
  destruct t as [a b c d n]. unfold tally, tool_requests_of. cbn [flat_map fst].
  destruct e; simpl in N1, N2; try discriminate; try congruence;
    unfold handle_event; cbn; repeat case_match;
    rewrite ?app_nil_r, ?Z.add_0_r; split; reflexivity.
Qed.

Lemma handle_events_inside_turn (mid : list (event * string)) (p : parser)
    (t : turn) :
  Forall inside_turn mid -> p_current_turn p = Some t ->
  e_turns (p_events (handle_events cdm mid p)) = e_turns (p_events p)
  /\ p_current_turn (handle_events cdm mid p) =
     Some (Turn (t_turnId t) (t_startTime t) (t_endTime t)
             (t_tool_calls t ++ tool_requests_of mid)
             (t_message_count t + count_events is_assistant_message mid)).
Proof.
  intros F. revert p t. induction F as [|[e ts] mid N F IH]; intros p t Ht.
  - cbn. split; [reflexivity|]. rewrite Ht, app_nil_r.
    unfold count_events, len. simpl. rewrite Z.add_0_r. destruct t; reflexivity.
  - rewrite handle_events_cons.
    destruct (handle_event_inside_turn e ts p t N Ht) as [S1 S2].
    destruct (IH _ _ S2) as [I1 I2].
    split; [congruence|]. rewrite I2. cbn [t_turnId t_startTime t_endTime
      t_tool_calls t_message_count]. rewrite count_events_cons.
    replace (tool_requests_of ((e, ts) :: mid))
      with (tool_requests_of [(e, ts)] ++ tool_requests_of mid)
      by (unfold tool_requests_of; cbn [flat_map]; rewrite app_nil_r; reflexivity).
    rewrite <- app_assoc, Z.add_assoc. reflexivity.
Qed.

(** X8. A turn that is opened, sees events that neither open nor close a
    turn, and is closed, is appended as one record: its id and start time
    from the opening event, its end time from the closing one, the number
    of assistant messages in between as its message count, and the tool
    names that these messages request, in order, as its tool calls. *)
Theorem turn_records_its_messages (turnId ts0 ts1 : string)
    (mid : list (event * string)) (p : parser) :
  Forall inside_turn mid ->
  e_turns (p_events
    (handle_events cdm ((TurnStart turnId, ts0) :: mid ++ [(TurnEnd, ts1)]) p))
  = e_turns (p_events p)
    ++ [Turn turnId ts0 (Some ts1) (tool_requests_of mid)
          (count_events is_assistant_message mid)].
Proof.
  intros F. rewrite handle_events_cons, handle_events_app.
  destruct (handle_events_inside_turn mid
              (handle_event cdm (TurnStart turnId) ts0 p)
              (Turn turnId ts0 None [] 0) F eq_refl) as [T C].
  cbn [handle_events fold_left fst snd].
  rewrite handle_event_turns, C, T. reflexivity.
Qed.
End TurnFacts.

Lemma turn_records_its_messages_witness :
  e_turns (p_events (run_events no_clock
    [ (TurnStart "7", "t0"); (AssistantMessage ["bash"; "edit"], "t1");
      (UserMessage "go on", "t2"); (AssistantMessage [], "t3"); (TurnEnd, "t4") ]))
  = [Turn "7" "t0" (Some "t4") ["bash"; "edit"] 2].
Proof.
  apply (turn_records_its_messages no_clock "7" "t0" "t4"
           [ (AssistantMessage ["bash"; "edit"], "t1"); (UserMessage "go on", "t2");
             (AssistantMessage [], "t3") ] initial_parser).
  repeat constructor; discriminate.
Defined.

(** **** Completion records *)

Section ToolFacts.
Variable cdm : string -> string -> option Z.

Lemma handle_event_start_map (e : event) (ts : string) (p : parser)
    (tool_call_id : string) :
  name_and_time <$> (p_tool_start_map (handle_event cdm e ts p) !! tool_call_id) =
  match last (starts_of tool_call_id [(e, ts)]) with
  | Some x => Some x
  | None => name_and_time <$> (p_tool_start_map p !! tool_call_id)
  end.
Proof.
  unfold starts_of. cbn [omap list_omap fst snd].
  destruct e; try (handle_cases; fail).
  destruct (String.eqb_spec toolCallId tool_call_id) as [->|N];
    cbn [last]; unfold handle_event; repeat case_match;
    cbn [with_tool_start_map with_events with_store p_tool_start_map];
    rewrite ?lookup_insert_eq, ?lookup_insert_ne by congruence; reflexivity.
Qed.

Lemma handle_events_start_map (evs : list (event * string)) (p : parser)
    (tool_call_id : string) :
  name_and_time <$> (p_tool_start_map (handle_events cdm evs p) !! tool_call_id) =
  match last (starts_of tool_call_id evs) with
  | Some x => Some x
  | None => name_and_time <$> (p_tool_start_map p !! tool_call_id)
  end.
Proof.
  revert p. induction evs as [|[e ts] evs IH]; intros p; [reflexivity|].
  rewrite handle_events_cons, IH, handle_event_start_map.
  replace (starts_of tool_call_id ((e, ts) :: evs))
    with (starts_of tool_call_id [(e, ts)] ++ starts_of tool_call_id evs)
    by (symmetry; apply (omap_app _ [(e, ts)] evs)).
  rewrite last_app. destruct (last (starts_of tool_call_id evs)); reflexivity.
Qed.

(** X9. In every state that the parser reaches, a tool completion
    appends one record; its name and start time are those of the latest
    start event of the stream with the same call id, however far back and
    whether or not that call was completed before, and both are empty when
    the stream has no such start. *)
Theorem completion_takes_latest_start (evs : list (event * string))
    (tool_call_id : string) (success : bool) (result_content ts : string) :
  let p := run_events cdm evs in
  let p' :=
    handle_event cdm (ToolExecutionComplete tool_call_id success result_content) ts p in
  let start := default ("", "") (last (starts_of tool_call_id evs)) in
  e_tool_completes (p_events p') =
  e_tool_completes (p_events p)
  ++ [ToolComplete tool_call_id (fst start) success (snd start) ts].
Proof.
  intros p p' start.
  pose proof (handle_events_start_map evs initial_parser tool_call_id) as H.
  fold (run_events cdm evs) in H. fold p in H.
  cbn [initial_parser p_tool_start_map] in H. rewrite lookup_empty in H.
  subst p'. unfold handle_event.
  destruct (p_tool_start_map p !! tool_call_id) as [si|] eqn:E;
    cbn [fmap option_fmap option_map] in H; subst start;
    destruct (last (starts_of tool_call_id evs)) as [[n t]|]; try discriminate;
    cbn [default fst snd from_option mbind option_bind].
  - injection H as <- <-. repeat case_match; reflexivity.
  - reflexivity.
Qed.
End ToolFacts.

(** **** Dev-loop entries *)

Section DevLoopFacts.
Variable cdm : string -> string -> option Z.

Lemma finalize_completed (dl : dev_loop_action) (success : bool)
    (result_content ts : string) :
  completed_action (finalize_dev_loop cdm dl success result_content ts).
Proof. repeat split; eexists; reflexivity. Qed.

Lemma dev_loop_complete_step (e : event) (ts : string) (p : parser) :
  dev_loop_complete p -> dev_loop_complete (handle_event cdm e ts p).
Proof.
  unfold dev_loop_complete. intros I.
  destruct e; handle_cases; try exact I;
    try (eapply Forall_impl; [exact I|]; intros loc (d & L & F);
         exists d; split; [|exact F]; apply lookup_app_l_Some, L).
  match goal with H : p_store p !! ?n = Some ?dl |- _ =>
    apply Forall_app; split;
    [ eapply Forall_impl; [exact I|]; intros loc (d' & L & F);
      destruct (decide (n = loc)) as [->|N];
      [ eexists; split; [apply list_lookup_insert_eq; eapply lookup_lt_Some, L|];
        apply finalize_completed
      | exists d'; split; [|exact F]; rewrite list_lookup_insert_ne; assumption ]
    | constructor; [|constructor]; eexists;
      split; [apply list_lookup_insert_eq; eapply lookup_lt_Some, H|];
      apply finalize_completed ]
  end.
Qed.

Lemma dev_loop_complete_run (evs : list (event * string)) :
  dev_loop_complete (run_events cdm evs).
Proof.
  unfold run_events. assert (I : dev_loop_complete initial_parser) by constructor.
  revert I. generalize initial_parser.
  induction evs as [|[e ts] evs IH]; intros p I; [exact I|].
  apply IH, dev_loop_complete_step, I.
Qed.

Lemma dev_loop_of_complete (p : parser) :
  dev_loop_complete p ->
  Forall completed_action (dev_loop_of p)
  /\ length (dev_loop_of p) = length (e_dev_loop (p_events p)).
Proof.
  unfold dev_loop_complete, dev_loop_of.
  induction 1 as [|loc locs (d & L & F) I [IH1 IH2]]; [split; [constructor | reflexivity]|].
  cbn [omap list_omap]. rewrite L. split; [constructor; assumption|].
  cbn [length]. congruence.
Qed.

Lemma handle_event_dev_loop_length (e : event) (ts : string) (p : parser) :
  len (e_dev_loop (p_events (handle_event cdm e ts p)))
  <= len (e_dev_loop (p_events p)) + tally is_tool_complete e.
Proof.
  unfold len, tally. destruct e; handle_cases; rewrite ?length_app; cbn [length]; lia.
Qed.

Lemma handle_events_dev_loop_length (evs : list (event * string)) (p : parser) :
  len (e_dev_loop (p_events (handle_events cdm evs p)))
  <= len (e_dev_loop (p_events p)) + count_events is_tool_complete evs.
Proof.
  revert p. induction evs as [|[e ts] evs IH]; intros p.
  - unfold count_events, len. simpl. lia.
  - rewrite handle_events_cons, count_events_cons.
    pose proof (IH (handle_event cdm e ts p)).
    pose proof (handle_event_dev_loop_length e ts p). lia.
Qed.

(** X10. Every dev-loop action that the parser reports carries an end
    time, a duration entry, an outcome and a result preview, so the
    defaults that the summary has for a missing outcome and a missing end
    time never apply; and there are at most as many reported actions as
    tool completions: a build or test that is started and never completed
    is not reported. *)
Theorem dev_loop_entries_completed (evs : list (event * string)) :
  let dev_loop := dev_loop_of (run_events cdm evs) in
  Forall completed_action dev_loop
  /\ Forall (fun d => dl_success d = Some (succeeded d)
                      /\ dl_endTime d = Some (build_end d)) dev_loop
  /\ len dev_loop <= count_events is_tool_complete evs.
Proof.
  intros dev_loop. subst dev_loop.
  destruct (dev_loop_of_complete _ (dev_loop_complete_run evs)) as [C L].
  split; [exact C|]. split.
  - eapply Forall_impl; [exact C|]. intros d (E & _ & S & _).
    unfold succeeded, build_end. destruct E as [e ->], S as [s ->]. split; reflexivity.
  - unfold len at 1. rewrite L.
    pose proof (handle_events_dev_loop_length evs initial_parser) as H.
    unfold run_events, len in *. simpl in H. lia.
Qed.
End DevLoopFacts.

Lemma omap_length_total {A B} (f : A -> option B) (l : list A) :
  Forall (fun x => is_Some (f x)) l -> length (omap f l) = length l.
Proof.
  induction 1 as [|x l [y Hy] F IH]; [reflexivity|].
  cbn [omap list_omap]. rewrite Hy. cbn [length]. congruence.
Qed.

(** X11. Start entries are never removed, so a second completion with
    the call id of a build or test finds the same action again: the action
    is reported twice, and both entries show the end time, outcome and
    result of the second completion. *)
Theorem second_completion_overwrites (cdm : string -> string -> option Z)
    (evs : list (event * string)) (tool_call_id : string) (si : start_info)
    (loc : nat) (success1 : bool) (result1 ts1 : string) (success2 : bool)
    (result2 ts2 : string) :
  let p := run_events cdm evs in
  let p2 :=
    handle_event cdm (ToolExecutionComplete tool_call_id success2 result2) ts2
      (handle_event cdm (ToolExecutionComplete tool_call_id success1 result1) ts1 p) in
  p_tool_start_map p !! tool_call_id = Some si ->
  si_dev_loop si = Some loc ->
  exists front d,
    dev_loop_of p2 = front ++ [d; d]
    /\ length front = length (dev_loop_of p)
    /\ dl_endTime d = Some ts2
    /\ dl_success d =
       Some (success2 && negb (build_failed result2) && negb (test_failed result2))
    /\ dl_result_preview d = Some (py_take 200 result2).
Proof.
  intros p p2 Hm Hd.
  destruct (store_covers_run cdm evs _ _ _ Hm Hd) as [dl Hs]. fold p in Hs.
  pose proof (dev_loop_complete_run cdm evs) as C. fold p in C.
  set (d1 := finalize_dev_loop cdm dl success1 result1 ts1).
  set (d2 := finalize_dev_loop cdm d1 success2 result2 ts2).
  pose proof (lookup_lt_Some _ _ _ Hs) as Lt.
  subst p2. rewrite (dev_loop_outcome_at cdm p _ _ _ _ si loc dl Hm Hd Hs). fold d1.
  erewrite (dev_loop_outcome_at cdm _ _ _ _ _ si loc d1);
    [| exact Hm | exact Hd
     | cbn [with_events with_store p_store]; apply list_lookup_insert_eq, Lt ].
  fold d2. unfold dev_loop_of.
  cbn [with_events with_store with_dev_loop with_tool_completes p_events p_store
       e_dev_loop].
  rewrite <- app_assoc, omap_app. cbn [app omap list_omap].
  rewrite list_lookup_insert_eq by (rewrite length_insert; exact Lt).
  eexists _, d2. split; [reflexivity|]. split; [|repeat split].
  rewrite !omap_length_total; [reflexivity| |].
  - eapply Forall_impl; [exact C|]. intros l (d & L & _). eexists. exact L.
  - eapply Forall_impl; [exact C|]. intros l (d & L & _).
    apply lookup_lt_is_Some. rewrite !length_insert. eapply lookup_lt_Some, L.
Qed.

Lemma second_completion_overwrites_witness :
  exists front d,
    dev_loop_of (run_events no_clock
      [ (ToolExecutionStart "bash" "call-1" "npm test" "", "t1");
        (ToolExecutionComplete "call-1" false "tests failed", "t2");
        (ToolExecutionComplete "call-1" true "ok", "t3") ]) = front ++ [d; d]
    /\ length front = 0%nat /\ dl_endTime d = Some "t3" /\ dl_success d = Some true.
Proof.
  destruct (second_completion_overwrites no_clock
              [(ToolExecutionStart "bash" "call-1" "npm test" "", "t1")]
              "call-1" (StartInfo "bash" "t1" "npm test" "" (Some 0%nat)) 0%nat
              false "tests failed" "t2" true "ok" "t3" eq_refl eq_refl)
    as (front & d & E & L & T & S & _).
  exists front, d. repeat split; assumption.
Defined.

(** **** Session end time *)

Section EndTime.
Variable fl : Q -> Q.
Variable cdm : string -> string -> option Z.

Lemma handle_events_end_times (evs : list (event * string)) (p : parser) :
  map t_endTime (e_turns (p_events (handle_events cdm evs p))) =
  map t_endTime (e_turns (p_events p)) ++ map Some (turn_ends (turn_open p) evs).
Proof.
  revert p. induction evs as [|[e ts] evs IH]; intros p.
  - simpl. rewrite app_nil_r. reflexivity.
  - rewrite handle_events_cons, IH, handle_event_turns, handle_event_turn_open.
    unfold turn_open. destruct e; try reflexivity.
    destruct (p_current_turn p); cbn [turn_ends app map]; [|reflexivity].
    rewrite map_app, <- app_assoc. reflexivity.
Qed.

Lemma handle_events_message_times (evs : list (event * string)) (p : parser) :
  map um_timestamp (e_user_messages (p_events (handle_events cdm evs p))) =
  map um_timestamp (e_user_messages (p_events p)) ++ user_message_times evs.
Proof.
  revert p. induction evs as [|[e ts] evs IH]; intros p.
  - simpl. rewrite app_nil_r. reflexivity.
  - rewrite handle_events_cons, IH, handle_event_user_messages.
    unfold user_message_times. destruct e; try reflexivity.
    cbn [List.filter fst is_user_message map snd].
    rewrite map_app, <- app_assoc. reflexivity.
Qed.

Lemma last_fmap {A B} (f : A -> B) (l : list A) : last (map f l) = f <$> last l.
Proof.
  induction l as [|a [|b l] IH]; try reflexivity. exact IH.
Qed.

(** X14. The session end time of the report is the time stamp of the
    last turn end that closed a turn, whatever events follow it. When no
    turn was closed, or that time stamp is empty, it is the time stamp of
    the last user message, if there is one. *)
Theorem session_end_time (evs : list (event * string)) (llm_calls : list llm_call) :
  exists r, session_report fl cdm evs llm_calls = Some r
    /\ r_session_endTime r =
       match last (turn_ends false evs), last (user_message_times evs) with
       | None, last_message => last_message
       | Some "", Some t => Some t
       | Some t, _ => Some t
       end.
Proof.
  unfold session_report.
  destruct (build_summary_counts fl cdm (p_events (run_events cdm evs))
              (dev_loop_of (run_events cdm evs)) llm_calls) as (r & E & _ & T & _).
  exists r. split; [exact E|]. rewrite T. clear E T. cbn zeta.
  pose proof (handle_events_end_times evs initial_parser) as H1.
  pose proof (handle_events_message_times evs initial_parser) as H2.
  fold (run_events cdm evs) in H1, H2.
  change (turn_open initial_parser) with false in H1. simpl in H1, H2.
  apply (f_equal last) in H1, H2. rewrite !last_fmap in H1. rewrite last_fmap in H2.
  rewrite <- H2.
  destruct (last (e_turns (p_events (run_events cdm evs)))) as [t|];
    destruct (last (turn_ends false evs)) as [te|]; try discriminate;
    simpl in H1; cbn [mbind option_bind].
  - injection H1 as ->.
    destruct (last (e_user_messages (p_events (run_events cdm evs)))) as [m|];
      cbn [fmap option_fmap option_map]; destruct te as [|c te]; reflexivity.
  - destruct (last (e_user_messages (p_events (run_events cdm evs))));
      reflexivity.
Qed.
End EndTime.

(** **** Previews *)

Lemma py_take_length (n : nat) (s : string) :
  String.length (py_take n s) = Nat.min n (String.length s).
Proof.
  unfold py_take. revert s. induction n as [|n IH]; intros [|c s]; simpl; auto.
Qed.

Section Previews.
Variable cdm : string -> string -> option Z.

Lemma previews_bounded_step (e : event) (ts : string) (p : parser) :
  previews_bounded p -> previews_bounded (handle_event cdm e ts p).
Proof.
  unfold previews_bounded. intros (U & Er & St).
  destruct e; handle_cases; repeat split; try assumption.
  - apply Forall_app. split; [exact U|]. constructor; [|constructor].
    unfold preview_of. cbn [um_content_preview um_full_length].
    rewrite py_take_length. lia.
  - apply Forall_app. split; [exact St|]. constructor; [|constructor].
    split; cbn [dl_command dl_result_preview]; [rewrite py_take_length; lia|].
    discriminate.
  - apply Forall_app. split; [exact St|]. constructor; [|constructor].
    split; cbn [dl_command dl_result_preview]; [rewrite py_take_length; lia|].
    discriminate.
  - match goal with H : p_store p !! ?n = Some ?dl |- _ =>
      apply Forall_insert; [exact St|];
      pose proof (Forall_lookup_1 _ _ _ _ St H) as [C _]
    end.
    split; cbn [finalize_dev_loop dl_command dl_result_preview]; [exact C|].
    intros preview [= <-]. rewrite py_take_length. lia.
  - apply Forall_app. split; [exact Er|]. constructor; [|constructor].
    cbn [er_message]. rewrite py_take_length. lia.
Qed.

Lemma previews_bounded_run (evs : list (event * string)) :
  previews_bounded (run_events cdm evs).
Proof.
  unfold run_events.
  assert (I : previews_bounded initial_parser) by (repeat split; constructor).
  revert I. generalize initial_parser.
  induction evs as [|[e ts] evs IH]; intros p I; [exact I|].
  apply IH, previews_bounded_step, I.
Qed.

(** X15. The previews of the report are bounded: the preview of a user
    message has the length of the message up to 200 characters, the message
    of an error has at most 300 characters, and the command and the result
    preview of a dev-loop action have at most 200 each. *)
Theorem previews_are_bounded (evs : list (event * string)) :
  let p := run_events cdm evs in
  Forall (fun m => preview_of 200 (um_content_preview m) (um_full_length m))
    (e_user_messages (p_events p))
  /\ Forall (fun er => (String.length (er_message er) <= 300)%nat)
       (e_errors (p_events p))
  /\ Forall short_action (dev_loop_of p).
Proof.
  intros p. destruct (previews_bounded_run evs) as (U & Er & St). fold p in U, Er, St.
  split; [exact U|]. split; [exact Er|].
  unfold dev_loop_of. induction (e_dev_loop (p_events p)) as [|loc locs IH];
    [constructor|].
  cbn [omap list_omap]. destruct (p_store p !! loc) as [d|] eqn:L; [|exact IH].
  constructor; [|exact IH]. exact (Forall_lookup_1 _ _ _ _ St L).
Qed.
End Previews.

(** *** The summary, field by field *)

Lemma build_summary_analysis (fl : Q -> Q) (cdm : string -> string -> option Z)
    (ev : events) (dev_loop : list dev_loop_action) (llm_calls : list llm_call) :
  let builds := List.filter (is_kind Build) dev_loop in
  let tests := List.filter (is_kind Test) dev_loop in
  let tool_counts :=
    foldl (fun m tc => count_up m (tc_name tc)) ∅ (e_tool_completes ev) in
  exists r, build_summary fl cdm ev dev_loop llm_calls = Some r
    /\ models_used (r_summary r) =
       foldl (fun m c => count_up m (c_model c)) ∅ llm_calls
    /\ tc_by_name (r_tool_calls r) = tool_counts
    /\ total_llm_calls (r_summary r) = len llm_calls
    /\ sm_longest_call (r_summary r) =
       (fun c => LongestCall (c_duration_ms c) (c_model c) (c_initiator c))
         <$> longest_of llm_calls
    /\ edits_without_validation (r_dev_loop_summary r) =
       (let edit_count :=
          default 0 (tool_counts !! "edit") + default 0 (tool_counts !! "create") in
        if 0 <? edit_count then Z.max 0 (edit_count - (len builds + len tests))
        else 0)
    /\ total_builds (r_dev_loop_summary r) = len builds
    /\ total_tests (r_dev_loop_summary r) = len tests
    /\ build_failures (r_dev_loop_summary r) = len (List.filter failed builds)
    /\ test_failures (r_dev_loop_summary r) = len (List.filter failed tests)
    /\ Some (build_success_rate_pct (r_dev_loop_summary r)) =
       success_rate_pct fl (len builds) (len (List.filter failed builds))
    /\ Some (test_success_rate_pct (r_dev_loop_summary r)) =
       success_rate_pct fl (len tests) (len (List.filter failed tests))
    /\ estimated_cost_usd (r_summary r) =
       py_round fl
         (foldl (fun total_cost c =>
                   fadd fl total_cost
                     (compute_cost fl (c_input_tokens c) (c_output_tokens c)
                        (c_cache_read_tokens c) (c_model c))) 0%Q llm_calls) 4.
Proof.
  intros builds tests tool_counts. subst builds tests tool_counts. unfold failed.
  summary_report; repeat split; try reflexivity; symmetry; assumption.
Qed.

(** **** Counting by key *)

Lemma count_up_lookup (m : gmap string Z) (key k : string) :
  count_up m key !! k =
  if String.eqb key k then Some (default 0 (m !! k) + 1) else m !! k.
Proof.
  unfold count_up. destruct (String.eqb_spec key k) as [->|N].
  - rewrite lookup_insert_eq. reflexivity.
  - rewrite lookup_insert_ne by assumption. reflexivity.
Qed.

Lemma fold_count_lookup {A} (key : A -> string) (l : list A) (m0 : gmap string Z)
    (k : string) :
  foldl (fun m x => count_up m (key x)) m0 l !! k =
  if count_key key k l =? 0 then m0 !! k
  else Some (default 0 (m0 !! k) + count_key key k l).
Proof.
  unfold count_key. revert m0. induction l as [|x l IH]; intros m0; [reflexivity|].
  cbn [foldl List.filter]. rewrite IH, count_up_lookup.
  destruct (String.eqb (key x) k); [|reflexivity].
  unfold len. cbn [length default].
  generalize (length (List.filter (fun x0 => String.eqb (key x0) k) l)). intros n.
  unfold id.
  destruct (Z.eqb_spec (Z.of_nat n) 0) as [E0|N];
    destruct (Z.eqb_spec (Z.of_nat (S n)) 0); try lia; f_equal; lia.
Qed.

Lemma fold_count_from_empty {A} (key : A -> string) (l : list A) (k : string) :
  foldl (fun m x => count_up m (key x)) ∅ l !! k = positive_count (count_key key k l).
Proof.
  rewrite fold_count_lookup, lookup_empty. unfold positive_count.
  destruct (_ =? 0); [reflexivity|]. simpl. reflexivity.
Qed.

(** X16. [models_used] maps a model to the number of calls with that
    model, and [by_name] a tool name to the number of completions with
    that name; a model or name with no occurrence is absent. *)
Theorem usage_counts_by_key (fl : Q -> Q) (cdm : string -> string -> option Z)
    (ev : events) (dev_loop : list dev_loop_action) (llm_calls : list llm_call) :
  exists r, build_summary fl cdm ev dev_loop llm_calls = Some r
    /\ (forall model,
          models_used (r_summary r) !! model =
          positive_count (count_key c_model model llm_calls))
    /\ (forall name,
          tc_by_name (r_tool_calls r) !! name =
          positive_count (count_key tc_name name (e_tool_completes ev))).
Proof.
  destruct (build_summary_analysis fl cdm ev dev_loop llm_calls)
    as (r & E & M & T & _).
  exists r. split; [exact E|]. rewrite M, T.
  split; intros k; apply fold_count_from_empty.
Qed.

(** **** The longest call *)

Lemma longest_fold (b : llm_call) (l : list llm_call) :
  let m := foldl (fun best c' =>
                    if c_duration_ms best <? c_duration_ms c' then c' else best) b l in
  exists pre post,
    b :: l = pre ++ m :: post
    /\ Forall (fun c' => c_duration_ms c' < c_duration_ms m) pre
    /\ Forall (fun c' => c_duration_ms c' <= c_duration_ms m) post.
Proof.
  revert b. induction l as [|c l IH]; intros b; cbn zeta.
  - exists [], []. repeat split; constructor.
  - cbn [foldl]. destruct (Z.ltb_spec (c_duration_ms b) (c_duration_ms c)) as [L|L].
    + destruct (IH c) as (pre & post & E & P1 & P2). cbn zeta in *.
      exists (b :: pre), post. split; [cbn [app]; f_equal; exact E|].
      split; [|exact P2]. constructor; [|exact P1].
      destruct pre as [|x pre]; simpl in E; injection E as <- E.
      * exact L.
      * inversion P1; subst. lia.
    + destruct (IH b) as (pre & post & E & P1 & P2). cbn zeta in *.
      revert E P1 P2.
      generalize (foldl (fun best c' =>
                           if c_duration_ms best <? c_duration_ms c' then c' else best)
                    b l).
      intros m E P1 P2.
      destruct pre as [|x pre]; simpl in E; injection E as E1 E2; subst.
      * exists [], (c :: post). split; [reflexivity|]. split; [constructor|].
        constructor; [lia | exact P2].
      * exists (x :: c :: pre), post. split; [reflexivity|].
        split; [|exact P2]. inversion P1; subst.
        constructor; [assumption|]. constructor; [lia | assumption].
Qed.

(** X17. The longest call of the report is taken from a call whose
    duration no other call exceeds, and from the first such call: every
    call before it is strictly shorter. There is none exactly when there
    are no calls. *)
Theorem longest_call_first_maximum (fl : Q -> Q) (cdm : string -> string -> option Z)
    (ev : events) (dev_loop : list dev_loop_action) (llm_calls : list llm_call) :
  exists r, build_summary fl cdm ev dev_loop llm_calls = Some r
    /\ match sm_longest_call (r_summary r) with
       | None => llm_calls = []
       | Some longest =>
           exists pre c post,
             llm_calls = pre ++ c :: post
             /\ longest = LongestCall (c_duration_ms c) (c_model c) (c_initiator c)
             /\ Forall (fun c' => c_duration_ms c' < c_duration_ms c) pre
             /\ Forall (fun c' => c_duration_ms c' <= c_duration_ms c) post
       end.
Proof.
  destruct (build_summary_analysis fl cdm ev dev_loop llm_calls)
    as (r & E & _ & _ & _ & L & _).
  exists r. split; [exact E|]. rewrite L. destruct llm_calls as [|b l]; [reflexivity|].
  cbn [longest_of fmap option_fmap option_map].
  destruct (longest_fold b l) as (pre & post & Eq & P1 & P2). cbn zeta in *.
  eexists pre, _, post. split; [exact Eq|]. split; [reflexivity|].
  split; assumption.
Qed.

(** **** Edits without validation *)

Lemma default_positive_count (n : Z) : default 0 (positive_count n) = n.
Proof. unfold positive_count. destruct (Z.eqb_spec n 0); simpl; lia. Qed.

Lemma count_edits (tcs : list tool_complete) :
  count_key tc_name "edit" tcs + count_key tc_name "create" tcs
  = len (List.filter is_edit tcs).
Proof.
  unfold count_key, len, is_edit. induction tcs as [|tc tcs IH]; [reflexivity|].
  cbn [List.filter].
  destruct (String.eqb_spec (tc_name tc) "edit") as [E|N1];
    destruct (String.eqb_spec (tc_name tc) "create") as [E'|N2];
    cbn [orb length]; try congruence; lia.
Qed.

Lemma builds_and_tests (dev_loop : list dev_loop_action) :
  len (List.filter (is_kind Build) dev_loop) + len (List.filter (is_kind Test) dev_loop)
  = len dev_loop.
Proof.
  unfold len. induction dev_loop as [|d l IH]; [reflexivity|].
  cbn [List.filter]. unfold is_kind in *. destruct (dl_kind d); cbn [length]; lia.
Qed.

(** X18. The number of edits without validation is the number of
    completions of [edit] and [create] tools less the number of reported
    builds and tests, and 0 when that is negative. Only the two counts
    enter: where the edits stand among the builds and tests plays no
    part. *)
Theorem edits_without_validation_by_count (fl : Q -> Q)
    (cdm : string -> string -> option Z) (ev : events)
    (dev_loop : list dev_loop_action) (llm_calls : list llm_call) :
  exists r, build_summary fl cdm ev dev_loop llm_calls = Some r
    /\ edits_without_validation (r_dev_loop_summary r) =
       Z.max 0 (len (List.filter is_edit (e_tool_completes ev)) - len dev_loop).
Proof.
  destruct (build_summary_analysis fl cdm ev dev_loop llm_calls)
    as (r & E & _ & _ & _ & _ & V & _).
  exists r. split; [exact E|]. rewrite V. cbn zeta.
  rewrite !fold_count_from_empty, !default_positive_count, count_edits,
    builds_and_tests.
  assert (0 <= len dev_loop) by (unfold len; lia).
  destruct (Z.ltb_spec 0 (len (List.filter is_edit (e_tool_completes ev)))); lia.
Qed.

(** **** Percentages *)

Section Percentages.
Variable fl : Q -> Q.
Hypothesis fl_mono : forall q q', (q <= q')%Q -> (fl q <= fl q')%Q.
Hypothesis fl_zero : (fl 0 == 0)%Q.
Hypothesis fl_one : (fl 1 == 1)%Q.
Hypothesis fl_hundred : (fl 100 == 100)%Q.

Lemma py_round_comp (q q' : Q) (n : nat) :
  (q == q')%Q -> (py_round fl q n == py_round fl q' n)%Q.
Proof.
  intros E. apply Qle_antisym; apply py_round_mono; try exact fl_mono;
    apply Qeq_le; [exact E | symmetry; exact E].
Qed.

Lemma py_round_hundred : (py_round fl 100 1 == 100)%Q.
Proof.
  unfold py_round.
  rewrite (round_half_even_comp _ (inject_Z 1000)) by reflexivity.
  rewrite round_half_even_inject.
  rewrite (fl_comp fl fl_mono _ 100) by reflexivity. exact fl_hundred.
Qed.

Lemma ratio_bounds (a b : Z) :
  0 <= a <= b -> 0 < b -> (0 <= inject_Z a / inject_Z b <= 1)%Q.
Proof.
  intros [La Lb] Pb. assert (Qb : (0 < inject_Z b)%Q) by (apply (inject_Z_lt 0), Pb).
  split.
  - apply Qle_shift_div_l; [exact Qb|]. rewrite Qmult_0_l. apply (inject_Z_le 0), La.
  - apply Qle_shift_div_r; [exact Qb|]. rewrite Qmult_1_l. apply inject_Z_le, Lb.
Qed.

Lemma scaled_bounds (q : Q) :
  (0 <= q <= 1)%Q -> (0 <= fmul fl (fl q) (float_of_int fl 100) <= 100)%Q.
Proof.
  intros [L U]. unfold fmul, float_of_int.
  assert (Q0 : (0 <= fl q)%Q) by (apply fl_nonneg; assumption).
  assert (Q1 : (fl q <= 1)%Q) by (rewrite <- fl_one; apply fl_mono, U).
  change (inject_Z 100) with 100%Q. split.
  - apply fl_nonneg; [exact fl_mono | exact fl_zero |]. rewrite fl_hundred.
    apply Qmult_le_0_compat; [exact Q0 | discriminate].
  - rewrite <- fl_hundred at 2. apply fl_mono. rewrite fl_hundred.
    apply Qle_trans with (1 * 100)%Q; [|apply Qeq_le; reflexivity].
    apply Qmult_le_compat_r; [exact Q1 | discriminate].
Qed.

Lemma percent_bounds (a b : Z) :
  0 <= a <= b -> 0 < b ->
  (0 <= percent fl a b <= 100)%Q
  /\ (a = b -> (percent fl a b == 100)%Q)
  /\ (a = 0 -> (percent fl a b == 0)%Q).
Proof.
  intros R Pb. unfold percent, fdiv.
  pose proof (scaled_bounds _ (ratio_bounds a b R Pb)) as [L U].
  assert (Qb : (0 < inject_Z b)%Q) by (apply (inject_Z_lt 0), Pb).
  split; [split|split].
  - apply py_round_nonneg; assumption.
  - rewrite <- py_round_hundred. apply py_round_mono; assumption.
  - intros ->. rewrite <- py_round_hundred. apply py_round_comp.
    unfold fmul, float_of_int. change (inject_Z 100) with 100%Q.
    rewrite (fl_comp fl fl_mono _ 100); [exact fl_hundred|].
    rewrite fl_hundred.
    rewrite (fl_comp fl fl_mono (inject_Z b / inject_Z b) 1);
      [rewrite fl_one; reflexivity|].
    field. intros H. rewrite H in Qb. apply (Qlt_irrefl 0 Qb).
  - intros ->. apply py_round_0; [exact fl_mono | exact fl_zero |].
    unfold fmul, float_of_int.
    rewrite (fl_comp fl fl_mono _ 0); [exact fl_zero|].
    rewrite (fl_comp fl fl_mono (inject_Z 0 / inject_Z b) 0);
      [rewrite fl_zero; ring|].
    change (inject_Z 0) with 0%Q. unfold Qdiv. ring.
Qed.
End Percentages.

Lemma filter_failed_length (actions : list dev_loop_action) :
  0 <= len (List.filter failed actions) <= len actions
  /\ (Forall (fun d => succeeded d = true) actions ->
      len (List.filter failed actions) = 0)
  /\ (Forall (fun d => succeeded d = false) actions ->
      len (List.filter failed actions) = len actions).
Proof.
  unfold len, failed. induction actions as [|d l (IH1 & IH2 & IH3)];
    [repeat split; simpl; lia|].
  cbn [List.filter]. split; [destruct (succeeded d); cbn [negb length]; lia|].
  split; intros F; inversion F as [|? ? Hd F']; subst; rewrite Hd; cbn [negb length].
  - apply IH2, F'.
  - specialize (IH3 F'). lia.
Qed.

Section Rates.
Variable fl : Q -> Q.
Variable cdm : string -> string -> option Z.
Hypothesis fl_mono : forall q q', (q <= q')%Q -> (fl q <= fl q')%Q.
Hypothesis fl_zero : (fl 0 == 0)%Q.
Hypothesis fl_one : (fl 1 == 1)%Q.
Hypothesis fl_hundred : (fl 100 == 100)%Q.

Lemma success_rate_in_range (actions : list dev_loop_action) (rate : option Q) :
  success_rate_pct fl (len actions) (len (List.filter failed actions)) = Some rate ->
  rate_in_range actions rate.
Proof.
  unfold success_rate_pct. destruct (filter_failed_length actions) as (R & A & N).
  destruct (Z.eqb_spec (len actions) 0) as [E|NZ].
  - intros [= <-]. destruct actions; [reflexivity|]. unfold len in E. simpl in E. lia.
  - rewrite py_truediv_Some by exact NZ. cbn [mbind option_bind]. intros [= <-].
    assert (0 < len actions) by (unfold len in *; lia).
    destruct (percent_bounds fl fl_mono fl_zero fl_one fl_hundred
                (len actions - len (List.filter failed actions)) (len actions))
      as (B & B1 & B0); [lia | lia |].
    split; [intros ->; apply NZ; reflexivity|]. split; [exact B|].
    split; intros F; [apply B1; rewrite (A F) | apply B0; rewrite (N F)]; lia.
Qed.

(** X19. In every arithmetic whose rounding is monotone and keeps 0, 1
    and 100: the build success rate is absent exactly when there is no
    build, and otherwise lies between 0 and 100, is 100 when every build
    succeeded and 0 when every build failed; likewise for tests. *)
Theorem success_rates_in_range (ev : events) (dev_loop : list dev_loop_action)
    (llm_calls : list llm_call) :
  exists r, build_summary fl cdm ev dev_loop llm_calls = Some r
    /\ rate_in_range (List.filter (is_kind Build) dev_loop)
         (build_success_rate_pct (r_dev_loop_summary r))
    /\ rate_in_range (List.filter (is_kind Test) dev_loop)
         (test_success_rate_pct (r_dev_loop_summary r)).
Proof.
  destruct (build_summary_analysis fl cdm ev dev_loop llm_calls)
    as (r & E & _ & _ & _ & _ & _ & _ & _ & _ & _ & B & T & _).
  exists r. split; [exact E|].
  split; apply success_rate_in_range; symmetry; assumption.
Qed.

(** X20. In every such arithmetic, when no call reads more tokens from
    the cache than it has input tokens (and none a negative number), the
    cache hit rate lies between 0 and 100. *)
Theorem cache_hit_rate_in_range (ev : events) (dev_loop : list dev_loop_action)
    (llm_calls : list llm_call) :
  Forall (fun c => 0 <= c_cache_read_tokens c <= c_input_tokens c) llm_calls ->
  exists r, build_summary fl cdm ev dev_loop llm_calls = Some r
    /\ (0 <= cache_hit_rate_pct (r_summary r) <= 100)%Q.
Proof.
  intros F.
  assert (R : 0 <= sum_Z (map c_cache_read_tokens llm_calls)
              <= sum_Z (map c_input_tokens llm_calls)).
  { unfold sum_Z. induction F as [|c l Hc F IH]; [simpl; lia|].
    cbn [map foldr]. cbn beta in Hc. lia. }
  destruct (build_summary_fields fl cdm ev dev_loop llm_calls) as (r & E & _ & C & _).
  exists r. split; [exact E|]. rewrite C.
  destruct (Z.ltb_spec 0 (sum_Z (map c_input_tokens llm_calls))) as [P|P].
  - apply (percent_bounds fl fl_mono fl_zero fl_one fl_hundred _ _ R P).
  - rewrite (py_round_0 fl fl_mono fl_zero 0 1) by reflexivity.
    split; [apply Qle_refl | discriminate].
Qed.
End Rates.

Lemma b64_1 : (b64 1 == 1)%Q.
Proof. vm_compute. reflexivity. Qed.

Lemma b64_100 : (b64 100 == 100)%Q.
Proof. vm_compute. reflexivity. Qed.

Lemma success_rates_in_range_witness :
  exists r, build_summary b64 no_clock initial_events four_builds [] = Some r
    /\ rate_in_range four_builds (build_success_rate_pct (r_dev_loop_summary r)).
Proof.
  destruct (success_rates_in_range b64 no_clock b64_mono b64_0 b64_1 b64_100
              initial_events four_builds []) as (r & E & B & _).
  exists r. split; [exact E | exact B].
Defined.

Lemma cache_hit_rate_in_range_witness :
  exists r, build_summary b64 no_clock initial_events [] [call 3 1; call 5 5] = Some r
    /\ (0 <= cache_hit_rate_pct (r_summary r) <= 100)%Q.
Proof.
  apply (cache_hit_rate_in_range b64 no_clock b64_mono b64_0 b64_1 b64_100).
  repeat constructor; simpl; lia.
Defined.

(** **** Fix cycles and redundant builds *)

Lemma emit_fix_cycle_bounds (cc : list dev_loop_action) (resolution : option string) :
  Forall (fun fc => 2 <= fc_failures fc /\ fc_resolution fc = resolution)
    (emit_fix_cycle cc resolution)
  /\ sum_Z (map fc_failures (emit_fix_cycle cc resolution)) <= len cc
  /\ (length (emit_fix_cycle cc resolution) <= 1)%nat.
Proof.
  unfold emit_fix_cycle. destruct (Z.leb_spec 2 (len cc)) as [L|L].
  - destruct cc as [|first cc]; [repeat split; simpl; try constructor; unfold len; simpl; lia|].
    repeat split; [repeat constructor; assumption | simpl; lia | simpl; lia].
  - repeat split; [constructor | simpl; unfold len; lia | simpl; lia].
Qed.

Lemma sum_Z_app (l1 l2 : list Z) : sum_Z (l1 ++ l2) = sum_Z l1 + sum_Z l2.
Proof. unfold sum_Z. induction l1 as [|a l1 IH]; simpl; lia. Qed.

Lemma fix_cycles_loop_bounds (builds cc : list dev_loop_action) :
  let r := fix_cycles_loop builds cc [] in
  Forall (fun fc => 2 <= fc_failures fc /\ is_Some (fc_resolution fc)) (snd r)
  /\ sum_Z (map fc_failures (snd r)) + len (fst r)
     <= len cc + len (List.filter failed builds).
Proof.
  revert cc. induction builds as [|b builds IH]; intros cc; cbn zeta.
  - simpl. split; [constructor | unfold len; simpl; lia].
  - cbn [fix_cycles_loop List.filter]. unfold failed at 1.
    destruct (succeeded b); cbn [negb].
    + rewrite fix_cycles_loop_acc. cbn [fst snd app].
      destruct (IH []) as [F S]. cbn zeta in *.
      destruct (emit_fix_cycle_bounds cc (Some (dl_startTime b))) as (EF & ES & _).
      split.
      * apply Forall_app. split; [|exact F].
        eapply Forall_impl; [exact EF|]. intros fc [A ->]. split; [exact A | eexists; reflexivity].
      * rewrite map_app, sum_Z_app. unfold len in *. simpl in S. lia.
    + destruct (IH (cc ++ [b])) as [F S]. cbn zeta in *. split; [exact F|].
      rewrite len_snoc in S. unfold len in *. cbn [length]. lia.
Qed.

Lemma fix_cycles_bounded (builds : list dev_loop_action) :
  let cycles := detect_fix_cycles builds in
  Forall (fun fc => 2 <= fc_failures fc) cycles
  /\ sum_Z (map fc_failures cycles) <= len (List.filter failed builds)
  /\ 2 * len cycles <= len (List.filter failed builds)
  /\ exists resolved unresolved,
       cycles = resolved ++ unresolved
       /\ Forall (fun fc => is_Some (fc_resolution fc)) resolved
       /\ Forall (fun fc => fc_resolution fc = None) unresolved
       /\ (length unresolved <= 1)%nat.
Proof.
  cbn zeta. rewrite detect_fix_cycles_loop.
  destruct (fix_cycles_loop_bounds builds []) as [F S]. cbn zeta in *.
  destruct (emit_fix_cycle_bounds (fst (fix_cycles_loop builds [] [])) None)
    as (EF & ES & EL).
  assert (A : Forall (fun fc => 2 <= fc_failures fc)
                (snd (fix_cycles_loop builds [] [])
                 ++ emit_fix_cycle (fst (fix_cycles_loop builds [] [])) None)).
  { apply Forall_app. split; (eapply Forall_impl; [eassumption|]); intros fc [H _]; exact H. }
  assert (B : sum_Z (map fc_failures
                (snd (fix_cycles_loop builds [] [])
                 ++ emit_fix_cycle (fst (fix_cycles_loop builds [] [])) None))
              <= len (List.filter failed builds)).
  { rewrite map_app, sum_Z_app. unfold len in *. simpl in S. lia. }
  split; [exact A|]. split; [exact B|]. split.
  - revert A B. generalize (len (List.filter failed builds)).
    generalize (snd (fix_cycles_loop builds [] [])
                ++ emit_fix_cycle (fst (fix_cycles_loop builds [] [])) None).
    intros l. induction l as [|fc l IH]; intros n A B.
    + unfold len, sum_Z in *. simpl in *. lia.
    + inversion A; subst. unfold len, sum_Z in *. cbn [map foldr length] in *.
      specialize (IH (n - fc_failures fc) ltac:(assumption) ltac:(lia)). lia.
  - eexists _, _. split; [reflexivity|]. split; [|split; [|exact EL]].
    + eapply Forall_impl; [exact F|]. intros fc [_ H]. exact H.
    + eapply Forall_impl; [exact EF|]. intros fc [_ H]. exact H.
Qed.

Lemma redundant_builds_bounded (builds : list dev_loop_action)
    (tool_completes : list tool_complete) :
  0 <= count_redundant_builds builds tool_completes
  /\ count_redundant_builds builds tool_completes <= Z.max 0 (len builds - 1)
  /\ count_redundant_builds builds tool_completes
     <= len (List.filter succeeded (tail builds)).
Proof.
  rewrite count_redundant_builds_pairs.
  set (ets := edit_timestamps tool_completes).
  assert (P : forall l1 l2 : list dev_loop_action,
            (length (List.filter (fun pb => redundant_after ets (fst pb) (snd pb))
                       (zip l1 l2))
             <= length (List.filter succeeded l2))%nat).
  { induction l1 as [|a l1 IH]; intros [|b l2]; cbn [zip zip_with List.filter length];
      try lia.
    specialize (IH l2). cbn [fst snd]. unfold redundant_after at 1.
    destruct (succeeded b); [|exact IH].
    destruct (String.eqb _ _); [|cbn [length]; lia].
    destruct (negb _); cbn [length]; lia. }
  specialize (P builds (tail builds)).
  pose proof (filter_length succeeded (tail builds)) as L.
  assert (T : (length (tail builds) = length builds - 1)%nat)
    by (destruct builds; simpl; lia).
  unfold len. repeat split; lia.
Qed.

Lemma build_summary_dev_loop (fl : Q -> Q) (cdm : string -> string -> option Z)
    (ev : events) (dev_loop : list dev_loop_action) (llm_calls : list llm_call) :
  let builds := List.filter (is_kind Build) dev_loop in
  exists r, build_summary fl cdm ev dev_loop llm_calls = Some r
    /\ fix_cycles (r_dev_loop_summary r) = detect_fix_cycles builds
    /\ sm_fix_cycles (r_summary r) = len (detect_fix_cycles builds)
    /\ redundant_builds (r_dev_loop_summary r) =
       count_redundant_builds builds (e_tool_completes ev)
    /\ total_builds (r_dev_loop_summary r) = len builds
    /\ build_failures (r_dev_loop_summary r) = len (List.filter failed builds)
    /\ sm_total_builds (r_summary r) = len builds
    /\ sm_build_failures (r_summary r) = len (List.filter failed builds).
Proof.
  intros builds. subst builds. unfold failed.
  summary_report; repeat split; reflexivity.
Qed.

(** X21. Every reported fix cycle has at least 2 failures; the failures
    of all fix cycles together are at most the reported build failures, so
    there are at most half as many fix cycles as build failures; and only
    the last fix cycle can be without resolution time. *)
Theorem fix_cycles_within_failures (fl : Q -> Q) (cdm : string -> string -> option Z)
    (ev : events) (dev_loop : list dev_loop_action) (llm_calls : list llm_call) :
  exists r, build_summary fl cdm ev dev_loop llm_calls = Some r
    /\ Forall (fun fc => 2 <= fc_failures fc) (fix_cycles (r_dev_loop_summary r))
    /\ sum_Z (map fc_failures (fix_cycles (r_dev_loop_summary r)))
       <= build_failures (r_dev_loop_summary r)
    /\ 2 * sm_fix_cycles (r_summary r) <= sm_build_failures (r_summary r)
    /\ exists resolved unresolved,
         fix_cycles (r_dev_loop_summary r) = resolved ++ unresolved
         /\ Forall (fun fc => is_Some (fc_resolution fc)) resolved
         /\ Forall (fun fc => fc_resolution fc = None) unresolved
         /\ (length unresolved <= 1)%nat.
Proof.
  destruct (build_summary_dev_loop fl cdm ev dev_loop llm_calls)
    as (r & E & F & N & _ & _ & BF & _ & SF).
  exists r. split; [exact E|]. rewrite F, N, BF, SF.
  apply fix_cycles_bounded.
Qed.

Lemma succeeded_or_failed (l : list dev_loop_action) :
  len (List.filter succeeded l) = len l - len (List.filter failed l).
Proof.
  unfold len, failed. pose proof (filter_length succeeded l). lia.
Qed.

(** X22. The number of redundant builds is not negative, at most the
    number of builds that succeeded, and at most one less than the number
    of builds. *)
Theorem redundant_builds_within_successes (fl : Q -> Q)
    (cdm : string -> string -> option Z) (ev : events)
    (dev_loop : list dev_loop_action) (llm_calls : list llm_call) :
  exists r, build_summary fl cdm ev dev_loop llm_calls = Some r
    /\ 0 <= redundant_builds (r_dev_loop_summary r)
    /\ redundant_builds (r_dev_loop_summary r)
       <= total_builds (r_dev_loop_summary r) - build_failures (r_dev_loop_summary r)
    /\ redundant_builds (r_dev_loop_summary r)
       <= Z.max 0 (total_builds (r_dev_loop_summary r) - 1).
Proof.
  destruct (build_summary_dev_loop fl cdm ev dev_loop llm_calls)
    as (r & E & _ & _ & R & T & BF & _).
  exists r. split; [exact E|]. rewrite R, T, BF.
  destruct (redundant_builds_bounded (List.filter (is_kind Build) dev_loop)
              (e_tool_completes ev)) as (A & B & C).
  rewrite <- succeeded_or_failed. repeat split; try assumption.
  etransitivity; [exact C|].
  destruct (List.filter (is_kind Build) dev_loop) as [|b l]; [reflexivity|].
  cbn [tail List.filter]. unfold len. destruct (succeeded b); cbn [length]; lia.
Qed.

(** **** Estimated cost *)

Section TotalCost.
Variable fl : Q -> Q.
Variable cdm : string -> string -> option Z.
Hypothesis fl_mono : forall q q', (q <= q')%Q -> (fl q <= fl q')%Q.
Hypothesis fl_zero : (fl 0 == 0)%Q.

Lemma compute_cost_nonneg (model : string) (i o c : Z) :
  0 <= o -> 0 <= c -> (0 <= compute_cost fl i o c model)%Q.
Proof.
  intros Ho Hc. rewrite compute_cost_unfold.
  destruct (pricing_sane model) as (Pi & Po & Pc & _).
  apply py_round_nonneg; [exact fl_mono | exact fl_zero |].
  repeat apply fadd_nonneg; try exact fl_mono; try exact fl_zero;
    apply cost_term_nonneg; try assumption; lia.
Qed.

(** X23. In every arithmetic whose rounding is monotone and keeps 0, for
    calls whose output and cache-read counts are not negative, the
    estimated cost is not negative, whatever the input counts are; and it
    is 0 without calls. *)
Theorem estimated_cost_nonneg (ev : events) (dev_loop : list dev_loop_action)
    (llm_calls : list llm_call) :
  Forall (fun c => 0 <= c_output_tokens c /\ 0 <= c_cache_read_tokens c) llm_calls ->
  exists r, build_summary fl cdm ev dev_loop llm_calls = Some r
    /\ (0 <= estimated_cost_usd (r_summary r))%Q
    /\ (llm_calls = [] -> (estimated_cost_usd (r_summary r) == 0)%Q).
Proof.
  intros F.
  assert (G : forall acc, (0 <= acc)%Q ->
            (0 <= foldl (fun total_cost c =>
                           fadd fl total_cost
                             (compute_cost fl (c_input_tokens c) (c_output_tokens c)
                                (c_cache_read_tokens c) (c_model c))) acc llm_calls)%Q).
  { induction F as [|c l [Ho Hc] F IH]; intros acc Pa; [exact Pa|].
    cbn [foldl]. apply IH.
    apply fadd_nonneg; [exact fl_mono | exact fl_zero | exact Pa |].
    apply compute_cost_nonneg; assumption. }
  destruct (build_summary_analysis fl cdm ev dev_loop llm_calls)
    as (r & E & _ & _ & _ & _ & _ & _ & _ & _ & _ & _ & _ & C).
  exists r. split; [exact E|]. rewrite C. split.
  - apply py_round_nonneg; [exact fl_mono | exact fl_zero |].
    apply G. apply Qle_refl.
  - intros ->. apply py_round_0; [exact fl_mono | exact fl_zero | reflexivity].
Qed.
End TotalCost.

Lemma estimated_cost_nonneg_witness :
  exists r, build_summary b64 no_clock initial_events [] [call 1000 200] = Some r
    /\ (0 <= estimated_cost_usd (r_summary r))%Q.
Proof.
  destruct (estimated_cost_nonneg b64 no_clock b64_mono b64_0 initial_events []
              [call 1000 200]) as (r & E & P & _).
  - repeat constructor; simpl; lia.
  - exists r. split; assumption.
Defined.

(** *** Durations *)

Lemma round_half_even_near (q : Q) :
  (q - (1 # 2) <= inject_Z (round_half_even q) <= q + (1 # 2))%Q.
Proof.
  unfold round_half_even.
  pose proof (Qfloor_le q) as L. pose proof (Qlt_floor q) as U.
  rewrite inject_Z_plus in U. change (inject_Z 1) with 1%Q in U.
  destruct (Qcompare_spec (q - inject_Z (Qfloor q)) (1 # 2)) as [A|A|A].
  - destruct (Z.even (Qfloor q)); [|rewrite inject_Z_plus; change (inject_Z 1) with 1%Q];
      lra.
  - lra.
  - rewrite inject_Z_plus. change (inject_Z 1) with 1%Q. lra.
Qed.

Lemma pow2_m53 : (pow2 (-53) == unit_roundoff)%Q.
Proof. reflexivity. Qed.

Lemma b64_pos_rel (a : Q) :
  (0 < a)%Q ->
  (a - a * unit_roundoff <= b64_pos a <= a + a * unit_roundoff)%Q.
Proof.
  intros Pa. destruct (binade_spec a Pa) as [La _]. unfold b64_pos.
  set (e := binade a) in *. pose proof (pow2_pos (e - 52)) as Pp.
  pose proof (round_half_even_near (a / pow2 (e - 52))) as [N1 N2].
  set (m := inject_Z (round_half_even (a / pow2 (e - 52)))) in *.
  assert (Ea : (a / pow2 (e - 52) * pow2 (e - 52) == a)%Q).
  { field. intros H. rewrite H in Pp. apply (Qlt_irrefl 0 Pp). }
  assert (H1 : ((a / pow2 (e - 52) - (1 # 2)) * pow2 (e - 52) <= m * pow2 (e - 52))%Q)
    by (apply Qmult_le_compat_r; [exact N1 | apply Qlt_le_weak, Pp]).
  assert (H2 : (m * pow2 (e - 52) <= (a / pow2 (e - 52) + (1 # 2)) * pow2 (e - 52))%Q)
    by (apply Qmult_le_compat_r; [exact N2 | apply Qlt_le_weak, Pp]).
  assert (Hp : ((1 # 2) * pow2 (e - 52) <= a * unit_roundoff)%Q).
  { replace (e - 52) with (e + -53 + 1) by lia.
    rewrite pow2_add, pow2_add. rewrite pow2_m53. change (pow2 1) with 2%Q.
    assert ((1 # 2) * (pow2 e * unit_roundoff * 2) == pow2 e * unit_roundoff)%Q as ->
      by ring.
    apply Qmult_le_compat_r; [exact La | discriminate]. }
  assert (E1 : ((a / pow2 (e - 52) - (1 # 2)) * pow2 (e - 52)
                == a - (1 # 2) * pow2 (e - 52))%Q).
  { rewrite <- Ea at 2. ring. }
  assert (E2 : ((a / pow2 (e - 52) + (1 # 2)) * pow2 (e - 52)
                == a + (1 # 2) * pow2 (e - 52))%Q).
  { rewrite <- Ea at 2. ring. }
  rewrite E1 in H1. rewrite E2 in H2. lra.
Qed.

Lemma b64_rel (a : Q) :
  (0 < a)%Q -> (a - a * unit_roundoff <= b64 a <= a + a * unit_roundoff)%Q.
Proof.
  intros Pa. rewrite b64_unfold.
  destruct (Qcompare_spec a 0) as [A|A|A]; try (exfalso; lra).
  apply b64_pos_rel, Pa.
Qed.

Lemma b64_1000 : (b64 (inject_Z 1000) == 1000)%Q.
Proof. vm_compute. reflexivity. Qed.

Lemma b64_comp (q q' : Q) : (q == q')%Q -> (b64 q == b64 q')%Q.
Proof. apply (fl_comp b64 b64_mono). Qed.

(** The float that the program truncates, against the exact number of
    milliseconds. *)
Lemma milliseconds_float (us : Z) :
  0 <= us <= 10 ^ 15 ->
  let y := fmul b64 (total_seconds b64 us) (float_of_int b64 1000) in
  (0 <= y)%Q
  /\ (inject_Z us / 1000 - (1 # 1000) < y < inject_Z us / 1000 + (1 # 1000))%Q.
Proof.
  intros [L U]. cbn zeta. unfold fmul, total_seconds, float_of_int.
  set (s := (inject_Z us / inject_Z 1000000)%Q).
  assert (Es : (inject_Z us / 1000 == s * 1000)%Q) by (unfold s; field).
  rewrite Es.
  assert (B : (b64 (b64 s * b64 (inject_Z 1000)) == b64 (b64 s * 1000))%Q).
  { apply b64_comp. rewrite b64_1000. reflexivity. }
  rewrite B. clear B.
  assert (S0 : (0 <= s)%Q).
  { unfold s. apply Qle_shift_div_l; [reflexivity|]. rewrite Qmult_0_l.
    apply (inject_Z_le 0), L. }
  assert (S1 : (s <= 1000000000)%Q).
  { unfold s. apply Qle_shift_div_r; [reflexivity|].
    change (1000000000 * inject_Z 1000000)%Q with (inject_Z (10 ^ 15)).
    apply inject_Z_le, U. }
  destruct (Qlt_le_dec 0 s) as [Ps|Zs].
  - pose proof (b64_rel s Ps) as [Rs1 Rs2].
    assert (Px : (0 < b64 s)%Q).
    { unfold unit_roundoff in Rs1. lra. }
    assert (PX : (0 < b64 s * 1000)%Q) by lra.
    pose proof (b64_rel _ PX) as [Y1 Y2].
    unfold unit_roundoff in *. lra.
  - assert (Z0 : (s == 0)%Q) by lra.
    assert (Y0 : (b64 (b64 s * 1000) == 0)%Q).
    { rewrite (b64_comp _ 0); [apply b64_0|].
      rewrite (b64_comp s 0 Z0), b64_0. ring. }
    rewrite Y0, Z0. lra.
Qed.

Lemma Qfloor_between (y : Q) (m : Z) :
  (inject_Z m <= y)%Q -> (y < inject_Z (m + 1))%Q -> Qfloor y = m.
Proof.
  intros L U. pose proof (Qfloor_le y) as F1. pose proof (Qlt_floor y) as F2.
  assert (A : (inject_Z m < inject_Z (Qfloor y + 1))%Q) by lra.
  assert (B : (inject_Z (Qfloor y) < inject_Z (m + 1))%Q) by lra.
  rewrite <- Zlt_Qlt in A, B. lia.
Qed.

Lemma inject_Z_div_1000 (us : Z) :
  (inject_Z us / 1000 ==
   inject_Z (us / 1000) + inject_Z (us mod 1000) / 1000)%Q.
Proof.
  rewrite (Z.div_mod us 1000) at 1 by lia.
  rewrite inject_Z_plus, inject_Z_mult. change (inject_Z 1000) with 1000%Q. field.
Qed.

Lemma floor_of_milliseconds (us : Z) (y : Q) :
  (inject_Z us / 1000 - (1 # 1000) < y < inject_Z us / 1000 + (1 # 1000))%Q ->
  Qfloor y = us / 1000 \/ (us mod 1000 = 0 /\ Qfloor y = us / 1000 - 1).
Proof.
  intros [L U]. rewrite inject_Z_div_1000 in L, U.
  pose proof (Z.mod_pos_bound us 1000 ltac:(lia)) as [R0 R1].
  set (m := us / 1000) in *. set (r := us mod 1000) in *.
  destruct (Z.eq_dec r 0) as [E|N].
  - rewrite E in L, U.
    assert (Z0 : (inject_Z 0 / 1000 == 0)%Q) by reflexivity. rewrite Z0 in L, U.
    destruct (Qlt_le_dec y (inject_Z m)) as [Lt|Ge].
    + right. split; [exact E|]. apply Qfloor_between.
      * assert (Em : (inject_Z (m - 1) == inject_Z m - 1)%Q)
          by (unfold Z.sub; rewrite inject_Z_plus; unfold Qeq; simpl; lia).
        rewrite Em. lra.
      * replace (m - 1 + 1) with m by lia. exact Lt.
    + left. apply Qfloor_between; [exact Ge|].
      rewrite inject_Z_plus. change (inject_Z 1) with 1%Q. lra.
  - left. assert (A : (1 <= inject_Z r)%Q) by (apply (inject_Z_le 1); lia).
    assert (B : (inject_Z r <= 999)%Q) by (apply (inject_Z_le r 999); lia).
    assert (C : (inject_Z r / 1000 == inject_Z r * (1 # 1000))%Q) by field.
    rewrite C in L, U.
    apply Qfloor_between; [|rewrite inject_Z_plus; change (inject_Z 1) with 1%Q]; lra.
Qed.

Lemma int_of_float_nonneg (y : Q) : (0 <= y)%Q -> int_of_float y = Qfloor y.
Proof.
  intros P. unfold int_of_float.
  destruct (Qle_bool 0 y) eqn:E; [reflexivity|].
  apply Qle_bool_iff in P. congruence.
Qed.

Section ClockFacts.
Variable fromisoformat : string -> option datetime.

(** X24. In binary64, for two time stamps that parse, of which either
    both or none carry an offset, and whose difference is between 0 and
    10^15 microseconds: the duration is the number of whole milliseconds
    of the difference, except that for a difference of a whole number of
    milliseconds it can be one less. *)
Theorem duration_truncates_milliseconds (start_ts end_ts : option string)
    (s e : datetime) (microseconds : Z) :
  ts_to_dt fromisoformat start_ts = Some s ->
  ts_to_dt fromisoformat end_ts = Some e ->
  dt_sub e s = Returned microseconds ->
  0 <= microseconds <= 10 ^ 15 ->
  exists ms,
    compute_duration_ms b64 fromisoformat start_ts end_ts = Returned (Some ms)
    /\ (ms = microseconds / 1000
        \/ (microseconds mod 1000 = 0 /\ ms = microseconds / 1000 - 1)).
Proof.
  intros Hs He Hd R. unfold compute_duration_ms. rewrite Hs, He, Hd.
  eexists. split; [reflexivity|].
  destruct (milliseconds_float microseconds R) as [P B]. cbn zeta in *.
  rewrite int_of_float_nonneg by exact P.
  apply floor_of_milliseconds, B.
Qed.

(** X25. What [compute_duration_ms] gives. It returns no duration when
    one of the time stamps is missing, empty or does not parse; it returns
    a duration when both parse and both or none carry an offset; and when
    both parse and exactly one carries an offset, the subtraction raises a
    [TypeError] that nothing catches. *)
Theorem duration_outcomes (fl : Q -> Q) (start_ts end_ts : option string) :
  (ts_to_dt fromisoformat start_ts = None \/ ts_to_dt fromisoformat end_ts = None ->
   compute_duration_ms fl fromisoformat start_ts end_ts = Returned None)
  /\ (forall s e,
        ts_to_dt fromisoformat start_ts = Some s ->
        ts_to_dt fromisoformat end_ts = Some e ->
        (dt_utcoffset s = None <-> dt_utcoffset e = None) ->
        exists ms,
          compute_duration_ms fl fromisoformat start_ts end_ts = Returned (Some ms))
  /\ (forall s e,
        ts_to_dt fromisoformat start_ts = Some s ->
        ts_to_dt fromisoformat end_ts = Some e ->
        (dt_utcoffset s = None <-> dt_utcoffset e <> None) ->
        compute_duration_ms fl fromisoformat start_ts end_ts = TypeError)
  /\ ts_to_dt fromisoformat None = None
  /\ ts_to_dt fromisoformat (Some "") = None.
Proof.
  unfold compute_duration_ms, dt_sub. repeat split.
  - intros [H|H]; rewrite H; [reflexivity|].
    destruct (ts_to_dt fromisoformat start_ts); reflexivity.
  - intros s e -> -> [H1 H2].
    destruct (dt_utcoffset s), (dt_utcoffset e); try (eexists; reflexivity).
    + discriminate (H2 eq_refl).
    + discriminate (H1 eq_refl).
  - intros s e -> -> [H1 H2].
    destruct (dt_utcoffset s), (dt_utcoffset e); try reflexivity.
    + exfalso. assert (Some z = None) by (apply H2; discriminate). discriminate.
    + exfalso. apply (H1 eq_refl). reflexivity.
Qed.
End ClockFacts.

Lemma duration_truncates_milliseconds_witness :
  exists ms,
    compute_duration_ms b64 sample_fromisoformat
      (Some "2026-01-05T10:00:00.000Z") (Some "2026-01-05T10:00:01.0015Z")
    = Returned (Some ms)
    /\ (ms = 1001 \/ (1001500 mod 1000 = 0 /\ ms = 1000)).
Proof.
  apply (duration_truncates_milliseconds sample_fromisoformat
           (Some "2026-01-05T10:00:00.000Z") (Some "2026-01-05T10:00:01.0015Z")
           (DateTime 0 (Some 0)) (DateTime 1001500 (Some 0)) 1001500
           eq_refl eq_refl eq_refl).
  split; [lia | apply Z.leb_le; reflexivity].
Defined.

(** A duration of 1.001 s is reported as 1000 ms: binary64 turns 1.001 * 1000
    into a number just below 1001. *)
Example duration_one_less :
  compute_duration_ms b64 sample_fromisoformat
    (Some "2026-01-05T10:00:00.000Z") (Some "2026-01-05T10:00:01.001Z")
  = Returned (Some 1000).
Proof. vm_compute. reflexivity. Qed.

(** A time stamp without offset against one with [Z]. *)
Example duration_mixed :
  compute_duration_ms b64 sample_fromisoformat
    (Some "2026-01-05T10:00:00.000Z") (Some "2026-01-05T10:00:02")
  = TypeError.
Proof. vm_compute. reflexivity. Qed.

(** *** Files *)

Lemma insert_by_mtime_In (f x : log_file) (l : list log_file) :
  In x (insert_by_mtime f l) <-> x = f \/ In x l.
Proof.
  induction l as [|g l IH]; simpl; [intuition|].
  destruct (Qle_bool (lf_mtime g) (lf_mtime f)); simpl; [intuition|].
  rewrite IH. intuition.
Qed.

Lemma sorted_by_mtime_In (x : log_file) (files : list log_file) :
  In x (sorted_by_mtime files) <-> In x files.
Proof.
  induction files as [|f files IH]; simpl; [reflexivity|].
  rewrite insert_by_mtime_In, IH. intuition.
Qed.

Lemma insert_by_mtime_descending (f : log_file) (l : list log_file) :
  descending l -> descending (insert_by_mtime f l).
Proof.
  induction l as [|g l IH]; intros D; simpl; [split; [constructor | exact I]|].
  destruct D as [Dg Dl].
  destruct (Qle_bool (lf_mtime g) (lf_mtime f)) eqn:E.
  - apply Qle_bool_iff in E. split; [|split; assumption].
    constructor; [exact E|]. eapply Forall_impl; [exact Dg|].
    intros x Hx. cbn beta in *. lra.
  - assert (Lt : (lf_mtime f < lf_mtime g)%Q).
    { apply Qnot_le_lt. intros H. apply Qle_bool_iff in H. congruence. }
    split; [|apply IH, Dl].
    apply List.Forall_forall. intros x Hx. apply insert_by_mtime_In in Hx.
    destruct Hx as [->|Hx]; [lra|].
    apply (proj1 (List.Forall_forall _ _) Dg x Hx).
Qed.

Lemma sorted_by_mtime_descending (files : list log_file) :
  descending (sorted_by_mtime files).
Proof.
  induction files as [|f files IH]; simpl; [exact I|].
  apply insert_by_mtime_descending, IH.
Qed.

Lemma find_descending (p : log_file -> bool) (l : list log_file) (f : log_file) :
  descending l -> List.find p l = Some f ->
  In f l /\ p f = true
  /\ forall g, In g l -> p g = true -> (lf_mtime g <= lf_mtime f)%Q.
Proof.
  induction l as [|a l IH]; intros D H; [discriminate|].
  destruct D as [Da Dl]. cbn [List.find] in H. destruct (p a) eqn:Pa.
  - injection H as ->. split; [left; reflexivity|]. split; [exact Pa|].
    intros g [->|Hg] _; [apply Qle_refl|].
    apply (proj1 (List.Forall_forall _ _) Da g Hg).
  - destruct (IH Dl H) as (I1 & I2 & I3). split; [right; exact I1|].
    split; [exact I2|]. intros g [->|Hg] Pg; [congruence|]. apply I3; assumption.
Qed.


Section FileFacts.
Variable path_exists : string -> bool.
Variable read_text : string -> option string.

Lemma find_process_log_search (found : list log_file) (session_id : string) :
  match find_process_log path_exists read_text (Some found) session_id None with
  | Some path =>
      exists f, In f found /\ lf_path f = path
        /\ mentions read_text session_id f = true
        /\ forall g, In g found -> mentions read_text session_id g = true ->
             (lf_mtime g <= lf_mtime f)%Q
  | None => forall g, In g found -> mentions read_text session_id g = false
  end.
Proof.
  cbn [find_process_log].
  destruct (List.find (mentions read_text session_id) (sorted_by_mtime found))
    as [f|] eqn:E; cbn [fmap option_fmap option_map].
  - destruct (find_descending _ _ _ (sorted_by_mtime_descending found) E)
      as (I1 & I2 & I3).
    exists f. split; [apply sorted_by_mtime_In, I1|]. split; [reflexivity|].
    split; [exact I2|]. intros g Hg. apply I3, sorted_by_mtime_In, Hg.
  - intros g Hg. apply (List.find_none _ _ E), sorted_by_mtime_In, Hg.
Qed.

(** X26. Without an explicit log, the process log found is a file of the
    logs directory whose lines 0 to 30 mention the session id, and no file
    that mentions it there is more recent; no log is found exactly when no
    file mentions it there. An empty explicit log counts as none. Without
    logs directory nothing is found. A non-empty explicit log is returned
    when it exists, and nothing otherwise, without any search. *)
Theorem find_process_log_most_recent (found : list log_file) (session_id : string) :
  match find_process_log path_exists read_text (Some found) session_id None with
  | Some path =>
      exists f, In f found /\ lf_path f = path
        /\ mentions read_text session_id f = true
        /\ forall g, In g found -> mentions read_text session_id g = true ->
             (lf_mtime g <= lf_mtime f)%Q
  | None => forall g, In g found -> mentions read_text session_id g = false
  end
  /\ find_process_log path_exists read_text (Some found) session_id (Some "")
     = find_process_log path_exists read_text (Some found) session_id None
  /\ find_process_log path_exists read_text None session_id None = None
  /\ forall logs_dir c p,
       find_process_log path_exists read_text logs_dir session_id (Some (String c p))
       = if path_exists (String c p) then Some (String c p) else None.
Proof. split; [apply find_process_log_search | repeat split]. Qed.
End FileFacts.

Lemma file_lines_nil (content : string) : file_lines content = [] <-> content = "".
Proof.
  destruct content as [|c rest]; [split; reflexivity|]. cbn [file_lines].
  split; [|discriminate]. destruct (Ascii.eqb c "010"); [discriminate|].
  destruct (file_lines rest); discriminate.
Qed.

Lemma contains_empty (s : string) : contains "" s = true.
Proof. destruct s; reflexivity. Qed.

Lemma mentions_empty_id (read_text : string -> option string) (f : log_file) :
  mentions read_text "" f = true
  <-> exists content, read_text (lf_path f) = Some content /\ content <> "".
Proof.
  unfold mentions. destruct (read_text (lf_path f)) as [content|].
  - destruct (file_lines content) as [|l ls] eqn:E.
    + apply file_lines_nil in E. subst. split; [discriminate|].
      intros (c & [= <-] & N). congruence.
    + cbn [take existsb]. rewrite contains_empty. split; [|reflexivity].
      intros _. exists content. split; [reflexivity|]. intros ->. discriminate.
  - split; [discriminate|]. intros (c & H & _). discriminate.
Qed.

Section MainFacts.
Variable path_exists : string -> bool.
Variable read_text : string -> option string.
Variable fl : Q -> Q.
Variable cdm : string -> string -> option Z.
Variable decode_event : string -> option (event * string).
Variable json_loads : string -> option telemetry_block.

(** X27. A session whose record has an empty id (a session start that
    gives none). With no explicit log, [main] takes the most recent log
    file that can be read and is not empty, whatever session it belongs
    to, and reports one call for every usage block of that file,
    unfiltered; with no such file it reports no call. *)
Theorem main_without_session_id (session_dir_name events_content : string)
    (workspace_yaml : option string) (found : list log_file)
    (session_info : session_info) :
  e_session_info (p_events (parse_events cdm decode_event (file_lines events_content)))
  = Some session_info ->
  s_id session_info = "" ->
  let out :=
    main path_exists read_text fl cdm decode_event json_loads session_dir_name
      events_content workspace_yaml (Some found) None in
  match mo_process_log out with
  | Some path =>
      exists f content,
        In f found /\ lf_path f = path
        /\ read_text path = Some content /\ content <> ""
        /\ (forall g content', In g found ->
              read_text (lf_path g) = Some content' -> content' <> "" ->
              (lf_mtime g <= lf_mtime f)%Q)
        /\ mo_llm_calls_found out = len (usage_blocks json_loads (split_lines content))
  | None =>
      (forall g, In g found ->
         read_text (lf_path g) = None \/ read_text (lf_path g) = Some "")
      /\ mo_llm_calls_found out = 0
  end.
Proof.
  intros Hs Hid out. subst out. unfold main. rewrite Hs, Hid.
  cbn [mo_process_log mo_llm_calls_found].
  pose proof (find_process_log_search path_exists read_text found "") as H.
  destruct (find_process_log path_exists read_text (Some found) "" None)
    as [path|] eqn:E.
  - destruct H as (f & I & P & M & Max).
    apply mentions_empty_id in M. destruct M as (content & R & N).
    exists f, content. rewrite <- P. repeat split; try assumption.
    + intros g content' Hg Rg Ng. apply Max; [exact Hg|].
      apply mentions_empty_id. exists content'. split; assumption.
    + cbn [mbind option_bind]. rewrite R. unfold len. f_equal.
      apply (parse_process_log_unfiltered json_loads content).
  - split; [|reflexivity]. intros g Hg. specialize (H g Hg).
    destruct (read_text (lf_path g)) as [c|] eqn:R; [|left; reflexivity].
    right. f_equal. destruct c as [|a c]; [reflexivity|].
    assert (mentions read_text "" g = true); [|congruence].
    apply mentions_empty_id. exists (String a c). split; [exact R | discriminate].
Qed.
End MainFacts.

(** **** workspace.yaml *)

Lemma find_first {A} (p : A -> bool) (pre post : list A) (x : A) :
  Forall (fun a => p a = false) pre -> p x = true ->
  List.find p (pre ++ x :: post) = Some x.
Proof.
  intros F Px. induction F as [|a pre Ha F IH]; cbn [app List.find].
  - rewrite Px. reflexivity.
  - rewrite Ha. exact IH.
Qed.

Lemma find_absent {A} (p : A -> bool) (l : list A) :
  Forall (fun a => p a = false) l -> List.find p l = None.
Proof.
  induction 1 as [|a l Ha F IH]; [reflexivity|]. cbn [List.find]. rewrite Ha. exact IH.
Qed.

Lemma prefix_append (p s : string) : String.prefix p (String.append p s) = true.
Proof.
  induction p as [|c p IH]; [destruct s; reflexivity|].
  simpl. destruct (ascii_dec c c); [exact IH | congruence].
Qed.

(** X28. The summary of the workspace is taken from the first line of
    [workspace.yaml] that starts with [summary:]: it is the rest of that
    line without blanks around it. Without such a line, or without the
    file, there is none. *)
Theorem workspace_summary_first_line :
  (forall content pre rest post,
     file_lines content = pre ++ String.append "summary:" rest :: post ->
     Forall (fun line => String.prefix "summary:" line = false) pre ->
     workspace_summary (Some content) = Some (strip rest))
  /\ (forall content,
        Forall (fun line => String.prefix "summary:" line = false)
          (file_lines content) ->
        workspace_summary (Some content) = None)
  /\ workspace_summary None = None.
Proof.
  unfold workspace_summary. repeat split.
  - intros content pre rest post E F. cbn [mbind option_bind]. rewrite E.
    rewrite (find_first _ pre post _ F (prefix_append "summary:" rest)).
    reflexivity.
  - intros content F. cbn [mbind option_bind]. rewrite (find_absent _ _ F).
    reflexivity.
Qed.

(** **** Lines of the event file, and a session without id *)

Section Lines.
Variable cdm : string -> string -> option Z.
Variable decode_event : string -> option (event * string).

(** X6. A line of [events.jsonl] that is blank or does not decode is
    passed over: the parse is that of the file without the line. *)
Theorem parse_events_skips_lines (before after : list string) (line : string) :
  skipped decode_event line ->
  parse_events cdm decode_event (before ++ line :: after)
  = parse_events cdm decode_event (before ++ after).
Proof.
  intros S. unfold parse_events. f_equal. rewrite !omap_app. f_equal.
  cbn [omap list_omap]. destruct S as [-> | S]; [reflexivity|].
  destruct (String.eqb (strip line) ""); [reflexivity|]. rewrite S. reflexivity.
Qed.
End Lines.

Lemma parse_events_skips_lines_witness :
  parse_events no_clock decode_bare_start [bare_start_line; "   "; "{oops"]
  = parse_events no_clock decode_bare_start [bare_start_line; "{oops"].
Proof.
  apply (parse_events_skips_lines no_clock decode_bare_start [bare_start_line]
           ["{oops"] "   ").
  left. reflexivity.
Defined.

Lemma main_without_session_id_witness :
  let out :=
    main (fun _ => false) one_log b64 no_clock decode_bare_start loads_usage_object
      "0f3a" (String.append bare_start_line (String "010" "")) None
      (Some [LogFile "process-1.log" 1]) None in
  match mo_process_log out with
  | Some path =>
      exists f content,
        In f [LogFile "process-1.log" 1] /\ lf_path f = path
        /\ one_log path = Some content /\ content <> ""
        /\ (forall g content', In g [LogFile "process-1.log" 1] ->
              one_log (lf_path g) = Some content' -> content' <> "" ->
              (lf_mtime g <= lf_mtime f)%Q)
        /\ mo_llm_calls_found out
           = len (usage_blocks loads_usage_object (split_lines content))
  | None =>
      (forall g, In g [LogFile "process-1.log" 1] ->
         one_log (lf_path g) = None \/ one_log (lf_path g) = Some "")
      /\ mo_llm_calls_found out = 0
  end.
Proof.
  exact (main_without_session_id (fun _ => false) one_log b64 no_clock
           decode_bare_start loads_usage_object "0f3a"
           (String.append bare_start_line (String "010" "")) None
           [LogFile "process-1.log" 1]
           (SessionInfo "" "" "" "" "" "" "") eq_refl eq_refl).
Defined.

(** The session of the witness: the log of another session is read, and
    its call is reported. *)
Example main_reads_unrelated_log :
  let out :=
    main (fun _ => false) one_log b64 no_clock decode_bare_start loads_usage_object
      "0f3a" (String.append bare_start_line (String "010" "")) None
      (Some [LogFile "process-1.log" 1]) None in
  mo_process_log out = Some "process-1.log" /\ mo_llm_calls_found out = 1
  /\ mo_events_count out = 1.
Proof. vm_compute. repeat split. Qed.

(** *** Session directory, and the average duration *)

Section SessionDirFacts.
Variable is_dir : string -> bool.
Variable has_events : string -> bool.
Variable under_state_dir : string -> string.

Lemma session_directory_bool (path : string) :
  session_directory is_dir has_events path
  <-> is_dir path && has_events path = true.
Proof. unfold session_directory. rewrite andb_true_iff. reflexivity. Qed.

(** X29. Whatever directory [find_session_dir] returns is a directory
    that holds an [events.jsonl]. An argument that is such a directory is
    returned as it is; a session id whose directory under the session-state
    directory is one is found, with no listing. When neither holds, a
    session-state directory that does not exist makes the listing raise
    [FileNotFoundError] instead of giving [None]; and [None] means that no
    listed name with the argument as prefix is such a directory. *)
Theorem find_session_dir_sound (state_listing : option (list string))
    (session_id_or_path : string) :
  let result :=
    find_session_dir is_dir has_events under_state_dir state_listing
      session_id_or_path in
  (forall path, result = Found path -> session_directory is_dir has_events path)
  /\ (session_directory is_dir has_events session_id_or_path ->
      result = Found session_id_or_path)
  /\ (session_directory is_dir has_events (under_state_dir session_id_or_path) ->
      exists path, result = Found path)
  /\ (result = FileNotFoundError <->
      state_listing = None
      /\ ~ session_directory is_dir has_events session_id_or_path
      /\ ~ session_directory is_dir has_events (under_state_dir session_id_or_path))
  /\ (result = NotFound ->
      forall names name, state_listing = Some names -> In name names ->
        String.prefix session_id_or_path name = true ->
        ~ session_directory is_dir has_events (under_state_dir name)).
Proof.
  cbn zeta. unfold find_session_dir. rewrite !session_directory_bool.
  destruct (is_dir session_id_or_path && has_events session_id_or_path) eqn:A.
  { split; [intros path [= <-]; apply session_directory_bool, A|].
    split; [reflexivity|]. split; [eexists; reflexivity|].
    split; [split; [discriminate | intros (_ & N & _); congruence] | discriminate]. }
  destruct (is_dir (under_state_dir session_id_or_path)
            && has_events (under_state_dir session_id_or_path)) eqn:B.
  { split; [intros path [= <-]; apply session_directory_bool, B|].
    split; [discriminate|]. split; [eexists; reflexivity|].
    split; [split; [discriminate | intros (_ & _ & N); congruence] | discriminate]. }
  destruct state_listing as [names|].
  2: { split; [discriminate|]. split; [discriminate|]. split; [discriminate|].
       split; [|discriminate]. split; [|reflexivity].
       intros _. repeat split; congruence. }
  destruct (List.find _ names) as [name|] eqn:F.
  - apply List.find_some in F. destruct F as [I F].
    apply andb_true_iff in F. destruct F as [F F3].
    apply andb_true_iff in F. destruct F as [F1 F2].
    split; [intros path [= <-]; split; assumption|].
    split; [discriminate|]. split; [discriminate|].
    split; [split; [discriminate | intros (N & _); discriminate] | discriminate].
  - split; [discriminate|]. split; [discriminate|]. split; [discriminate|].
    split; [split; [discriminate | intros (N & _); discriminate]|].
    intros _ names' name [= <-] I P S. apply session_directory_bool in S.
    apply andb_true_iff in S. destruct S as [S1 S2].
    pose proof (List.find_none _ _ F name I) as Z. cbn beta in Z.
    rewrite S1, P, S2 in Z. discriminate.
Qed.
End SessionDirFacts.

Lemma build_summary_average (fl : Q -> Q) (cdm : string -> string -> option Z)
    (ev : events) (dev_loop : list dev_loop_action) (llm_calls : list llm_call) :
  exists r, build_summary fl cdm ev dev_loop llm_calls = Some r
    /\ avg_llm_duration_ms (r_summary r) =
       match llm_calls with
       | [] => 0
       | _ => round_half_even
                (fdiv fl (inject_Z (sum_Z (map c_duration_ms llm_calls)))
                   (inject_Z (len llm_calls)))
       end
    /\ total_llm_duration_ms (r_summary r) = sum_Z (map c_duration_ms llm_calls).
Proof. summary_report; split; reflexivity. Qed.

Lemma sum_Z_between (l : list Z) (lo hi : Z) :
  Forall (fun d => lo <= d <= hi) l ->
  len l * lo <= sum_Z l <= len l * hi.
Proof.
  unfold len, sum_Z. induction 1 as [|d l Hd F IH]; [simpl; lia|].
  cbn [foldr length]. lia.
Qed.

Section Average.
Variable fl : Q -> Q.
Variable cdm : string -> string -> option Z.
Hypothesis fl_mono : forall q q', (q <= q')%Q -> (fl q <= fl q')%Q.

(** X30. In every arithmetic whose rounding is monotone and exact on two
    integers that bound the durations of the calls, the average duration of
    the report lies between these bounds; without calls it is 0. *)
Theorem average_duration_between (ev : events) (dev_loop : list dev_loop_action)
    (llm_calls : list llm_call) (lo hi : Z) :
  (fl (inject_Z lo) == inject_Z lo)%Q -> (fl (inject_Z hi) == inject_Z hi)%Q ->
  Forall (fun c => lo <= c_duration_ms c <= hi) llm_calls ->
  exists r, build_summary fl cdm ev dev_loop llm_calls = Some r
    /\ (llm_calls = [] -> avg_llm_duration_ms (r_summary r) = 0)
    /\ (llm_calls <> [] -> lo <= avg_llm_duration_ms (r_summary r) <= hi).
Proof.
  intros Elo Ehi F.
  assert (S : len llm_calls * lo <= sum_Z (map c_duration_ms llm_calls)
              <= len llm_calls * hi).
  { replace (len llm_calls) with (len (map c_duration_ms llm_calls))
      by (unfold len; rewrite length_map; reflexivity).
    apply sum_Z_between. induction F; constructor; assumption. }
  destruct (build_summary_average fl cdm ev dev_loop llm_calls) as (r & E & A & _).
  exists r. split; [exact E|]. rewrite A. split; [intros ->; reflexivity|].
  intros N. destruct llm_calls as [|c l]; [congruence|].
  set (n := len (c :: l)) in *. set (t := sum_Z (map c_duration_ms (c :: l))) in *.
  assert (Pn : 0 < n) by (unfold n, len; simpl; lia).
  assert (Qn : (0 < inject_Z n)%Q) by (apply (inject_Z_lt 0), Pn).
  assert (L : (inject_Z lo <= inject_Z t / inject_Z n)%Q).
  { apply Qle_shift_div_l; [exact Qn|]. rewrite <- inject_Z_mult.
    apply inject_Z_le. lia. }
  assert (U : (inject_Z t / inject_Z n <= inject_Z hi)%Q).
  { apply Qle_shift_div_r; [exact Qn|]. rewrite <- inject_Z_mult.
    apply inject_Z_le. lia. }
  unfold fdiv. split.
  - rewrite <- (round_half_even_inject lo). apply round_half_even_mono.
    rewrite <- Elo. apply fl_mono, L.
  - rewrite <- (round_half_even_inject hi). apply round_half_even_mono.
    rewrite <- Ehi. apply fl_mono, U.
Qed.
End Average.

Lemma average_duration_between_witness :
  exists r,
    build_summary b64 no_clock initial_events []
      [ LlmCall "gpt-5.2" "agent" "" 0 0 0 0 0 100;
        LlmCall "gpt-5.2" "agent" "" 0 0 0 0 0 201 ] = Some r
    /\ 100 <= avg_llm_duration_ms (r_summary r) <= 201.
Proof.
  destruct (average_duration_between b64 no_clock b64_mono initial_events []
              [ LlmCall "gpt-5.2" "agent" "" 0 0 0 0 0 100;
                LlmCall "gpt-5.2" "agent" "" 0 0 0 0 0 201 ] 100 201)
    as (r & E & _ & H).
  - vm_compute. reflexivity.
  - vm_compute. reflexivity.
  - repeat constructor; simpl; lia.
  - exists r. split; [exact E|]. apply H. discriminate.
Defined.
